(** * Trajectory retargeting: replay driver, displacement search, dispatcher

    A shallow embedding of

    - [rendering/envs/target_env.py]: [TargetEnvWrapper.generate_image], the
      per-episode replay driver;
    - [rendering/generate_target_robot_images_new.py]: [select_gripper],
      [generate_one_episode] (displacement search and committed replay) and
      the result-collection loop of [main].

    The simulator, the device picker, [reach_further], the lookup tables and
    the input files are collaborators of the code: they are an interface
    ([External], [inputs]) over which every definition is parametric.
    numpy's float arithmetic is an interface too ([Scalar]); no algebraic law
    is assumed of it, so what is proved holds whatever the rounding.
    Python exceptions are values of [result]; effects on the file system and
    on the logs are lists of events, oldest first. *)

From Stdlib Require Import Reals Lra QArith ZArith NArith Ascii String List Bool
  Lia.
From stdpp Require Import base gmap strings list.

(** ** Numbers, vectors, poses *)

(** The operations of numpy floats that the code uses.  [flit] reads a
    decimal literal of the source. *)
Class Scalar (F : Type) := {
  flit : Q -> F;
  fadd : F -> F -> F;
  fsub : F -> F -> F;
  fmul : F -> F -> F;
  fdiv : F -> F -> F;
  fltb : F -> F -> bool;
  fsin : F -> F;
  fcos : F -> F;
  fdeg2rad : F -> F
}.

Record vec3 (F : Type) := V3 { vx : F; vy : F; vz : F }.
Arguments V3 {F} vx vy vz.
Arguments vx {F} _.
Arguments vy {F} _.
Arguments vz {F} _.

(** A quaternion in scipy's scalar-last layout [[x, y, z, w]]. *)
Record quat (F : Type) := Quat { qx : F; qy : F; qz : F; qw : F }.
Arguments Quat {F} qx qy qz qw.
Arguments qx {F} _.
Arguments qy {F} _.
Arguments qz {F} _.
Arguments qw {F} _.

(** A row of the [N x 7] pose array: [pose[:3]] and [pose[3:]]. *)
Record pose (F : Type) := Pose { pos3 : vec3 F; ori : quat F }.
Arguments Pose {F} pos3 ori.
Arguments pos3 {F} _.
Arguments ori {F} _.

Section Numerics.
Context {F : Type} `{Scalar F}.

Definition vadd (a b : vec3 F) : vec3 F :=
  V3 (fadd (vx a) (vx b)) (fadd (vy a) (vy b)) (fadd (vz a) (vz b)).

Definition vsub (a b : vec3 F) : vec3 F :=
  V3 (fsub (vx a) (vx b)) (fsub (vy a) (vy b)) (fsub (vz a) (vz b)).

(** [np.zeros(3)] *)
Definition zeros3 : vec3 F := V3 (flit 0) (flit 0) (flit 0).

(** [p[:3] -= d] and [p[:3] += d] on a pose row. *)
Definition pose_sub (p : pose F) (d : vec3 F) : pose F :=
  Pose (vsub (pos3 p) d) (ori p).

Definition pose_add (p : pose F) (d : vec3 F) : pose F :=
  Pose (vadd (pos3 p) d) (ori p).
End Numerics.

(** ** scipy.spatial.transform.Rotation

    [Rotation.from_euler(seq, angles, degrees)] followed by [as_quat()], as
    scipy documents and implements it: the axes of [seq] are given in lower
    case for extrinsic rotations (about the fixed frame) and in upper case
    for intrinsic ones (about the rotating frame); the result starts from the
    elementary quaternion of the first axis and, for each further axis,
    multiplies the elementary quaternion on the left (extrinsic) or on the
    right (intrinsic).  Nothing is normalised. *)

Inductive axis := AxisX | AxisY | AxisZ.

Inductive convention := Extrinsic | Intrinsic.

Section Rotation.
Context {F : Type} `{Scalar F}.

Definition make_elementary_quat (a : axis) (angle : F) : quat F :=
  let s := fsin (fdiv angle (flit 2)) in
  let c := fcos (fdiv angle (flit 2)) in
  match a with
  | AxisX => Quat s (flit 0) (flit 0) c
  | AxisY => Quat (flit 0) s (flit 0) c
  | AxisZ => Quat (flit 0) (flit 0) s c
  end.

(** The Hamilton product [p * q]: the rotation [q] followed by [p]. *)
Definition compose_quat (p q : quat F) : quat F :=
  Quat
    (fadd (fadd (fmul (qw p) (qx q)) (fmul (qw q) (qx p)))
          (fsub (fmul (qy p) (qz q)) (fmul (qz p) (qy q))))
    (fadd (fadd (fmul (qw p) (qy q)) (fmul (qw q) (qy p)))
          (fsub (fmul (qz p) (qx q)) (fmul (qx p) (qz q))))
    (fadd (fadd (fmul (qw p) (qz q)) (fmul (qw q) (qz p)))
          (fsub (fmul (qx p) (qy q)) (fmul (qy p) (qx q))))
    (fsub (fmul (qw p) (qw q))
          (fadd (fadd (fmul (qx p) (qx q)) (fmul (qy p) (qy q)))
                (fmul (qz p) (qz q)))).

Fixpoint elementary_quat_compose (c : convention) (result : quat F)
    (rest : list (axis * F)) : quat F :=
  match rest with
  | [] => result
  | (a, angle) :: rest' =>
      let e := make_elementary_quat a angle in
      elementary_quat_compose c
        (match c with
         | Intrinsic => compose_quat result e
         | Extrinsic => compose_quat e result
         end) rest'
  end.

Definition from_euler (c : convention) (a1 a2 a3 : axis) (x1 x2 x3 : F)
    (degrees : bool) : quat F :=
  let conv x := if degrees then fdeg2rad x else x in
  elementary_quat_compose c (make_elementary_quat a1 (conv x1))
    [(a2, conv x2); (a3, conv x3)].
End Rotation.

(** ** Exceptions and the state-and-exception monad *)

Inductive exn :=
| ValueError (msg : string)
| KeyError (key : string)
| IndexError
| UnboundLocalError (name : string)
| FileNotFoundError
| ExternalError (msg : string).

Inductive result (A : Type) := Ok (a : A) | Raise (e : exn).
Arguments Ok {A} a.
Arguments Raise {A} e.

(** A computation over a state [S] that returns or raises; what it did to the
    state before raising stays done. *)
Definition M (S A : Type) : Type := S -> result A * S.

#[global] Instance M_ret S : MRet (M S) := fun A a s => (Ok a, s).

#[global] Instance M_bind S : MBind (M S) := fun A B f m s =>
  match m s with
  | (Ok a, s') => f a s'
  | (Raise e, s') => (Raise e, s')
  end.

Definition raise {S A} (e : exn) : M S A := fun s => (Raise e, s).

(** [d[k]] on a dict, [a[i]] on an array. *)
Definition dict_get {S V} (d : gmap string V) (k : string) : M S V :=
  match d !! k with
  | Some v => mret v
  | None => raise (KeyError k)
  end.

Definition array_get {S A} (a : list A) (i : nat) : M S A :=
  match a !! i with
  | Some x => mret x
  | None => raise IndexError
  end.

(** [try: body except Exception as exc: handler(exc)] *)
Definition try_except {S A} (body : M S A) (handler : exn -> M S A) : M S A :=
  fun s =>
    match body s with
    | (Ok a, s') => (Ok a, s')
    | (Raise e, s') => handler e s'
    end.

(** ** The collaborators of the code *)

(** The simulator behind [self.target_env], the device picker and the pose
    helper of [core.signal].  [Proc] is the state of the worker process that
    these calls read and change (device binding, MuJoCo environment).  The
    calls of the replay loop return; construction and device selection may
    raise. *)
Class External (F : Type) := {
  Proc : Type;
  Img : Type;
  Joints : Type;
  DriveError : Type;
  pick_best_gpu : Proc -> result unit * Proc;
  import_envs : Proc -> result unit * Proc;
  new_RobotCameraWrapper :
    string -> string -> string -> nat -> nat -> Proc -> result unit * Proc;
  set_camera_pose : vec3 F -> quat F -> Proc -> Proc;
  set_camera_fov : F -> Proc -> Proc;
  update_camera : Proc -> Proc;
  get_gripper_width_from_qpos : Proc -> (F * F) * Proc;
  open_close_gripper : bool -> Proc -> Proc;
  drive_robot_to_target_pose :
    pose F -> Proc -> (bool * pose F * DriveError) * Proc;
  compute_eef_pose : Proc -> pose F * Proc;
  qpos_joint_angles : Proc -> Joints;
  get_observation_fast : bool -> nat -> nat -> Proc -> (Img * Img) * Proc;
  reach_further : pose F -> F -> pose F
}.

(** The tables of [config] and the files that the code reads. *)
Record viewpoint (F : Type) := Viewpoint {
  camera_position : vec3 F;
  roll : F;
  pitch : F;
  yaw : F;
  camera_fov : F;
  episodes : list nat
}.
Arguments Viewpoint {F} _ _ _ _ _ _.
Arguments camera_position {F} _.
Arguments roll {F} _.
Arguments pitch {F} _.
Arguments yaw {F} _.
Arguments camera_fov {F} _.
Arguments episodes {F} _.

Record dataset_info (F : Type) := DatasetInfo {
  viewpoints : list (viewpoint F);
  extend_gripper : F
}.
Arguments DatasetInfo {F} _ _.
Arguments viewpoints {F} _.
Arguments extend_gripper {F} _.

(** The archive [source_robot_states/<episode>.npz]. *)
Record episode_data (F : Type) := EpisodeData {
  data_pos : list (pose F);
  data_grip : list F;
  data_fov : option F
}.
Arguments EpisodeData {F} _ _ _.
Arguments data_pos {F} _.
Arguments data_grip {F} _.
Arguments data_fov {F} _.

Record inputs (F : Type) := Inputs {
  ROBOT_CAMERA_POSES_DICT : gmap string (dataset_info F);
  ROBOT_POSE_DICT : gmap string (gmap string (vec3 F));
  (** [np.load(<root>/source_robot_states/<episode>.npz)] *)
  source_robot_states : string -> nat -> option (episode_data F);
  (** [<root>/source_robot_states/<robot>/offsets/<episode>.npy], if a file *)
  offsets_file : string -> string -> nat -> option (vec3 F)
}.
Arguments Inputs {F} _ _ _ _.
Arguments ROBOT_CAMERA_POSES_DICT {F} _.
Arguments ROBOT_POSE_DICT {F} _.
Arguments source_robot_states {F} _.
Arguments offsets_file {F} _.

(** ** Effects *)

(** The places [generate_image] writes to, under a root folder and for a
    target robot. *)
Inductive path :=
| ReplayMaskDir (root robot : string)
| ReplayVideoDir (root robot : string)
| ReplayMaskFile (root robot : string) (episode : nat)
| ReplayVideoFile (root robot : string) (episode : nat)
| TargetStatesDir (root robot : string)
| TargetStatesFile (root robot : string) (episode : nat).

Section Effects.
Context {F : Type} `{Scalar F} `{External F}.

Inductive video_frames_np :=
| MaskFrames255 (frames : list Img)
| RgbFrames (frames : list Img).

Inductive fs_event :=
| Mkdir (p : path)
| Imwrite (p : path) (frames : video_frames_np) (fps : nat) (codec : string)
| Savez (p : path) (target_pose : list (pose F)) (joint_angles : list Joints)
    (gripper_width : list (F * F)) (offsets : vec3 F).

(** Calls of [print] and of the logger of [envs.target_env]. *)
Inductive out_event :=
| DebugFailedAtPose (episode pose_index : nat) (suggestion : vec3 F)
| PrintSuccess (robot : string) (episode : nat)
| PrintUnlimited (robot : string) (episode : nat)
| PrintFailure (robot : string) (episode : nat)
| DebugSuccess (episode : nat) (robot_disp : vec3 F) (steps : nat)
| DebugFailed (episode : nat) (robot_disp suggestion : vec3 F)
| PrintWarningNoDisplacement (root robot : string) (episode : nat).

Record World := MkWorld {
  proc : Proc;
  fs : list fs_event;
  out : list out_event
}.

(** A call of the simulator. *)
Definition sim {A} (f : Proc -> A * Proc) : M World A := fun w =>
  let '(a, p) := f (proc w) in (Ok a, MkWorld p (fs w) (out w)).

Definition sim_ (f : Proc -> Proc) : M World unit := fun w =>
  (Ok tt, MkWorld (f (proc w)) (fs w) (out w)).

Definition sim_read {A} (f : Proc -> A) : M World A := fun w =>
  (Ok (f (proc w)), w).

Definition sim_try {A} (f : Proc -> result A * Proc) : M World A := fun w =>
  let '(r, p) := f (proc w) in (r, MkWorld p (fs w) (out w)).

Definition write (e : fs_event) : M World unit := fun w =>
  (Ok tt, MkWorld (proc w) (fs w ++ [e]) (out w)).

Definition emit (e : out_event) : M World unit := fun w =>
  (Ok tt, MkWorld (proc w) (fs w) (out w ++ [e])).
End Effects.

(** ** The replay driver: [TargetEnvWrapper.generate_image] *)

(** The fields of [self] that are not the simulator. *)
Record TargetEnvWrapper := Wrapper {
  target_name : string;
  camera_height : nat;
  camera_width : nat
}.

Section Replay.
Context {F : Type} `{Scalar F} `{External F}.
Variable inp : inputs F.

(** Lines 45-55: the first viewpoint whose episodes contain [episode], and
    the camera pose built from it.  The rotation is
    [R.from_euler('xyz', [roll, pitch, yaw], degrees=True)]: lower-case
    axes, which scipy reads as extrinsic. *)
Definition find_viewpoint (episode : nat) (vs : list (viewpoint F))
    : option (viewpoint F) :=
  List.find (fun v => bool_decide (episode ∈ episodes v)) vs.

Definition viewpoint_camera_pose (v : viewpoint F) : pose F :=
  Pose
    (vadd (camera_position v)
          (V3 (flit (-0.6)%Q) (flit 0.0%Q) (flit 0.912%Q)))
    (from_euler Extrinsic AxisX AxisY AxisZ (roll v) (pitch v) (yaw v) true).

(** The pose handed to [set_camera_pose] (line 59 applied to line 54). *)
Definition resolve_camera_pose (info : dataset_info F) (episode : nat)
    (robot_disp : vec3 F) : option (pose F) :=
  match find_viewpoint episode (viewpoints info) with
  | Some v => Some (pose_sub (viewpoint_camera_pose v) robot_disp)
  | None => None
  end.

(** Line 92: [gripper_dist < target - 0.1 or gripper_dist > target + 0.1]. *)
Definition out_of_tolerance (gripper_dist target : F) : bool :=
  fltb gripper_dist (fsub target (flit 0.1%Q))
  || fltb (fadd target (flit 0.1%Q)) gripper_dist.

(** Lines 92-98, the [while] loop.  [remaining] is [10 - attempt]: the
    guard [attempt < 10] holds exactly when it is not zero. *)
Fixpoint gripper_while (remaining : nat) (target gripper_dist : F)
    (attempt : nat) (p : Proc) : (F * nat) * Proc :=
  match remaining with
  | O => ((gripper_dist, attempt), p)
  | S remaining' =>
      if out_of_tolerance gripper_dist target then
        let p1 :=
          if fltb gripper_dist (fsub target (flit 0.1%Q))
          then open_close_gripper true p
          else if fltb (fadd target (flit 0.1%Q)) gripper_dist
          then open_close_gripper false p
          else p in
        let '((_, gripper_dist'), p2) := get_gripper_width_from_qpos p1 in
        gripper_while remaining' target gripper_dist' (S attempt) p2
      else ((gripper_dist, attempt), p)
  end.

(** The variables that the loop over the poses updates. *)
Record locals := Locals {
  target_pose_list : list (pose F);
  joint_angles_list : list Joints;
  gripper_width_list : list (F * F);
  success : bool;
  mask_frames : list Img;
  video_frames : list Img;
  suggestion : vec3 F
}.

(** Lines 70-76 and 85. *)
Definition initial_locals : locals :=
  Locals [] [] [] true [] [] zeros3.

Section Loop.
Variable self : TargetEnvWrapper.
Variable info : dataset_info F.
Variable gripper_array : list F.
Variable robot_disp : vec3 F.
Variables unlimited dry_run : bool.
Variable episode : nat.

(** Lines 87-89. *)
Definition remap_target (row : pose F) : pose F :=
  reach_further (pose_sub row robot_disp) (extend_gripper info).

(** How one turn of the loop over the poses ends: at its last line, or
    by the [break] of line 114. *)
Inductive step_exit :=
| Continue (l : locals)
| Break (l : locals).

(** Lines 87-164, the body of the loop for the row [pose_index]. *)
Definition replay_step (row : pose F) (pose_index : nat) (l : locals)
    : M World step_exit :=
  let target_pose := remap_target row in
  '(_, gripper_dist) ← sim get_gripper_width_from_qpos;
  target_width ← array_get gripper_array pose_index;
  _ ← sim (gripper_while 10 target_width gripper_dist 0);
  '(target_reached, target_reached_pose, _) ←
    sim (drive_robot_to_target_pose target_pose);
  if negb unlimited && negb target_reached then
    let suggestion' :=
      vsub (pos3 target_reached_pose) (pos3 target_pose) in
    emit (DebugFailedAtPose episode pose_index suggestion');;
    mret (Break (Locals (target_pose_list l) (joint_angles_list l)
                   (gripper_width_list l) false
                   (mask_frames l) (video_frames l) suggestion'))
  else
    reached_pose ← sim compute_eef_pose;
    let reached_pose := pose_add reached_pose robot_disp in
    width ← sim get_gripper_width_from_qpos;
    joint_angles ← sim_read qpos_joint_angles;
    '(target_robot_img, target_robot_seg_img) ←
      sim (get_observation_fast true
             (camera_width self) (camera_height self));
    mret (Continue
            (Locals (target_pose_list l ++ [reached_pose])
               (joint_angles_list l ++ [joint_angles])
               (gripper_width_list l ++ [width])
               (success l)
               (if dry_run then mask_frames l
                else mask_frames l ++ [target_robot_seg_img])
               (if dry_run then video_frames l
                else video_frames l ++ [target_robot_img])
               (suggestion l))).

(** Lines 86-166: the rows still to replay, the index of the first of
    them, the variables so far. *)
Fixpoint replay_loop (rows : list (pose F)) (pose_index : nat)
    (l : locals) : M World locals :=
  match rows with
  | [] => mret l
  | row :: rows' =>
      exit ← replay_step row pose_index l;
      match exit with
      | Continue l' => replay_loop rows' (S pose_index) l'
      | Break l' => mret l'
      end
  end.
End Loop.

(** Lines 167-181.  [np.stack] raises [ValueError] on an empty list; both
    stacks are built before the first video is written. *)
Definition encode_videos (root robot : string) (episode : nat) (l : locals)
    : M World unit :=
  match mask_frames l, video_frames l with
  | [], _ | _, [] => raise (ValueError "need at least one array to stack")
  | _ :: _, _ :: _ =>
      write (Imwrite (ReplayMaskFile root robot episode)
               (MaskFrames255 (mask_frames l)) 30 "libx264");;
      write (Imwrite (ReplayVideoFile root robot episode)
               (RgbFrames (video_frames l)) 30 "libx264")
  end.

(** Lines 200-225.  [np.vstack] raises on an empty list as well. *)
Definition save_state (root robot : string) (episode : nat)
    (robot_disp : vec3 F) (l : locals) : M World unit :=
  write (Mkdir (TargetStatesDir root robot));;
  match target_pose_list l, joint_angles_list l with
  | [], _ | _, [] =>
      raise (ValueError "need at least one array to concatenate")
  | _ :: _, _ :: _ =>
      write (Savez (TargetStatesFile root robot episode)
               (target_pose_list l) (joint_angles_list l)
               (gripper_width_list l) robot_disp)
  end.

(** Lines 167-243: what follows the loop. *)
Definition finish (self : TargetEnvWrapper) (root : string)
    (robot_disp : vec3 F) (unlimited : bool) (episode : nat)
    (dry_run : bool) (l : locals) : M World (bool * vec3 F * nat) :=
  (if dry_run then mret tt
   else encode_videos root (target_name self) episode l);;
  if success l then
    emit (if unlimited then PrintUnlimited (target_name self) episode
          else PrintSuccess (target_name self) episode);;
    (if dry_run then mret tt
     else save_state root (target_name self) episode robot_disp l);;
    let steps := length (target_pose_list l) in
    emit (DebugSuccess episode robot_disp steps);;
    mret (success l, suggestion l, steps)
  else
    emit (PrintFailure (target_name self) episode);;
    emit (DebugFailed episode robot_disp (suggestion l));;
    let steps := length (target_pose_list l) in
    mret (false, suggestion l, steps).

(** Lines 40-65 and 78-84: what precedes the loop.  Returns the episode,
    the dataset entry and the displacement in use. *)
Definition prepare (self : TargetEnvWrapper)
    (save_paired_images_folder_path source_robot_states_path : string)
    (robot_dataset : string) (robot_disp : option (vec3 F))
    (episode : nat) (dry_run : bool)
    : M World (episode_data F * dataset_info F * vec3 F) :=
  data ← match source_robot_states inp source_robot_states_path episode with
         | Some d => mret d
         | None => raise FileNotFoundError
         end;
  info ← dict_get (ROBOT_CAMERA_POSES_DICT inp) robot_dataset;
  robot_disp ← match robot_disp with
               | Some d => mret d
               | None =>
                   by_robot ← dict_get (ROBOT_POSE_DICT inp) robot_dataset;
                   dict_get by_robot (target_name self)
               end;
  camera_pose ← match resolve_camera_pose info episode robot_disp with
                | Some c => mret c
                | None => raise (UnboundLocalError "camera_pose")
                end;
  sim_ (set_camera_pose (pos3 camera_pose) (ori camera_pose));;
  match data_fov data with
  | Some fov => sim_ (set_camera_fov fov)
  | None => mret tt
  end;;
  sim_ update_camera;;
  (if dry_run then mret tt
   else
     write (Mkdir (ReplayMaskDir save_paired_images_folder_path
                     (target_name self)));;
     write (Mkdir (ReplayVideoDir save_paired_images_folder_path
                     (target_name self))));;
  mret (data, info, robot_disp).

Definition generate_image (self : TargetEnvWrapper)
    (save_paired_images_folder_path source_robot_states_path : string)
    (robot_dataset : string) (robot_disp : option (vec3 F))
    (unlimited : bool) (episode : nat) (dry_run : bool)
    : M World (bool * vec3 F * nat) :=
  '(data, info, robot_disp) ←
    prepare self save_paired_images_folder_path source_robot_states_path
      robot_dataset robot_disp episode dry_run;
  l ← replay_loop self info (data_grip data) robot_disp unlimited dry_run
        episode (data_pos data) 0 initial_locals;
  finish self save_paired_images_folder_path robot_disp unlimited episode
    dry_run l.
End Replay.

(** ** The worker: [select_gripper] and [generate_one_episode] *)

(** Python's [repr] of a [str], which [{robot!r}] of line 28 calls.  A
    string is read as the sequence of its code points, all below 256 here.
    The quotes are single, or double when the string has a single quote and
    no double one; the quote in use and the backslash are escaped with a
    backslash; tab, newline and carriage return are written [\t], [\n] and
    [\r]; a code point that is not printable (below 32, from 127 to 160, and
    173) is written [\xhh] with two lower-case hexadecimal digits; any other
    is copied. *)
Definition hex_digit (n : N) : ascii :=
  match String.get (N.to_nat n) "0123456789abcdef" with
  | Some c => c
  | None => "0"%char
  end.

Definition escape_x (c : ascii) : string :=
  let n := N_of_ascii c in
  String "\" (String "x" (String (hex_digit (n / 16))
                            (String (hex_digit (n mod 16)) EmptyString))).

Definition isprintable (c : ascii) : bool :=
  let n := N_of_ascii c in
  ((32 <=? n) && (n <? 127) || (161 <=? n) && negb (n =? 173))%N.

Definition repr_char (quote c : ascii) : string :=
  if Ascii.eqb c quote || Ascii.eqb c "\"
  then String "\" (String c EmptyString)
  else if Ascii.eqb c "009" then "\t"
  else if Ascii.eqb c "010" then "\n"
  else if Ascii.eqb c "013" then "\r"
  else if isprintable c then String c EmptyString
  else escape_x c.

Fixpoint repr_chars (quote : ascii) (s : string) : string :=
  match s with
  | EmptyString => EmptyString
  | String c s' => repr_char quote c ++ repr_chars quote s'
  end.

Fixpoint contains (c : ascii) (s : string) : bool :=
  match s with
  | EmptyString => false
  | String c' s' => Ascii.eqb c c' || contains c s'
  end.

Definition repr (s : string) : string :=
  let quote :=
    if contains "'" s && negb (contains "034" s) then "034"%char
    else "'"%char in
  String quote (repr_chars quote s ++ String quote EmptyString).

(** Lines 18-28. *)
Definition select_gripper (robot : string) : result string :=
  if bool_decide (robot = "Sawyer") then Ok "RethinkGripper"
  else if bool_decide (robot = "Jaco") then Ok "JacoThreeFingerGripper"
  else if bool_decide (robot ∈ ["IIWA"; "UR5e"; "Kinova3"])
  then Ok "Robotiq85Gripper"
  else if bool_decide (robot = "Panda") then Ok "PandaGripper"
  else Raise (ValueError ("Unknown robot " ++ repr robot)).

(** Calls of the loggers of the worker module. *)
Inductive wlog_event (F : Type) :=
| InfoInitialDisplacement (episode : nat) (robot : string)
    (displacement : vec3 F)
| DebugTestDisp (episode : nat) (robot : string) (cand : vec3 F) (ok : bool)
    (steps : nat)
| LogException (episode : nat) (robot : string) (exc : exn).
Arguments InfoInitialDisplacement {F} _ _ _.
Arguments DebugTestDisp {F} _ _ _ _ _.
Arguments LogException {F} _ _ _.

Section Logged.
Context {F St : Type}.

(** A computation on [St] run by the worker, whose log it leaves alone. *)
Definition lift {A} (m : M St A) : M (St * list (wlog_event F)) A :=
  fun sl => let '(r, s') := m (fst sl) in (r, (s', snd sl)).

Definition wlog (e : wlog_event F) : M (St * list (wlog_event F)) unit :=
  fun sl => (Ok tt, (fst sl, snd sl ++ [e])).
End Logged.

(** Lines 71-116: the search, over any dry-run replay
    [wrapper.generate_image(..., robot_disp=cand, dry_run=True)]. *)
Section Search.
Context {F : Type} `{Scalar F} {St : Type}.
Variable dry_run_replay : vec3 F -> M St (bool * vec3 F * nat).
Variable episode : nat.
Variable robot : string.

(** Lines 74-82. *)
Definition candidates (displacement : vec3 F) (step : F) : list (vec3 F) :=
  [ displacement;
    vadd displacement (V3 step (flit 0) (flit 0));
    vsub displacement (V3 step (flit 0) (flit 0));
    vadd displacement (V3 (flit 0) step (flit 0));
    vsub displacement (V3 (flit 0) step (flit 0));
    vadd displacement (V3 (flit 0) (flit 0) step);
    vsub displacement (V3 (flit 0) (flit 0) step) ].

(** How the loop over the candidates ends: by [break] at a candidate that
    replays, or by running out of candidates (the [else] of the [for]). *)
Inductive inner_exit :=
| Broke (cand : vec3 F) (steps : nat)
| Exhausted (best_steps : Z) (best_disp : vec3 F).

(** Lines 86-111. *)
Fixpoint try_candidates (cands : list (vec3 F)) (best_steps : Z)
    (best_disp : vec3 F) : M (St * list (wlog_event F)) inner_exit :=
  match cands with
  | [] => mret (Exhausted best_steps best_disp)
  | cand :: cands' =>
      '(ok, _, steps) ← lift (dry_run_replay cand);
      wlog (DebugTestDisp episode robot cand ok steps);;
      if ok : bool then mret (Broke cand steps)
      else if (Z.of_nat steps >? best_steps)%Z
      then try_candidates cands' (Z.of_nat steps) cand
      else try_candidates cands' best_steps best_disp
  end.

(** Lines 73-116: [iterations] rounds are left of [range(max_iter)]. *)
Fixpoint search (iterations : nat) (displacement : vec3 F) (step : F)
    : M (St * list (wlog_event F)) (vec3 F) :=
  match iterations with
  | O => mret displacement
  | S iterations' =>
      exit ← try_candidates (candidates displacement step) (-1)
               displacement;
      match exit with
      | Broke cand _ => mret cand
      | Exhausted _ best_disp =>
          search iterations' best_disp (fmul step (flit 0.5%Q))
      end
  end.

(** Lines 71-116: [step = 0.05], [max_iter = 5] and the loop. *)
Definition displacement_search (displacement : vec3 F)
    : M (St * list (wlog_event F)) (vec3 F) :=
  let step := flit 0.05%Q in
  let max_iter := 5 in
  search max_iter displacement step.
End Search.

Section Worker.
Context {F : Type} `{Scalar F} `{External F}.
Variable inp : inputs F.

(** Lines 46-128: the body of the [try]. *)
Definition worker_body (robot_dataset robot : string) (episode : nat)
    (H W : nat) (gripper out_root : string)
    (unlimited load_displacement : bool)
    : M (World * list (wlog_event F)) (string * nat * bool) :=
  lift (sim_try (new_RobotCameraWrapper robot gripper robot_dataset H W));;
  let wrapper := Wrapper robot H W in
  displacement ←
    (if load_displacement then
       match offsets_file inp out_root robot episode with
       | Some d => mret d
       | None =>
           lift (emit (PrintWarningNoDisplacement out_root robot episode));;
           mret zeros3
       end
     else
       by_robot ← dict_get (ROBOT_POSE_DICT inp) robot_dataset;
       dict_get by_robot robot);
  wlog (InfoInitialDisplacement episode robot displacement);;
  displacement ←
    displacement_search
      (fun cand =>
         generate_image inp wrapper out_root out_root robot_dataset
           (Some cand) unlimited episode true)
      episode robot displacement;
  '(success, _, _) ←
    lift (generate_image inp wrapper out_root out_root robot_dataset
            (Some displacement) unlimited episode false);
  mret (robot, episode, success).

(** Lines 40-134.  The device, the import and the gripper come before the
    [try].  Line 41 sets a variable of the environment of the process, which
    nothing here reads. *)
Definition generate_one_episode (robot_dataset robot : string)
    (episode : nat) (camera_hw : nat * nat) (out_root : string)
    (unlimited load_displacement : bool)
    : M (World * list (wlog_event F)) (string * nat * bool) :=
  lift (sim_try pick_best_gpu);;
  lift (sim_try import_envs);;
  let '(H, W) := camera_hw in
  gripper ← (fun s => (select_gripper robot, s));
  try_except
    (worker_body robot_dataset robot episode H W gripper out_root unlimited
       load_displacement)
    (fun exc =>
       wlog (LogException episode robot exc);;
       mret (robot, episode, false)).
End Worker.

(** ** The dispatcher: the result-collection loop of [main] *)

(** The whitelist files [<out_root>/<robot>/whitelist.json], by robot; each
    holds a JSON object from robot names to lists of episodes. *)
Abbreviation whitelists := (gmap string (gmap string (list nat))).

(** Modelled from the spec: [core.locked_json] is not among the sources.
    Under an exclusive lock on the file it reads the persisted object (an
    empty one when there is no file), hands it to the body, and writes what
    the body made of it back atomically. *)
Definition locked_json (file : string)
    (body : gmap string (list nat) -> gmap string (list nat))
    (files : whitelists) : whitelists :=
  <[file := body (default ∅ (files !! file))]> files.

(** Line 199: [wl.setdefault(robot, []).append(ep)]. *)
Definition setdefault_append (robot : string) (ep : nat)
    (wl : gmap string (list nat)) : gmap string (list nat) :=
  <[robot := default [] (wl !! robot) ++ [ep]]> wl.

(** Lines 193-199 over the futures in completion order: [fut.result()]
    returns what the worker returned or raises what it raised. *)
Fixpoint collect_results (completed : list (result (string * nat * bool)))
    : M whitelists unit :=
  match completed with
  | [] => mret tt
  | Raise e :: _ => raise e
  | Ok (robot, ep, ok) :: completed' =>
      if negb ok then collect_results completed'
      else
        (fun files => (Ok tt, locked_json robot (setdefault_append robot ep) files));;
        collect_results completed'
  end.

(** The CompletionSet of a robot: the episodes listed under its name in its
    whitelist file. *)
Definition completion_set (files : whitelists) (robot : string) : gset nat :=
  list_to_set (default [] (default ∅ (files !! robot) !! robot)).

(** ** Instances of the interfaces *)

(** Real arithmetic: what the floats approximate.  Used where a statement is
    about the value of a rotation. *)
Module Exact.
#[export] Instance scalar : Scalar R := {|
  flit := Q2R;
  fadd := Rplus;
  fsub := Rminus;
  fmul := Rmult;
  fdiv := Rdiv;
  fltb := fun a b => if Rlt_dec a b then true else false;
  fsin := sin;
  fcos := cos;
  fdeg2rad := fun x => (x * (PI / 180))%R
|}.
End Exact.

(** A simulator that records the calls of the gripper and of the controller
    in its own state, on top of any other: what a claim about the calls
    issued is stated on. *)
Inductive recorded_call (F : Type) :=
| ReadWidth (normalized : F)
| Actuate (gripper_open : bool)
| Drive (target_pose : pose F).
Arguments ReadWidth {F} _.
Arguments Actuate {F} _.
Arguments Drive {F} _.

Section Recording.
Context {F : Type} (E : External F).

Definition keep {A} (f : @Proc F E -> A * @Proc F E)
    (pt : @Proc F E * list (recorded_call F))
    : A * (@Proc F E * list (recorded_call F)) :=
  let '(a, p) := f (fst pt) in (a, (p, snd pt)).

Definition recording : External F := {|
  Proc := (@Proc F E * list (recorded_call F))%type;
  Img := @Img F E;
  Joints := @Joints F E;
  DriveError := @DriveError F E;
  pick_best_gpu := keep pick_best_gpu;
  import_envs := keep import_envs;
  new_RobotCameraWrapper := fun r g d h w =>
    keep (new_RobotCameraWrapper r g d h w);
  set_camera_pose := fun pos q pt => (set_camera_pose pos q (fst pt), snd pt);
  set_camera_fov := fun fov pt => (set_camera_fov fov (fst pt), snd pt);
  update_camera := fun pt => (update_camera (fst pt), snd pt);
  get_gripper_width_from_qpos := fun pt =>
    let '(w, p) := get_gripper_width_from_qpos (fst pt) in
    (w, (p, snd pt ++ [ReadWidth (snd w)]));
  open_close_gripper := fun b pt =>
    (open_close_gripper b (fst pt), snd pt ++ [Actuate b]);
  drive_robot_to_target_pose := fun target pt =>
    let '(r, p) := drive_robot_to_target_pose target (fst pt) in
    (r, (p, snd pt ++ [Drive target]));
  compute_eef_pose := keep compute_eef_pose;
  qpos_joint_angles := fun pt => qpos_joint_angles (fst pt);
  get_observation_fast := fun wb w h => keep (get_observation_fast wb w h);
  reach_further := reach_further
|}.
End Recording.

(** A bench to run the code on: exact rationals with short series for the
    trigonometry, and a simulator whose controller follows a script. *)
Module Bench.
#[export] Instance scalar : Scalar Q := {|
  flit := fun q => q;
  fadd := Qplus;
  fsub := Qminus;
  fmul := Qmult;
  fdiv := Qdiv;
  fltb := fun a b => negb (Qle_bool b a);
  fsin := fun x => (x - x * x * x / 6)%Q;
  fcos := fun x => (1 - x * x / 2)%Q;
  fdeg2rad := fun x => (x * (355 # 113) / 180)%Q
|}.

(** [script]: what the controller will report at its next calls ([true]
    once the script is over); [width]: the opening of the gripper;
    [rendered]: the frames rendered so far; [camera]: the pose that the
    camera was last given. *)
Record bench := MkBench {
  script : list bool;
  width : Q;
  eef : pose Q;
  rendered : nat;
  camera : option (pose Q)
}.

Definition drive (target : pose Q) (b : bench)
    : (bool * pose Q * unit) * bench :=
  match script b with
  | [] =>
      ((true, target, tt),
       MkBench [] (width b) target (rendered b) (camera b))
  | reached :: script' =>
      let stop :=
        if reached then target
        else pose_sub target (V3 (1 # 100) 0 0)%Q in
      ((reached, stop, tt),
       MkBench script' (width b) stop (rendered b) (camera b))
  end.

#[export] Instance simulator : External Q := {|
  Proc := bench;
  Img := nat;
  Joints := list Q;
  DriveError := unit;
  pick_best_gpu := fun b => (Ok tt, b);
  import_envs := fun b => (Ok tt, b);
  new_RobotCameraWrapper := fun _ _ _ _ _ b => (Ok tt, b);
  set_camera_pose := fun pos q b =>
    MkBench (script b) (width b) (eef b) (rendered b) (Some (Pose pos q));
  set_camera_fov := fun _ b => b;
  update_camera := fun b => b;
  get_gripper_width_from_qpos := fun b => ((width b, width b), b);
  open_close_gripper := fun gripper_open b =>
    MkBench (script b)
      (if gripper_open then width b + (1 # 4) else width b - (1 # 4))%Q
      (eef b) (rendered b) (camera b);
  drive_robot_to_target_pose := drive;
  compute_eef_pose := fun b => (eef b, b);
  qpos_joint_angles := fun b => [width b];
  get_observation_fast := fun _ _ _ b =>
    ((rendered b, rendered b),
     MkBench (script b) (width b) (eef b) (S (rendered b)) (camera b));
  reach_further := fun p distance =>
    Pose (V3 (vx (pos3 p)) (vy (pos3 p)) (vz (pos3 p) + distance)%Q) (ori p)
|}.

Definition origin : vec3 Q := V3 0%Q 0%Q 0%Q.

Definition row : pose Q := Pose (V3 (1 # 2) 0 (1 # 2))%Q (Quat 0 0 0 1)%Q.

(** One dataset with one viewpoint for the episodes 0, 1 and 2; the
    episode [e] has [e + 1] steps.  The recorded gripper is at rest, except
    under the root ["far"], where it is recorded wide open: twenty
    actuations away. *)
Definition tables : inputs Q := {|
  ROBOT_CAMERA_POSES_DICT :=
    {[ "demo" :=
         DatasetInfo
           [Viewpoint (V3 1 0 1)%Q 0%Q 0%Q 0%Q 45%Q [0; 1; 2]] 0%Q ]};
  ROBOT_POSE_DICT := {[ "demo" := {[ "Panda" := origin ]} ]};
  source_robot_states := fun root e =>
    Some (EpisodeData (repeat row (S e))
            (repeat (if bool_decide (root = "far") then 5%Q else 0%Q) (S e))
            None);
  offsets_file := fun _ _ _ => None
|}.

Definition panda : TargetEnvWrapper := Wrapper "Panda" 256 256.

Definition start (script : list bool) : World :=
  MkWorld (MkBench script 0%Q row 0 None) [] [].

(** A dataset with three viewpoints; the episode 1 is among the episodes of
    the second and of the third.  The default displacement of the robot is
    not zero. *)
Definition front_camera : viewpoint Q :=
  Viewpoint (V3 2 0 1)%Q 0%Q 0%Q 0%Q 45%Q [0].

Definition side_camera : viewpoint Q :=
  Viewpoint (V3 0 1 (1 # 2))%Q 90%Q 90%Q 30%Q 60%Q [1; 2].

Definition top_camera : viewpoint Q :=
  Viewpoint (V3 0 0 3)%Q 180%Q 0%Q 0%Q 30%Q [1].

Definition studio_info : dataset_info Q :=
  DatasetInfo [front_camera; side_camera; top_camera] 0%Q.

Definition shifted : vec3 Q := V3 (1 # 10) (2 # 10) (3 # 10).

Definition studio : inputs Q := {|
  ROBOT_CAMERA_POSES_DICT := {[ "studio" := studio_info ]};
  ROBOT_POSE_DICT := {[ "studio" := {[ "Panda" := shifted ]} ]};
  source_robot_states := fun root e =>
    Some (EpisodeData (repeat row (S e)) (repeat 0%Q (S e)) None);
  offsets_file := fun _ _ _ => None
|}.
End Bench.


(** ** Vocabulary of the statements *)

Section GripperVocabulary.
Context {F : Type} `{Scalar F}.

(** The calls that a list of attempts leaves in the record: an actuation,
    then the width read back. *)
Definition calls_of (attempts : list (bool * F)) : list (recorded_call F) :=
  flat_map (fun a => [Actuate (fst a); ReadWidth (snd a)]) attempts.

(** Each attempt was made on a reading out of tolerance and opens exactly
    when that reading was below the target.  [readings !! i] is the width
    read before the attempt [i]. *)
Definition justified (target : F) (readings : list F)
    (attempts : list (bool * F)) : Prop :=
  forall i b r, attempts !! i = Some (b, r) ->
    exists r0, readings !! i = Some r0
      /\ out_of_tolerance r0 target = true
      /\ b = fltb r0 (fsub target (flit 0.1%Q)).
End GripperVocabulary.

Section DriverVocabulary.
Context {F : Type} `{Scalar F} `{External F}.
Variable inp : inputs F.

(** Two runs of the loop agree on everything that is not a frame buffer. *)
Definition same_record (l1 l2 : locals) : Prop :=
  target_pose_list l1 = target_pose_list l2
  /\ joint_angles_list l1 = joint_angles_list l2
  /\ gripper_width_list l1 = gripper_width_list l2
  /\ success l1 = success l2
  /\ suggestion l1 = suggestion l2.

(** The displacement in use after lines 56-57. *)
Definition disp_in_use (robot_dataset name : string)
    (robot_disp : option (vec3 F)) : result (vec3 F) :=
  match robot_disp with
  | Some d => Ok d
  | None =>
      match ROBOT_POSE_DICT inp !! robot_dataset with
      | None => Raise (KeyError robot_dataset)
      | Some by_robot =>
          match by_robot !! name with
          | Some d => Ok d
          | None => Raise (KeyError name)
          end
      end
  end.

(** Lines 61-65 on the simulator. *)
Definition camera_set (data : episode_data F) (c : pose F) (p : Proc)
    : Proc :=
  update_camera
    (match data_fov data with
     | Some fov => set_camera_fov fov
     | None => fun p => p
     end (set_camera_pose (pos3 c) (ori c) p)).
End DriverVocabulary.

(** What one dry-run replay of the search returned. *)
Record evaluation (F : Type) := Evaluation {
  ev_cand : vec3 F;
  ev_ok : bool;
  ev_steps : nat
}.
Arguments Evaluation {F} _ _ _.
Arguments ev_cand {F} _.
Arguments ev_ok {F} _.
Arguments ev_steps {F} _.

Section SearchVocabulary.
Context {F : Type} `{Scalar F} {St : Type}.
Variable dry_run_replay : vec3 F -> M St (bool * vec3 F * nat).
Variable episode : nat.
Variable robot : string.

(** The log lines of a list of evaluations (lines 96-103). *)
Definition logged (evs : list (evaluation F)) : list (wlog_event F) :=
  map (fun e => DebugTestDisp episode robot (ev_cand e) (ev_ok e)
                  (ev_steps e)) evs.

(** The replays of the candidates one after the other, each in the state
    the one before left, up to the first that raises. *)
Fixpoint replay_all (cands : list (vec3 F)) (s : St)
    : list (evaluation F) :=
  match cands with
  | [] => []
  | cand :: cands' =>
      match dry_run_replay cand s with
      | (Ok (ok, _, steps), s') =>
          Evaluation cand ok steps :: replay_all cands' s'
      | (Raise _, _) => []
      end
  end.

(** The state that these replays leave: that of the last one, or of the
    first that raises. *)
Fixpoint state_after (cands : list (vec3 F)) (s : St) : St :=
  match cands with
  | [] => s
  | cand :: cands' =>
      match dry_run_replay cand s with
      | (Ok _, s') => state_after cands' s'
      | (Raise _, s') => s'
      end
  end.

(** The evaluations [evs] are replays made from the state [s] on: each is
    what the replay of its candidate returned, in the state that the one
    before left. *)
Definition replayed_from (s : St) (evs : list (evaluation F)) : Prop :=
  replay_all (map ev_cand evs) s = evs.

(** No replay of the list succeeded. *)
Definition all_failed (evs : list (evaluation F)) : Prop :=
  Forall (fun e => ev_ok e = false) evs.

(** [evs !! i] is [e]; no evaluation has more steps and every earlier one
    has fewer. *)
Definition first_best (evs : list (evaluation F)) (i : nat)
    (e : evaluation F) : Prop :=
  evs !! i = Some e
  /\ (forall j e', evs !! j = Some e' -> ev_steps e' <= ev_steps e)
  /\ (forall j e', j < i -> evs !! j = Some e' -> ev_steps e' < ev_steps e).

End SearchVocabulary.

(** A name of printable characters with no single quote and no backslash:
    what [repr] puts between single quotes as it is. *)
Fixpoint plain_name (s : string) : bool :=
  match s with
  | EmptyString => true
  | String c s' =>
      isprintable c && negb (Ascii.eqb c "'") && negb (Ascii.eqb c "\")
      && plain_name s'
  end.

(** The episodes that a robot's whitelist lists. *)
Definition listed (files : whitelists) (robot : string) : list nat :=
  default [] (default ∅ (files !! robot) !! robot).

(** The episodes of the tasks that report success for a robot, in the order
    of the reports. *)
Definition successes (robot : string) (results : list (string * nat * bool))
    : list nat :=
  omap (fun r : string * nat * bool =>
          if decide (r.1.1 = robot) then
            if r.2 then Some r.1.2 else None
          else None) results.

(** Inputs of the examples. *)
Module ExactInputs.
Import Exact.

(** A camera rolled and pitched by a right angle, for the episode 0. *)
Definition side_view : viewpoint R :=
  Viewpoint (V3 0 0 0)%R 90%R 90%R 0%R 60%R [0].

(** The other quaternion of the same rotation. *)
Definition qneg (q : quat R) : quat R :=
  Quat (- qx q)%R (- qy q)%R (- qz q)%R (- qw q)%R.
End ExactInputs.

Module BenchInputs.
Import Bench.

(** The dry-run replay of the episode 1 that the search of the worker
    calls. *)
Definition dry (cand : vec3 Q) : M World (bool * vec3 Q * nat) :=
  generate_image tables panda "out" "out" "demo" (Some cand) false 1 true.

(** A controller that reaches one pose only, the first of the second
    candidate. *)
Definition one_step_for_plus_x : World * list (wlog_event Q) :=
  (start [false; true; false; false; false; false; false; false], []).

Definition first_round :=
  try_candidates dry 1 "Panda" (candidates origin (flit 0.05%Q)) (-1) origin
    one_step_for_plus_x.
End BenchInputs.

(** ** The dispatcher: the tasks of [main] *)

Module Dispatch.

(** The parsed namespace (lines 138-145). *)
Record namespace := Namespace {
  robot_dataset : string;
  target_robot : list string;
  num_workers : nat;
  unlimited : bool;
  load_displacement : bool
}.

(** [dataset_metadata.json] (lines 157-161). *)
Record dataset_metadata := DatasetMetadata {
  image_height : nat;
  image_width : nat;
  num_episodes : nat
}.

(** What [main] reads: the [replay_path] entries of
    [ROBOT_CAMERA_POSES_DICT], and the metadata file under a replay path, if
    there is one. *)
Record main_inputs := MainInputs {
  replay_path : gmap string string;
  dataset_metadata_json : string -> option dataset_metadata
}.

(** A task (lines 176-184): the namespace of [generate_one_episode]. *)
Record task := Task {
  task_dataset : string;
  task_robot : string;
  task_episode : nat;
  task_camera_hw : nat * nat;
  task_out_root : string;
  task_unlimited : bool;
  task_load_displacement : bool
}.

(** What the dispatcher does beside the whitelists. *)
Inductive main_event :=
| MkdirWhitelistParent (out_root robot : string)
| PrintNothingToDo
| PrintAllFinished.

Definition main_state : Type := whitelists * list main_event.

Definition on_whitelists {A} (m : M whitelists A) : M main_state A :=
  fun st => let '(r, files) := m (fst st) in (r, (files, snd st)).

Definition main_emit (e : main_event) : M main_state unit :=
  fun st => (Ok tt, (fst st, snd st ++ [e])).

(** Lines 170-171: [with locked_json(wl_path) as wl:
    done_eps = set(wl.get(robot, []))]. *)
Definition read_done_eps (robot : string) : M whitelists (gset nat) :=
  fun files =>
    (Ok (list_to_set (default [] (default ∅ (files !! robot) !! robot))),
     locked_json robot (fun wl => wl) files).

Section Tasks.
Variable args : namespace.
Variables H W : nat.
Variable out_root : string.
Variable num_eps : nat.

(** Lines 173-185, for one robot: the episodes of [range(num_eps)] that are
    not done, in order. *)
Definition tasks_of_robot (robot : string) (done_eps : gset nat)
    : list task :=
  map (fun ep =>
         Task (robot_dataset args) robot ep (H, W) out_root (unlimited args)
           (load_displacement args))
      (filter (fun ep => ep ∉ done_eps) (seq 0 num_eps)).

(** Lines 166-185: the robots still to visit, the tasks so far. *)
Fixpoint enumerate_tasks (robots : list string) (tasks : list task)
    : M main_state (list task) :=
  match robots with
  | [] => mret tasks
  | robot :: robots' =>
      main_emit (MkdirWhitelistParent out_root robot);;
      done_eps ← on_whitelists (read_done_eps robot);
      enumerate_tasks robots' (tasks ++ tasks_of_robot robot done_eps)
  end.
End Tasks.

(** Lines 156-201.  [executor tasks] is what the futures of the pool give in
    the order in which they complete. *)
Definition main (inp : main_inputs)
    (executor : list task -> list (result (string * nat * bool)))
    (args : namespace) : M main_state unit :=
  path ← dict_get (replay_path inp) (robot_dataset args);
  dmeta ← match dataset_metadata_json inp path with
          | Some d => mret d
          | None => raise FileNotFoundError
          end;
  tasks ← enumerate_tasks args (image_height dmeta) (image_width dmeta) path
            (num_episodes dmeta) (target_robot args) [];
  match tasks with
  | [] => main_emit PrintNothingToDo
  | _ :: _ =>
      on_whitelists (collect_results (executor tasks));;
      main_emit PrintAllFinished
  end.
End Dispatch.

(** ** More vocabulary *)

(** The results that the collection loop gets to see: those of the futures
    that complete before the first one that raises. *)
Fixpoint returned (completed : list (result (string * nat * bool)))
    : list (string * nat * bool) :=
  match completed with
  | Ok r :: completed' => r :: returned completed'
  | _ => []
  end.

(** The whitelists after the reads of the enumeration. *)
Definition after_reads (robots : list string) (files : whitelists)
    : whitelists :=
  foldl (fun f robot => locked_json robot (fun wl => wl) f) files robots.

Section ArtifactVocabulary.
Context {F : Type} `{Scalar F} `{External F}.

(** The events of a committed replay on the file system: the two folders
    (lines 79-82), the two videos (lines 170-181), the archive of states
    (lines 201-225). *)
Definition replay_dirs (save : string) (self : TargetEnvWrapper)
    : list fs_event :=
  [Mkdir (ReplayMaskDir save (target_name self));
   Mkdir (ReplayVideoDir save (target_name self))].

Definition replay_videos (save : string) (self : TargetEnvWrapper)
    (episode : nat) (masks frames : list Img) : list fs_event :=
  [Imwrite (ReplayMaskFile save (target_name self) episode)
     (MaskFrames255 masks) 30 "libx264";
   Imwrite (ReplayVideoFile save (target_name self) episode)
     (RgbFrames frames) 30 "libx264"].

Definition replay_archive (save : string) (self : TargetEnvWrapper)
    (episode : nat) (poses : list (pose F)) (joints : list Joints)
    (widths : list (F * F)) (d : vec3 F) : list fs_event :=
  [Mkdir (TargetStatesDir save (target_name self));
   Savez (TargetStatesFile save (target_name self) episode) poses joints
     widths d].
End ArtifactVocabulary.

(** The tables with other fields of view for the viewpoints: [fov] gives the
    [camera_fov] that each viewpoint gets; nothing else changes. *)
Definition with_camera_fov {F : Type} (fov : viewpoint F -> F)
    (v : viewpoint F) : viewpoint F :=
  Viewpoint (camera_position v) (roll v) (pitch v) (yaw v) (fov v)
    (episodes v).

Definition with_viewpoint_fovs {F : Type} (fov : viewpoint F -> F)
    (inp : inputs F) : inputs F :=
  Inputs
    ((fun info =>
        DatasetInfo (map (with_camera_fov fov) (viewpoints info))
          (extend_gripper info))
     <$> ROBOT_CAMERA_POSES_DICT inp)
    (ROBOT_POSE_DICT inp) (source_robot_states inp) (offsets_file inp).

(** More inputs of the examples. *)
Module BenchMore.
Import Bench Dispatch.

(** The tables of the bench with one recorded width too few. *)
Definition tables_missing_width : inputs Q := {|
  ROBOT_CAMERA_POSES_DICT := ROBOT_CAMERA_POSES_DICT tables;
  ROBOT_POSE_DICT := ROBOT_POSE_DICT tables;
  source_robot_states := fun _ e =>
    Some (EpisodeData (repeat row (S e)) (repeat 0%Q e) None);
  offsets_file := fun _ _ _ => None
|}.

(** A dataset of two episodes, both done for the one robot asked for. *)
Definition demo_metadata : main_inputs := {|
  replay_path := {[ "demo" := "out" ]};
  dataset_metadata_json := fun _ => Some (DatasetMetadata 256 256 2)
|}.

Definition demo_args : namespace := Namespace "demo" ["Panda"] 8 false false.

Definition all_done : whitelists := {[ "Panda" := {[ "Panda" := [0; 1] ]} ]}.
End BenchMore.


(** * Properties *)

(** ** The gripper-matching loop *)

Section GripperMatching.
Context {F : Type} `{Scalar F} (E : External F).

Lemma gripper_while_calls (n : nat) (target gd0 : F) (a : nat)
    (p : @Proc F E) (tr : list (recorded_call F)) :
  exists attempts : list (bool * F),
    let r := @gripper_while F _ (recording E) n target gd0 a (p, tr) in
    snd (snd r) = tr ++ calls_of attempts
    /\ snd (fst r) = a + length attempts
    /\ length attempts <= n
    /\ justified target (gd0 :: map snd attempts) attempts
    /\ last (gd0 :: map snd attempts) = Some (fst (fst r))
    /\ (length attempts < n -> out_of_tolerance (fst (fst r)) target = false).
Proof.
  revert gd0 a p tr. induction n as [|n IH]; intros gd0 a p tr.
  - exists []. cbn. rewrite app_nil_r. repeat split; try lia.
    intros i b r Hi. discriminate.
  - cbn [gripper_while].
    destruct (out_of_tolerance gd0 target) eqn:Hout.
    + set (p1 := if fltb gd0 (fsub target (flit 0.1%Q)) then _ else _).
      destruct (@get_gripper_width_from_qpos F (recording E) p1)
        as [[raw gd1] p2] eqn:Hread.
      assert (Hp2 : exists b, snd p2 = tr ++ [Actuate b; ReadWidth gd1]
                      /\ b = fltb gd0 (fsub target (flit 0.1%Q))).
      { unfold out_of_tolerance in Hout. subst p1. cbn in Hread.
        destruct (fltb gd0 (fsub target (flit 0.1%Q))) eqn:Hlo.
        - cbn in Hread. destruct (get_gripper_width_from_qpos _) as [w q].
          inversion Hread; subst. exists true. cbn.
          rewrite <- app_assoc. done.
        - cbn in Hout. rewrite Hout in Hread. cbn in Hread.
          destruct (get_gripper_width_from_qpos _) as [w q].
          inversion Hread; subst. exists false. cbn.
          rewrite <- app_assoc. done. }
      destruct Hp2 as (b & Hp2 & Hb). destruct p2 as [q2 tr2].
      cbn in Hp2. subst tr2.
      destruct (IH gd1 (S a) q2 (tr ++ [Actuate b; ReadWidth gd1]))
        as (att & H1 & H2 & H3 & H4 & H5 & H6).
      exists ((b, gd1) :: att). cbn zeta in *.
      repeat split.
      * rewrite H1. cbn. rewrite <- app_assoc. done.
      * rewrite H2. cbn. lia.
      * cbn. lia.
      * intros [|i] b' r' Hi.
        -- cbn in Hi. inversion Hi; subst. exists gd0. done.
        -- cbn in Hi. apply H4 in Hi. exact Hi.
      * exact H5.
      * cbn. intros Hlt. apply H6. lia.
    + exists []. cbn. rewrite app_nil_r. repeat split; try lia; try done.
Qed.

(** Recording the calls does not change what the loop does. *)
Lemma gripper_while_recording (n : nat) (target gd0 : F) (a : nat)
    (p : @Proc F E) (tr : list (recorded_call F)) :
  let r := @gripper_while F _ (recording E) n target gd0 a (p, tr) in
  let r0 := @gripper_while F _ E n target gd0 a p in
  fst r = fst r0 /\ fst (snd r) = snd r0.
Proof.
  revert gd0 a p tr. induction n as [|n IH]; intros gd0 a p tr; cbv zeta.
  - cbn. auto.
  - cbn [gripper_while]. destruct (out_of_tolerance gd0 target); [|cbn; auto].
    match goal with
    | |- context [@get_gripper_width_from_qpos F (recording E) ?q] =>
        set (p1 := q)
    end.
    match goal with
    | |- context [@get_gripper_width_from_qpos F E ?q] => set (p0 := q)
    end.
    assert (Hp : fst p1 = p0).
    { subst p1 p0. destruct (fltb gd0 _); [reflexivity|].
      destruct (fltb _ gd0); reflexivity. }
    cbn [get_gripper_width_from_qpos recording]. rewrite Hp.
    destruct (@get_gripper_width_from_qpos F E p0) as [[raw gd1] p2].
    apply IH.
Qed.

End GripperMatching.

(** ** The replay driver *)

Section LoopFacts.
Context {F : Type} `{Scalar F} `{External F}.
Variable self : TargetEnvWrapper.
Variable info : dataset_info F.
Variable gripper_array : list F.
Variable robot_disp : vec3 F.
Variable episode : nat.

Lemma replay_step_unfold unlimited dry_run row i l w :
  replay_step self info gripper_array robot_disp unlimited dry_run episode
    row i l w =
  let '((_, gd), p1) := get_gripper_width_from_qpos (proc w) in
  match gripper_array !! i with
  | None => (Raise IndexError, MkWorld p1 (fs w) (out w))
  | Some tw =>
      let '(_, p2) := gripper_while 10 tw gd 0 p1 in
      let '((reached, stop, _), p3) :=
        drive_robot_to_target_pose (remap_target info robot_disp row) p2 in
      if negb unlimited && negb reached then
        let sug := vsub (pos3 stop) (pos3 (remap_target info robot_disp row)) in
        (Ok (Break (Locals (target_pose_list l) (joint_angles_list l)
                      (gripper_width_list l) false (mask_frames l)
                      (video_frames l) sug)),
         MkWorld p3 (fs w) (out w ++ [DebugFailedAtPose episode i sug]))
      else
        let '(at_pose, p4) := compute_eef_pose p3 in
        let '(width, p5) := get_gripper_width_from_qpos p4 in
        let '((img, seg), p6) :=
          get_observation_fast true (camera_width self) (camera_height self)
            p5 in
        (Ok (Continue
               (Locals (target_pose_list l ++ [pose_add at_pose robot_disp])
                  (joint_angles_list l ++ [qpos_joint_angles p5])
                  (gripper_width_list l ++ [width])
                  (success l)
                  (if dry_run then mask_frames l else mask_frames l ++ [seg])
                  (if dry_run then video_frames l
                   else video_frames l ++ [img])
                  (suggestion l))),
         MkWorld p6 (fs w) (out w))
  end.
Proof.
  unfold replay_step, mbind, M_bind, mret, M_ret, sim, sim_read, emit,
    array_get, raise.
  destruct w as [p f o]; cbn -[remap_target gripper_while].
  destruct (get_gripper_width_from_qpos p) as [[raw gd] p1];
    cbn -[remap_target gripper_while].
  destruct (gripper_array !! i) as [tw|]; cbn -[remap_target gripper_while];
    [|reflexivity].
  destruct (gripper_while 10 tw gd 0 p1) as [x p2]; cbn -[remap_target gripper_while].
  destruct (drive_robot_to_target_pose (remap_target info robot_disp row) p2)
    as [[[reached stop] err] p3]; cbn -[remap_target gripper_while].
  destruct (negb unlimited && negb reached); cbn -[remap_target gripper_while];
    [reflexivity|].
  destruct (compute_eef_pose p3) as [at_pose p4]; cbn -[remap_target gripper_while].
  destruct (get_gripper_width_from_qpos p4) as [wd p5]; cbn -[remap_target gripper_while].
  destruct (get_observation_fast true (camera_width self)
              (camera_height self) p5) as [[img seg] p6]; cbn -[remap_target gripper_while].
  reflexivity.
Qed.

Lemma replay_loop_cons unlimited dry_run row rows i l w :
  replay_loop self info gripper_array robot_disp unlimited dry_run episode
    (row :: rows) i l w =
  match replay_step self info gripper_array robot_disp unlimited dry_run
          episode row i l w with
  | (Ok (Continue l'), w') =>
      replay_loop self info gripper_array robot_disp unlimited dry_run
        episode rows (S i) l' w'
  | (Ok (Break l'), w') => (Ok l', w')
  | (Raise e, w') => (Raise e, w')
  end.
Proof.
  cbn [replay_loop]. unfold mbind, M_bind.
  destruct (replay_step _ _ _ _ _ _ _ _ _ _ _) as [[[l'|l']|e] w'];
    reflexivity.
Qed.

(** What the loop leaves behind, whatever the simulator does. *)
Lemma replay_loop_inv unlimited dry_run rows i l w :
  let r := replay_loop self info gripper_array robot_disp unlimited dry_run
             episode rows i l w in
  fs (snd r) = fs w /\
  match fst r with
  | Raise e => e = IndexError /\ length gripper_array < i + length rows
  | Ok l' =>
      exists n, n <= length rows
        /\ length (target_pose_list l') = length (target_pose_list l) + n
        /\ length (joint_angles_list l') = length (joint_angles_list l) + n
        /\ length (gripper_width_list l')
           = length (gripper_width_list l) + n
        /\ (if dry_run
            then mask_frames l' = mask_frames l
                 /\ video_frames l' = video_frames l
            else length (mask_frames l') = length (mask_frames l) + n
                 /\ length (video_frames l')
                    = length (video_frames l) + n)
        /\ ((success l' = success l /\ suggestion l' = suggestion l
             /\ n = length rows /\ out (snd r) = out w)
            \/ (unlimited = false /\ success l' = false
                /\ n < length rows
                /\ out (snd r)
                   = out w
                     ++ [DebugFailedAtPose episode (i + n) (suggestion l')]))
  end.
Proof.
  revert i l w. induction rows as [|row rows IH]; intros i l w.
  - cbn. split; [reflexivity|]. exists 0. rewrite !Nat.add_0_r.
    repeat split; try lia. destruct dry_run; auto. left; auto.
  - cbv zeta. rewrite replay_loop_cons, replay_step_unfold.
    destruct (get_gripper_width_from_qpos (proc w)) as [[raw gd] p1].
    destruct (gripper_array !! i) as [tw|] eqn:Hi.
    2:{ cbn. apply lookup_ge_None in Hi. repeat split; lia. }
    destruct (gripper_while 10 tw gd 0 p1) as [x p2].
    destruct (drive_robot_to_target_pose _ p2) as [[[reached stop] err] p3].
    destruct (negb unlimited && negb reached) eqn:Hab.
    + cbn. split; [reflexivity|]. exists 0. rewrite !Nat.add_0_r.
      repeat split; try lia. destruct dry_run; auto.
      right. destruct unlimited; [discriminate|].
      repeat split; lia.
    + destruct (compute_eef_pose p3) as [at_pose p4].
      destruct (get_gripper_width_from_qpos p4) as [wd p5].
      destruct (get_observation_fast _ _ _ p5) as [[img seg] p6].
      match goal with
      | |- context [replay_loop _ _ _ _ _ _ _ rows (S i) ?l1 ?w1] =>
          specialize (IH (S i) l1 w1);
          destruct (replay_loop self info gripper_array robot_disp unlimited
                      dry_run episode rows (S i) l1 w1) as [[l'|e] w']
      end; cbn in IH |- *.
      * destruct IH as (Hfs & n & Hn & H1 & H2 & H3 & H4 & H5).
        split; [exact Hfs|]. exists (S n).
        rewrite length_app in H1, H2, H3. cbn in H1, H2, H3.
        repeat split; try lia.
        -- destruct dry_run; [exact H4|].
           rewrite !length_app in H4. cbn in H4. lia.
        -- destruct H5 as [(Ha & Hb & Hc & Hd)|(Ha & Hb & Hc & Hd)];
             [left|right]; repeat split; auto; try lia.
           rewrite Hd. repeat f_equal. lia.
      * destruct IH as (Hfs & He & Hlen). repeat split; auto. lia.
Qed.

(** With [unlimited], the [break] is never taken. *)
Lemma replay_loop_unlimited dry_run rows i l w :
  i + length rows <= length gripper_array ->
  exists l' w',
    replay_loop self info gripper_array robot_disp true dry_run episode
      rows i l w = (Ok l', w')
    /\ success l' = success l /\ suggestion l' = suggestion l
    /\ length (target_pose_list l')
       = length (target_pose_list l) + length rows
    /\ length (joint_angles_list l')
       = length (joint_angles_list l) + length rows
    /\ (if dry_run then True
        else length (mask_frames l') = length (mask_frames l) + length rows
             /\ length (video_frames l')
                = length (video_frames l) + length rows)
    /\ fs w' = fs w /\ out w' = out w.
Proof.
  intros Hlen.
  pose proof (replay_loop_inv true dry_run rows i l w) as Hinv.
  cbv zeta in Hinv.
  destruct (replay_loop _ _ _ _ _ _ _ rows i l w) as [[l'|e] w'];
    cbn in Hinv.
  - destruct Hinv as (Hfs & n & Hn & H1 & H2 & _ & H4 & H5).
    exists l', w'. destruct H5 as [(Ha & Hb & Hc & Hd)|(Ha & _)];
      [|discriminate]. subst n. repeat split; auto.
    destruct dry_run; auto.
  - destruct Hinv as (_ & _ & Hlt). lia.
Qed.

Lemma replay_loop_dry_commit unlimited rows i l1 l2 w1 w2 :
  same_record l1 l2 -> proc w1 = proc w2 -> out w1 = out w2 ->
  let dry := replay_loop self info gripper_array robot_disp unlimited true
               episode rows i l1 w1 in
  let commit := replay_loop self info gripper_array robot_disp unlimited
                  false episode rows i l2 w2 in
  proc (snd dry) = proc (snd commit) /\ out (snd dry) = out (snd commit) /\
  match fst dry, fst commit with
  | Ok x, Ok y => same_record x y
  | Raise e1, Raise e2 => e1 = e2
  | _, _ => False
  end.
Proof.
  revert i l1 l2 w1 w2.
  induction rows as [|row rows IH]; intros i l1 l2 w1 w2 Hsame Hp Ho.
  - cbn. auto.
  - cbv zeta. rewrite !replay_loop_cons, !replay_step_unfold, Hp, Ho.
    destruct (get_gripper_width_from_qpos (proc w2)) as [[raw gd] p1].
    destruct (gripper_array !! i) as [tw|]; [|cbn; auto].
    destruct (gripper_while 10 tw gd 0 p1) as [x p2].
    destruct (drive_robot_to_target_pose _ p2) as [[[reached stop] err] p3].
    destruct Hsame as (H1 & H2 & H3 & H4 & H5).
    destruct (negb unlimited && negb reached).
    + cbn. repeat split; auto.
    + destruct (compute_eef_pose p3) as [at_pose p4].
      destruct (get_gripper_width_from_qpos p4) as [wd p5].
      destruct (get_observation_fast _ _ _ p5) as [[img seg] p6].
      apply IH; [|reflexivity|reflexivity].
      repeat split; cbn; congruence.
Qed.

(** A run that has not stopped goes on with the rows that follow. *)
Lemma replay_loop_app unlimited dry_run pre post i l w :
  success l = true ->
  replay_loop self info gripper_array robot_disp unlimited dry_run episode
    (pre ++ post) i l w =
  match replay_loop self info gripper_array robot_disp unlimited dry_run
          episode pre i l w with
  | (Ok l1, w1) =>
      if success l1
      then replay_loop self info gripper_array robot_disp unlimited dry_run
             episode post (i + length pre) l1 w1
      else (Ok l1, w1)
  | (Raise e, w1) => (Raise e, w1)
  end.
Proof.
  revert i l w. induction pre as [|row pre IH]; intros i l w Hs.
  - cbn. rewrite Hs, Nat.add_0_r. reflexivity.
  - rewrite <- app_comm_cons, !replay_loop_cons, replay_step_unfold.
    destruct (get_gripper_width_from_qpos (proc w)) as [[raw gd] p1].
    destruct (gripper_array !! i) as [tw|]; [|reflexivity].
    destruct (gripper_while 10 tw gd 0 p1) as [x p2].
    destruct (drive_robot_to_target_pose _ p2) as [[[reached stop] err] p3].
    destruct (negb unlimited && negb reached); [reflexivity|].
    destruct (compute_eef_pose p3) as [at_pose p4].
    destruct (get_gripper_width_from_qpos p4) as [wd p5].
    destruct (get_observation_fast _ _ _ p5) as [[img seg] p6].
    rewrite IH by exact Hs. cbn [length].
    replace (S i + length pre) with (i + S (length pre)) by lia.
    reflexivity.
Qed.

(** The early abort on the loop: the rows [pre] replay, the controller
    does not reach the row that follows. *)
Lemma replay_loop_early_abort dry_run pre row post l1 w1 w raw gd p1 tw x p2
    stop err p3 :
  replay_loop self info gripper_array robot_disp false dry_run episode
    pre 0 initial_locals w = (Ok l1, w1) ->
  success l1 = true ->
  get_gripper_width_from_qpos (proc w1) = ((raw, gd), p1) ->
  gripper_array !! length pre = Some tw ->
  gripper_while 10 tw gd 0 p1 = (x, p2) ->
  drive_robot_to_target_pose (remap_target info robot_disp row) p2
  = ((false, stop, err), p3) ->
  let sug := vsub (pos3 stop) (pos3 (remap_target info robot_disp row)) in
  replay_loop self info gripper_array robot_disp false dry_run episode
    (pre ++ row :: post) 0 initial_locals w
  = (Ok (Locals (target_pose_list l1) (joint_angles_list l1)
           (gripper_width_list l1) false (mask_frames l1) (video_frames l1)
           sug),
     MkWorld p3 (fs w1)
       (out w1 ++ [DebugFailedAtPose episode (length pre) sug]))
  /\ length (target_pose_list l1) = length pre
  /\ length (joint_angles_list l1) = length pre
  /\ length (gripper_width_list l1) = length pre
  /\ (if dry_run then mask_frames l1 = [] /\ video_frames l1 = []
      else length (mask_frames l1) = length pre
           /\ length (video_frames l1) = length pre).
Proof.
  intros Hpre Hs Hread Htw Hloop Hdrive sug.
  pose proof (replay_loop_inv false dry_run pre 0 initial_locals w) as Hinv.
  cbv zeta in Hinv. rewrite Hpre in Hinv. cbn in Hinv.
  destruct Hinv as (_ & n & _ & H1 & H2 & H3 & H4 & H5).
  destruct H5 as [(_ & _ & -> & _)|(_ & Hf & _)]; [|congruence].
  split; [|repeat split; auto].
  rewrite replay_loop_app by reflexivity. rewrite Hpre, Hs.
  rewrite replay_loop_cons, replay_step_unfold, Hread. cbn [Nat.add].
  rewrite Htw, Hloop, Hdrive. reflexivity.
Qed.
End LoopFacts.

Section GripperStep.
Context {F : Type} `{Scalar F} (E : External F).

(** C6: at every step of the loop over the poses, the loop that matches the
    gripper makes at most ten attempts.  On a simulator that records its
    calls, the step of the row [i] adds to the record: the reading of line
    90; then one actuation and one reading per attempt, at most ten attempts,
    each on a reading that differs from the recorded width
    [gripper_array[i]] by more than 0.1 and opening exactly when that reading
    is below it; then the call of the controller, whatever the last reading,
    which is within the tolerance when fewer than ten attempts were made;
    and no actuation after that.  The step returns, and the simulator under
    the record ends as it does without the record. *)
Theorem gripper_matching_at_most_ten_attempts self info gripper_array
    robot_disp unlimited dry_run episode row i l (p : @Proc F E)
    (tr : list (recorded_call F)) f o l0 f0 o0 target :
  gripper_array !! i = Some target ->
  let gd0 := snd (fst (@get_gripper_width_from_qpos F E p)) in
  let r := @replay_step F _ (recording E) self info gripper_array robot_disp
             unlimited dry_run episode row i l
             (@MkWorld F (recording E) (p, tr) f o) in
  let r0 := @replay_step F _ E self info gripper_array robot_disp unlimited
              dry_run episode row i l0 (@MkWorld F E p f0 o0) in
  exists (attempts : list (bool * F)) (rest : list (recorded_call F)),
    snd (proc (snd r))
    = tr ++ ReadWidth gd0 :: calls_of attempts
         ++ Drive (@remap_target F _ E info robot_disp row) :: rest
    /\ length attempts <= 10
    /\ justified target (gd0 :: map snd attempts) attempts
    /\ (length attempts < 10 ->
        exists r_last,
          last (gd0 :: map snd attempts) = Some r_last
          /\ out_of_tolerance r_last target = false)
    /\ Forall (fun c => forall b, c <> Actuate b) rest
    /\ (exists exit, fst r = Ok exit)
    /\ fst (proc (snd r)) = proc (snd r0).
Proof.
  intros Htarget. cbv zeta.
  rewrite (@replay_step_unfold F _ (recording E)).
  rewrite (@replay_step_unfold F _ E).
  cbn [proc fs out]. rewrite Htarget.
  cbn [get_gripper_width_from_qpos recording fst snd].
  destruct (@get_gripper_width_from_qpos F E p) as [[raw gd0] p1].
  cbn [fst snd].
  destruct (gripper_while_calls E 10 target gd0 0 p1 (tr ++ [ReadWidth gd0]))
    as (attempts & Hrec & _ & Hlen & Hjust & Hlast & Htol).
  destruct (gripper_while_recording E 10 target gd0 0 p1
              (tr ++ [ReadWidth gd0])) as [_ Hsame].
  cbv zeta in Hrec, Hlast, Htol, Hsame.
  destruct (@gripper_while F _ (recording E) 10 target gd0 0
              (p1, tr ++ [ReadWidth gd0])) as [x [p2 tr2]].
  cbn [fst snd] in Hrec, Hlast, Htol, Hsame.
  destruct (@gripper_while F _ E 10 target gd0 0 p1) as [x0 p2'].
  cbn [snd] in Hsame. subst p2' tr2.
  cbn [drive_robot_to_target_pose recording fst snd].
  change (@remap_target F _ (recording E) info robot_disp row)
    with (@remap_target F _ E info robot_disp row).
  destruct (@drive_robot_to_target_pose F E
              (@remap_target F _ E info robot_disp row) p2)
    as [[[reached stop] err] p3].
  assert (Htol' : length attempts < 10 ->
            exists r_last,
              last (gd0 :: map snd attempts) = Some r_last
              /\ out_of_tolerance r_last target = false).
  { intros Hlt. exists (fst x). split; [exact Hlast|exact (Htol Hlt)]. }
  destruct (negb unlimited && negb reached).
  - exists attempts, []. cbn [fst snd proc].
    split; [rewrite <- !app_assoc; reflexivity|].
    repeat (split; [assumption|]).
    split; [constructor|]. split; [eauto|reflexivity].
  - cbn [compute_eef_pose get_observation_fast get_gripper_width_from_qpos
         recording].
    unfold keep. cbn [fst snd].
    destruct (@compute_eef_pose F E p3) as [at_pose p4]. cbn [fst snd].
    destruct (@get_gripper_width_from_qpos F E p4) as [wd p5].
    cbn [fst snd].
    destruct (@get_observation_fast F E true (camera_width self)
                (camera_height self) p5) as [[img seg] p6].
    exists attempts, [ReadWidth (snd wd)]. cbn [fst snd proc].
    split; [rewrite <- !app_assoc; reflexivity|].
    repeat (split; [assumption|]).
    split; [repeat constructor; intros b Hb; discriminate|].
    split; [eauto|reflexivity].
Qed.
End GripperStep.

Section DriverFacts.
Context {F : Type} `{Scalar F} `{External F}.
Variable inp : inputs F.

Lemma prepare_unfold self save src robot_dataset robot_disp episode dry_run
    w :
  prepare inp self save src robot_dataset robot_disp episode dry_run w =
  match source_robot_states inp src episode with
  | None => (Raise FileNotFoundError, w)
  | Some data =>
      match ROBOT_CAMERA_POSES_DICT inp !! robot_dataset with
      | None => (Raise (KeyError robot_dataset), w)
      | Some info =>
          match disp_in_use inp robot_dataset (target_name self) robot_disp with
          | Raise e => (Raise e, w)
          | Ok d =>
              match resolve_camera_pose info episode d with
              | None => (Raise (UnboundLocalError "camera_pose"), w)
              | Some c =>
                  (Ok (data, info, d),
                   MkWorld (camera_set data c (proc w))
                     (if dry_run then fs w
                      else fs w
                           ++ [Mkdir (ReplayMaskDir save (target_name self));
                               Mkdir (ReplayVideoDir save (target_name self))])
                     (out w))
              end
          end
      end
  end.
Proof.
  unfold prepare, disp_in_use, camera_set, dict_get, raise, sim_, write,
    mbind, M_bind, mret, M_ret.
  destruct w as [p f o]; cbn.
  destruct (source_robot_states inp src episode) as [data|]; [|reflexivity].
  destruct (ROBOT_CAMERA_POSES_DICT inp !! robot_dataset) as [info|];
    [|reflexivity].
  destruct robot_disp as [d|].
  - destruct (resolve_camera_pose info episode d) as [c|]; [|reflexivity].
    destruct (data_fov data), dry_run; cbn; rewrite <- ?app_assoc;
      reflexivity.
  - destruct (ROBOT_POSE_DICT inp !! robot_dataset) as [by_robot|];
      [|reflexivity].
    destruct (by_robot !! target_name self) as [d|]; [|reflexivity].
    destruct (resolve_camera_pose info episode d) as [c|]; [|reflexivity].
    destruct (data_fov data), dry_run; cbn; rewrite <- ?app_assoc;
      reflexivity.
Qed.

Lemma generate_image_unfold self save src robot_dataset robot_disp unlimited
    episode dry_run w :
  generate_image inp self save src robot_dataset robot_disp unlimited episode
    dry_run w =
  match prepare inp self save src robot_dataset robot_disp episode dry_run w
  with
  | (Ok (data, info, d), w1) =>
      match replay_loop self info (data_grip data) d unlimited dry_run episode
              (data_pos data) 0 initial_locals w1 with
      | (Ok l, w2) => finish self save d unlimited episode dry_run l w2
      | (Raise e, w2) => (Raise e, w2)
      end
  | (Raise e, w1) => (Raise e, w1)
  end.
Proof.
  unfold generate_image, mbind, M_bind.
  destruct (prepare _ _ _ _ _ _ _ _ _) as [[[[data info] d]|e] w1];
    reflexivity.
Qed.

Lemma finish_dry self save d unlimited episode l w :
  finish self save d unlimited episode true l w =
  (Ok (success l, suggestion l, length (target_pose_list l)),
   MkWorld (proc w) (fs w)
     (out w ++
      if success l
      then [if unlimited then PrintUnlimited (target_name self) episode
            else PrintSuccess (target_name self) episode;
            DebugSuccess episode d (length (target_pose_list l))]
      else [PrintFailure (target_name self) episode;
            DebugFailed episode d (suggestion l)])).
Proof.
  unfold finish, mbind, M_bind, mret, M_ret, emit. cbn.
  destruct (success l); cbn; rewrite <- ?app_assoc; reflexivity.
Qed.

Lemma finish_commit self save d unlimited episode l w :
  finish self save d unlimited episode false l w =
  match mask_frames l, video_frames l with
  | [], _ | _, [] =>
      (Raise (ValueError "need at least one array to stack"), w)
  | _ :: _, _ :: _ =>
      let videos :=
        [Imwrite (ReplayMaskFile save (target_name self) episode)
           (MaskFrames255 (mask_frames l)) 30 "libx264";
         Imwrite (ReplayVideoFile save (target_name self) episode)
           (RgbFrames (video_frames l)) 30 "libx264"] in
      if success l then
        match target_pose_list l, joint_angles_list l with
        | [], _ | _, [] =>
            (Raise (ValueError "need at least one array to concatenate"),
             MkWorld (proc w)
               (fs w ++ videos
                ++ [Mkdir (TargetStatesDir save (target_name self))])
               (out w ++
                [if unlimited then PrintUnlimited (target_name self) episode
                 else PrintSuccess (target_name self) episode]))
        | _ :: _, _ :: _ =>
            (Ok (true, suggestion l, length (target_pose_list l)),
             MkWorld (proc w)
               (fs w ++ videos
                ++ [Mkdir (TargetStatesDir save (target_name self));
                    Savez (TargetStatesFile save (target_name self) episode)
                      (target_pose_list l) (joint_angles_list l)
                      (gripper_width_list l) d])
               (out w ++
                [if unlimited then PrintUnlimited (target_name self) episode
                 else PrintSuccess (target_name self) episode;
                 DebugSuccess episode d (length (target_pose_list l))]))
        end
      else
        (Ok (false, suggestion l, length (target_pose_list l)),
         MkWorld (proc w) (fs w ++ videos)
           (out w ++ [PrintFailure (target_name self) episode;
                      DebugFailed episode d (suggestion l)]))
  end.
Proof.
  unfold finish, encode_videos, save_state, mbind, M_bind, mret, M_ret,
    emit, write, raise.
  destruct (mask_frames l) as [|m ms] eqn:Hm; [reflexivity|].
  destruct (video_frames l) as [|v vs] eqn:Hv; [reflexivity|].
  cbn. destruct (success l) eqn:Hs; cbn.
  - destruct (target_pose_list l) as [|t ts] eqn:Ht; cbn.
    { rewrite <- !app_assoc. reflexivity. }
    destruct (joint_angles_list l) as [|j js] eqn:Hj; cbn.
    { rewrite <- !app_assoc. reflexivity. }
    rewrite <- !app_assoc. reflexivity.
  - rewrite <- !app_assoc. reflexivity.
Qed.
End DriverFacts.

Section DriverTheorems.
Context {F : Type} `{Scalar F} `{External F}.
Variable inp : inputs F.

(** C7: a replay with [dry_run] writes nothing.  The events of the file
    system are those of before the call: no directory is made, no video is
    encoded, no archive is saved; the loop leaves the two frame buffers as it
    found them; and the simulation is run in full: the simulator ends in the
    state in which the committed replay of the same episode leaves it, and
    whenever the committed replay returns, the dry run returns the same
    result and has printed and logged the same. *)
Theorem dry_run_replay_writes_nothing self save src robot_dataset robot_disp
    unlimited episode w :
  let dry := generate_image inp self save src robot_dataset robot_disp
               unlimited episode true w in
  let commit := generate_image inp self save src robot_dataset robot_disp
                  unlimited episode false w in
  fs (snd dry) = fs w
  /\ proc (snd dry) = proc (snd commit)
  /\ (forall r, fst commit = Ok r ->
        fst dry = Ok r /\ out (snd dry) = out (snd commit))
  /\ (forall info grip d rows i l w1,
        match fst (replay_loop self info grip d unlimited true episode rows
                     i l w1) with
        | Ok l' =>
            mask_frames l' = mask_frames l
            /\ video_frames l' = video_frames l
        | Raise _ => True
        end).
Proof.
  cbv zeta. split; [|split; [|split]].
  - rewrite generate_image_unfold, prepare_unfold.
    destruct (source_robot_states inp src episode) as [data|]; [|reflexivity].
    destruct (ROBOT_CAMERA_POSES_DICT inp !! robot_dataset) as [info|];
      [|reflexivity].
    destruct (disp_in_use inp _ _ _) as [d|e]; [|reflexivity].
    destruct (resolve_camera_pose info episode d) as [c|]; [|reflexivity].
    match goal with
    | |- context [replay_loop _ _ _ _ _ _ _ _ _ _ ?wa] =>
        pose proof (replay_loop_inv self info (data_grip data) d episode
                      unlimited true (data_pos data) 0 initial_locals wa)
          as Hinv;
        cbv zeta in Hinv;
        destruct (replay_loop self info (data_grip data) d unlimited true
                    episode (data_pos data) 0 initial_locals wa)
          as [[l|e] w2]
    end; cbn in Hinv; destruct Hinv as [Hfs _]; [|exact Hfs].
    rewrite finish_dry. exact Hfs.
  - rewrite !generate_image_unfold, !prepare_unfold.
    destruct (source_robot_states inp src episode) as [data|]; [|reflexivity].
    destruct (ROBOT_CAMERA_POSES_DICT inp !! robot_dataset) as [info|];
      [|reflexivity].
    destruct (disp_in_use inp _ _ _) as [d|e]; [|reflexivity].
    destruct (resolve_camera_pose info episode d) as [c|]; [|reflexivity].
    match goal with
    | |- context [replay_loop _ _ _ _ _ true _ _ _ _ ?wa0] =>
        match goal with
        | |- context [replay_loop _ _ _ _ _ false _ _ _ _ ?wb0] =>
            pose proof (replay_loop_dry_commit self info (data_grip data) d
                          episode unlimited (data_pos data) 0 initial_locals
                          initial_locals wa0 wb0) as Hdc;
            cbv zeta in Hdc;
            destruct (replay_loop self info (data_grip data) d unlimited
                        true episode (data_pos data) 0 initial_locals wa0)
              as [[l1|e1] wa];
            destruct (replay_loop self info (data_grip data) d unlimited
                        false episode (data_pos data) 0 initial_locals wb0)
              as [[l2|e2] wb]
        end
    end;
      (destruct Hdc as (Hp & Ho & Hr);
       [repeat split; reflexivity|reflexivity|reflexivity|]);
      cbn [fst snd] in Hp, Ho, Hr |- *;
      try contradiction; try exact Hp.
    rewrite finish_dry, finish_commit. cbn.
    destruct (mask_frames l2), (video_frames l2); try exact Hp.
    destruct (success l2); [|exact Hp].
    destruct (target_pose_list l2), (joint_angles_list l2); exact Hp.
  - intros r. rewrite !generate_image_unfold, !prepare_unfold.
    destruct (source_robot_states inp src episode) as [data|];
      [|discriminate].
    destruct (ROBOT_CAMERA_POSES_DICT inp !! robot_dataset) as [info|];
      [|discriminate].
    destruct (disp_in_use inp _ _ _) as [d|e]; [|discriminate].
    destruct (resolve_camera_pose info episode d) as [c|]; [|discriminate].
    match goal with
    | |- context [replay_loop _ _ _ _ _ true _ _ _ _ ?wa0] =>
        match goal with
        | |- context [replay_loop _ _ _ _ _ false _ _ _ _ ?wb0] =>
            pose proof (replay_loop_dry_commit self info (data_grip data) d
                          episode unlimited (data_pos data) 0 initial_locals
                          initial_locals wa0 wb0) as Hdc;
            cbv zeta in Hdc;
            destruct (replay_loop self info (data_grip data) d unlimited
                        true episode (data_pos data) 0 initial_locals wa0)
              as [[l1|e1] wa];
            destruct (replay_loop self info (data_grip data) d unlimited
                        false episode (data_pos data) 0 initial_locals wb0)
              as [[l2|e2] wb]
        end
    end;
      (destruct Hdc as (Hp & Ho & Hr);
       [repeat split; reflexivity|reflexivity|reflexivity|]);
      cbn [fst snd] in Hp, Ho, Hr |- *;
      try contradiction; try discriminate.
    destruct Hr as (H1 & H2 & H3 & H4 & H5).
    rewrite finish_dry, finish_commit. cbn.
    destruct (mask_frames l2), (video_frames l2); try discriminate.
    rewrite H1, H4, H5, Ho.
    destruct (success l2).
    + destruct (target_pose_list l2) eqn:Ht, (joint_angles_list l2);
        try discriminate; cbn; intros [= <-]; auto.
    + cbn. intros [= <-]; auto.
  - intros info grip d rows i l w1.
    pose proof (replay_loop_inv self info grip d episode unlimited true rows
                  i l w1) as Hinv.
    cbv zeta in Hinv. destruct (fst _); [|exact I].
    destruct Hinv as (_ & n & _ & _ & _ & _ & Hfr & _). exact Hfr.
Qed.

(** C10: with [unlimited] the replay of a well-formed episode never stops
    early.  When the episode loads, its dataset is known, a viewpoint covers
    it, the displacement is given or found, every pose has a recorded width
    and (for a committed replay) there is at least one pose, the replay
    returns success, the zero suggestion and the number of poses of the
    episode, whatever the controller reports; all it prints is the
    [UNLIMITED] success. *)
Theorem unlimited_replay_always_succeeds self save src robot_dataset
    robot_disp episode dry_run w data info d v :
  source_robot_states inp src episode = Some data ->
  ROBOT_CAMERA_POSES_DICT inp !! robot_dataset = Some info ->
  disp_in_use inp robot_dataset (target_name self) robot_disp = Ok d ->
  find_viewpoint episode (viewpoints info) = Some v ->
  length (data_pos data) <= length (data_grip data) ->
  dry_run = true \/ 1 <= length (data_pos data) ->
  exists w',
    generate_image inp self save src robot_dataset robot_disp true episode
      dry_run w
    = (Ok (true, zeros3, length (data_pos data)), w')
    /\ out w'
       = out w ++ [PrintUnlimited (target_name self) episode;
                   DebugSuccess episode d (length (data_pos data))].
Proof.
  intros Hdata Hinfo Hdisp Hview Hgrip Hframes.
  rewrite generate_image_unfold, prepare_unfold, Hdata, Hinfo, Hdisp.
  unfold resolve_camera_pose. rewrite Hview.
  match goal with
  | |- context [replay_loop _ _ _ _ _ _ _ _ _ _ ?wa] =>
      destruct (replay_loop_unlimited self info (data_grip data) d episode
                  dry_run (data_pos data) 0 initial_locals wa)
        as (l & w2 & -> & Hs & Hsug & Ht & Hj & Hfr & Hfs & Hout);
        [cbn; lia|]
  end.
  cbn in Hs, Hsug, Ht, Hj, Hout.
  destruct dry_run.
  - rewrite finish_dry, Hs, Hsug, Ht. eexists. split; [reflexivity|].
    cbn. rewrite Hout. reflexivity.
  - destruct Hframes as [|Hn]; [discriminate|].
    destruct Hfr as [Hm Hv]. cbn in Hm, Hv.
    rewrite finish_commit, Hs, Hsug, Ht.
    destruct (mask_frames l); [cbn in Hm; lia|].
    destruct (video_frames l); [cbn in Hv; lia|].
    destruct (target_pose_list l); [cbn in Ht; lia|].
    destruct (joint_angles_list l); [cbn in Hj; lia|].
    eexists. split; [reflexivity|]. cbn. rewrite Hout. reflexivity.
Qed.

(** C2, as amended: a committed replay that returns failure has made the two
    directories and encoded the two videos, one frame per completed step (at
    least one), and has written nothing else: no archive of states. *)
Theorem failed_commit_writes_videos_only self save src robot_dataset
    robot_disp unlimited episode w sug steps w' :
  generate_image inp self save src robot_dataset robot_disp unlimited episode
    false w
  = (Ok (false, sug, steps), w') ->
  exists masks frames,
    fs w'
    = fs w
      ++ [Mkdir (ReplayMaskDir save (target_name self));
          Mkdir (ReplayVideoDir save (target_name self));
          Imwrite (ReplayMaskFile save (target_name self) episode)
            (MaskFrames255 masks) 30 "libx264";
          Imwrite (ReplayVideoFile save (target_name self) episode)
            (RgbFrames frames) 30 "libx264"]
    /\ length masks = steps /\ length frames = steps /\ 1 <= steps.
Proof.
  rewrite generate_image_unfold, prepare_unfold.
  destruct (source_robot_states inp src episode) as [data|]; [|discriminate].
  destruct (ROBOT_CAMERA_POSES_DICT inp !! robot_dataset) as [info|];
    [|discriminate].
  destruct (disp_in_use inp _ _ _) as [d|e]; [|discriminate].
  destruct (resolve_camera_pose info episode d) as [c|]; [|discriminate].
  match goal with
  | |- context [replay_loop _ _ _ _ _ _ _ _ _ _ ?wa] =>
      pose proof (replay_loop_inv self info (data_grip data) d episode
                    unlimited false (data_pos data) 0 initial_locals wa)
        as Hinv;
      cbv zeta in Hinv;
      destruct (replay_loop self info (data_grip data) d unlimited false
                  episode (data_pos data) 0 initial_locals wa)
        as [[l|e] w2]
  end; [|discriminate].
  cbn [fst snd fs] in Hinv.
  destruct Hinv as (Hfs & n & _ & Ht & _ & _ & [Hm Hv] & _).
  cbn in Ht, Hm, Hv.
  rewrite finish_commit.
  destruct (mask_frames l) as [|m ms] eqn:Em; [discriminate|].
  destruct (video_frames l) as [|f fr] eqn:Ev; [discriminate|].
  cbv zeta. destruct (success l).
  - destruct (target_pose_list l), (joint_angles_list l); discriminate.
  - intros [= <- <- <-]. exists (m :: ms), (f :: fr). cbn [fs].
    rewrite Hfs, <- app_assoc. cbn in Hm, Hv |- *.
    repeat split; lia.
Qed.

(** The early abort, where it holds: in a dry run, or after at least one
    completed step.  The rows [pre] replay and the controller does not reach
    the row that follows: the replay returns failure, the residual of that
    row and the count of [pre]; the three lists hold one entry per row of
    [pre]. *)
Theorem early_abort_contract self save src robot_dataset robot_disp episode
    dry_run w data info d w0 pre row post l1 w1 raw gd p1 tw x p2 stop err
    p3 :
  prepare inp self save src robot_dataset robot_disp episode dry_run w
  = (Ok (data, info, d), w0) ->
  data_pos data = pre ++ row :: post ->
  replay_loop self info (data_grip data) d false dry_run episode pre 0
    initial_locals w0 = (Ok l1, w1) ->
  success l1 = true ->
  get_gripper_width_from_qpos (proc w1) = ((raw, gd), p1) ->
  data_grip data !! length pre = Some tw ->
  gripper_while 10 tw gd 0 p1 = (x, p2) ->
  drive_robot_to_target_pose (remap_target info d row) p2
  = ((false, stop, err), p3) ->
  dry_run = true \/ 1 <= length pre ->
  exists l w2 w',
    replay_loop self info (data_grip data) d false dry_run episode
      (data_pos data) 0 initial_locals w0 = (Ok l, w2)
    /\ length (target_pose_list l) = length pre
    /\ length (joint_angles_list l) = length pre
    /\ length (gripper_width_list l) = length pre
    /\ generate_image inp self save src robot_dataset robot_disp false
         episode dry_run w
       = (Ok (false,
              vsub (pos3 stop) (pos3 (remap_target info d row)),
              length pre), w').
Proof.
  intros Hprep Hrows Hpre Hs Hread Htw Hloop Hdrive Hframes.
  destruct (replay_loop_early_abort self info (data_grip data) d episode
              dry_run pre row post l1 w1 w0 raw gd p1 tw x p2 stop err p3
              Hpre Hs Hread Htw Hloop Hdrive)
    as (Hrun & Ht & Hj & Hg & Hfr).
  rewrite generate_image_unfold, Hprep, Hrows, Hrun.
  destruct dry_run.
  - rewrite finish_dry. cbn. rewrite Ht.
    eexists _, _, _. repeat (split; [reflexivity || assumption|]).
    reflexivity.
  - destruct Hframes as [|Hn]; [discriminate|]. destruct Hfr as [Hm Hv].
    rewrite finish_commit. cbn.
    destruct (mask_frames l1); [cbn in Hm; lia|].
    destruct (video_frames l1); [cbn in Hv; lia|].
    rewrite Ht.
    eexists _, _, _. repeat (split; [reflexivity || assumption|]).
    reflexivity.
Qed.
End DriverTheorems.

(** ** The camera pose *)

Section CameraFacts.
Context {F : Type} `{Scalar F} `{External F}.
Variable inp : inputs F.

Lemma find_viewpoint_first episode (vs : list (viewpoint F)) :
  (exists v0, v0 ∈ vs /\ episode ∈ episodes v0) ->
  exists v before after,
    find_viewpoint episode vs = Some v
    /\ vs = before ++ v :: after
    /\ episode ∈ episodes v
    /\ Forall (fun u => episode ∉ episodes u) before.
Proof.
  induction vs as [|u vs IH]; intros (v0 & Hin & Hep).
  - inversion Hin.
  - cbn. destruct (bool_decide (episode ∈ episodes u)) eqn:Hu.
    + apply bool_decide_eq_true in Hu. exists u, [], vs. auto.
    + apply bool_decide_eq_false in Hu.
      destruct IH as (v & before & after & Hf & -> & Hv & Hb).
      { exists v0. split; [|exact Hep].
        apply elem_of_cons in Hin as [->|Hin]; [contradiction|exact Hin]. }
      exists v, (u :: before), after. auto.
Qed.

(** C9, as amended: when a viewpoint of the dataset has the episode among
    its episodes, the camera pose is that of the first such viewpoint: its
    position plus the mount offset (-0.6, 0.0, 0.912) minus the displacement
    of the target robot, and the quaternion of its roll, pitch and yaw in
    degrees composed extrinsically: the roll about x, then the pitch about
    the fixed y, then the yaw about the fixed z.  This pose is what lines
    59-65 hand to the simulator: whenever the episode loads and the dataset
    is known, with the displacement given or the default of the robot,
    [set_camera_pose] is called with its position and its quaternion, before
    the field of view of the archive, if any, and [update_camera]. *)
Theorem camera_pose_of_first_viewpoint (info : dataset_info F) episode
    robot_disp :
  (exists v0, v0 ∈ viewpoints info /\ episode ∈ episodes v0) ->
  exists v before after,
    viewpoints info = before ++ v :: after
    /\ episode ∈ episodes v
    /\ Forall (fun u => episode ∉ episodes u) before
    /\ let camera_pose :=
         Pose
           (vsub
              (vadd (camera_position v)
                 (V3 (flit (-0.6)%Q) (flit 0.0%Q) (flit 0.912%Q)))
              robot_disp)
           (compose_quat
              (make_elementary_quat AxisZ (fdeg2rad (yaw v)))
              (compose_quat
                 (make_elementary_quat AxisY (fdeg2rad (pitch v)))
                 (make_elementary_quat AxisX (fdeg2rad (roll v))))) in
       resolve_camera_pose info episode robot_disp = Some camera_pose
       /\ forall self save src robot_dataset given dry_run w data,
            source_robot_states inp src episode = Some data ->
            ROBOT_CAMERA_POSES_DICT inp !! robot_dataset = Some info ->
            disp_in_use inp robot_dataset (target_name self) given
            = Ok robot_disp ->
            let r := prepare inp self save src robot_dataset given episode
                       dry_run w in
            fst r = Ok (data, info, robot_disp)
            /\ proc (snd r)
               = update_camera
                   (match data_fov data with
                    | Some fov => set_camera_fov fov
                    | None => fun p => p
                    end
                      (set_camera_pose (pos3 camera_pose) (ori camera_pose)
                         (proc w))).
Proof.
  intros Hex.
  destruct (find_viewpoint_first episode (viewpoints info) Hex)
    as (v & before & after & Hf & Hvs & Hv & Hb).
  exists v, before, after. repeat (split; [assumption|]).
  cbv zeta.
  assert (Hres : resolve_camera_pose info episode robot_disp
                 = Some (pose_sub (viewpoint_camera_pose v) robot_disp)).
  { unfold resolve_camera_pose. rewrite Hf. reflexivity. }
  split; [exact Hres|].
  intros self save src robot_dataset given dry_run w data Hdata Hinfo Hdisp.
  rewrite prepare_unfold, Hdata, Hinfo, Hdisp, Hres.
  split; reflexivity.
Qed.
End CameraFacts.

Module ExactFacts.
Import Exact ExactInputs.
Open Scope R_scope.

Lemma half_of_right_angle : fdiv (fdeg2rad 90) (flit 2%Q) = PI / 4.
Proof. cbn. unfold Q2R. cbn. field. Qed.

Lemma half_of_zero : fdiv (fdeg2rad 0) (flit 2%Q) = 0.
Proof. cbn. unfold Q2R. cbn. field. Qed.

Lemma sin_cos_PI4_products :
  sin (PI / 4) * sin (PI / 4) = 1 / 2
  /\ cos (PI / 4) * sin (PI / 4) = 1 / 2.
Proof.
  rewrite sin_PI4, cos_PI4.
  assert (Hs : sqrt 2 * sqrt 2 = 2) by (apply sqrt_def; lra).
  assert (Hn : sqrt 2 <> 0) by (intros E; rewrite E in Hs; lra).
  assert (Hp : 1 / sqrt 2 * (1 / sqrt 2) = 1 / 2).
  { replace (1 / sqrt 2 * (1 / sqrt 2)) with (1 / (sqrt 2 * sqrt 2))
      by (field; exact Hn).
    rewrite Hs. reflexivity. }
  split; exact Hp.
Qed.

Lemma extrinsic_quat_of_side_view :
  let q := from_euler Extrinsic AxisX AxisY AxisZ 90 90 0 true in
  qx q = 1 / 2 /\ qz q = - (1 / 2).
Proof.
  unfold from_euler, elementary_quat_compose, make_elementary_quat.
  rewrite half_of_right_angle, half_of_zero.
  cbn. unfold Q2R. cbn. rewrite sin_0, cos_0.
  destruct sin_cos_PI4_products as (Hss & Hcs).
  split; nra.
Qed.

Lemma intrinsic_quat_of_side_view :
  let q := from_euler Intrinsic AxisX AxisY AxisZ 90 90 0 true in
  qx q = 1 / 2 /\ qz q = 1 / 2.
Proof.
  unfold from_euler, elementary_quat_compose, make_elementary_quat.
  rewrite half_of_right_angle, half_of_zero.
  cbn. unfold Q2R. cbn. rewrite sin_0, cos_0.
  destruct sin_cos_PI4_products as (Hss & Hcs).
  split; nra.
Qed.

(** C9 as stated fails: for a camera rolled and pitched by a right angle the
    orientation is not the intrinsic X-Y-Z quaternion, nor its opposite. *)
Lemma camera_orientation_is_not_intrinsic :
  exists c,
    (0%nat ∈ episodes side_view)
    /\ resolve_camera_pose (DatasetInfo [side_view] 0) 0 (V3 0 0 0) = Some c
    /\ ori c <> from_euler Intrinsic AxisX AxisY AxisZ
                  (roll side_view) (pitch side_view) (yaw side_view) true
    /\ ori c <> qneg (from_euler Intrinsic AxisX AxisY AxisZ
                  (roll side_view) (pitch side_view) (yaw side_view) true).
Proof.
  eexists. split; [cbn; set_solver|]. split; [reflexivity|].
  cbn [ori viewpoint_camera_pose pose_sub roll pitch yaw side_view].
  destruct extrinsic_quat_of_side_view as [Hx Hz].
  destruct intrinsic_quat_of_side_view as [Hx' Hz'].
  cbv zeta in Hx, Hz, Hx', Hz'.
  split; intros E.
  - apply (f_equal qz) in E. rewrite Hz, Hz' in E. lra.
  - apply (f_equal qx) in E. unfold qneg in E. cbn [qx] in E.
    rewrite Hx, Hx' in E. lra.
Qed.
End ExactFacts.

(** ** The displacement search *)

Section SearchFacts.
Context {F : Type} `{Scalar F} {St : Type}.
Variable dry_run_replay : vec3 F -> M St (bool * vec3 F * nat).
Variable episode : nat.
Variable robot : string.

Lemma try_candidates_cons cand cands best_steps best_disp s log :
  try_candidates dry_run_replay episode robot (cand :: cands) best_steps
    best_disp (s, log) =
  match dry_run_replay cand s with
  | (Raise e, s') => (Raise e, (s', log))
  | (Ok (ok, _, steps), s') =>
      let log' := log ++ [DebugTestDisp episode robot cand ok steps] in
      if ok then (Ok (Broke cand steps), (s', log'))
      else if (Z.of_nat steps >? best_steps)%Z
      then try_candidates dry_run_replay episode robot cands
             (Z.of_nat steps) cand (s', log')
      else try_candidates dry_run_replay episode robot cands best_steps
             best_disp (s', log')
  end.
Proof.
  cbn [try_candidates]. unfold mbind, M_bind, lift, wlog. cbn.
  destruct (dry_run_replay cand s) as [[[[ok sug] steps]|e] s']; cbn;
    [|reflexivity].
  destruct ok; [reflexivity|].
  destruct (Z.of_nat steps >? best_steps)%Z; reflexivity.
Qed.

Lemma try_candidates_trace cands best_steps best_disp s log :
  let r := try_candidates dry_run_replay episode robot cands best_steps
             best_disp (s, log) in
  exists evs,
    snd (snd r) = log ++ logged episode robot evs
    /\ map ev_cand evs `prefix_of` cands
    /\ (forall j e, evs !! j = Some e -> ev_ok e = true ->
          S j = length evs
          /\ fst r = Ok (Broke (ev_cand e) (ev_steps e)))
    /\ match fst r with
       | Ok (Broke _ _) => True
       | Ok (Exhausted best_steps' best_disp') =>
           map ev_cand evs = cands
           /\ evs = replay_all dry_run_replay cands s
           /\ Forall (fun e => ev_ok e = false) evs
           /\ ((best_steps' = best_steps /\ best_disp' = best_disp
                /\ Forall (fun e => (Z.of_nat (ev_steps e) <= best_steps)%Z)
                     evs)
               \/ (exists i e, first_best evs i e
                     /\ best_steps' = Z.of_nat (ev_steps e)
                     /\ best_disp' = ev_cand e
                     /\ (best_steps < Z.of_nat (ev_steps e))%Z))
       | Raise _ => True
       end.
Proof.
  revert best_steps best_disp s log.
  induction cands as [|cand cands IH]; intros bs bd s log; cbv zeta.
  - exists []. cbn. rewrite app_nil_r.
    split; [reflexivity|]. split; [reflexivity|].
    split; [intros j e Hj; discriminate|].
    repeat split; auto.
  - rewrite try_candidates_cons. cbn [replay_all].
    destruct (dry_run_replay cand s) as [[[[ok sug] steps]|e] s'].
    2:{ exists []. cbn. rewrite app_nil_r.
        split; [reflexivity|]. split; [apply prefix_nil|].
        split; [intros j e' Hj; discriminate|exact I]. }
    cbv zeta. destruct ok.
    { exists [Evaluation cand true steps]. cbn.
      split; [reflexivity|]. split; [apply prefix_cons, prefix_nil|].
      split; [|exact I].
      intros [|j] e' Hj Hok; cbn in Hj; [|discriminate].
      inversion Hj; subst. auto. }
    set (ev := Evaluation cand false steps).
    destruct (Z.of_nat steps >? bs)%Z eqn:Hgt.
    + destruct (IH (Z.of_nat steps) cand s'
                  (log ++ [DebugTestDisp episode robot cand false steps]))
        as (evs & Hlog & Hpre & Hok & Hres).
      exists (ev :: evs). cbv zeta in *.
      split; [rewrite Hlog, <- app_assoc; reflexivity|].
      split; [cbn; apply prefix_cons; exact Hpre|].
      split.
      { intros [|j] e' Hj Hoke; cbn in Hj.
        - inversion Hj; subst. discriminate.
        - destruct (Hok j e' Hj Hoke) as [Hlast Hr]. cbn. auto. }
      destruct (fst _) as [[c n|bs' bd']|e]; auto.
      destruct Hres as (Hmap & Hall & Hfalse & Hbest).
      split; [cbn; congruence|]. split; [cbn; congruence|].
      split; [constructor; auto|].
      right. apply Z.gtb_lt in Hgt.
      destruct Hbest as [(-> & -> & Hle)|(i & e & Hfb & -> & -> & Hlt)].
      * exists 0, ev. split; [|cbn; auto].
        split; [reflexivity|]. split.
        -- intros [|j] e' Hj; cbn in Hj; [inversion Hj; subst; cbn; lia|].
           rewrite Forall_lookup in Hle. apply Hle in Hj. cbn. lia.
        -- intros j e' Hj; lia.
      * exists (S i), e. destruct Hfb as (Hi & Hmax & Hfirst).
        split; [|repeat split; auto; lia].
        split; [exact Hi|]. split.
        -- intros [|j] e' Hj; cbn in Hj; [inversion Hj; subst; cbn; lia|].
           eapply Hmax; eauto.
        -- intros [|j] e' Hji Hj; cbn in Hj;
             [inversion Hj; subst; cbn; lia|].
           eapply Hfirst; [|eauto]. lia.
    + destruct (IH bs bd s'
                  (log ++ [DebugTestDisp episode robot cand false steps]))
        as (evs & Hlog & Hpre & Hok & Hres).
      exists (ev :: evs). cbv zeta in *.
      split; [rewrite Hlog, <- app_assoc; reflexivity|].
      split; [cbn; apply prefix_cons; exact Hpre|].
      split.
      { intros [|j] e' Hj Hoke; cbn in Hj.
        - inversion Hj; subst. discriminate.
        - destruct (Hok j e' Hj Hoke) as [Hlast Hr]. cbn. auto. }
      destruct (fst _) as [[c n|bs' bd']|e]; auto.
      destruct Hres as (Hmap & Hall & Hfalse & Hbest).
      split; [cbn; congruence|]. split; [cbn; congruence|].
      split; [constructor; auto|].
      assert (Hle0 : (Z.of_nat steps <= bs)%Z).
      { destruct (Z.gtb_spec (Z.of_nat steps) bs); [discriminate|lia]. }
      destruct Hbest as [(-> & -> & Hle)|(i & e & Hfb & -> & -> & Hlt)].
      * left. repeat split; auto.
      * right. exists (S i), e. destruct Hfb as (Hi & Hmax & Hfirst).
        split; [|repeat split; auto; lia].
        split; [exact Hi|]. split.
        -- intros [|j] e' Hj; cbn in Hj; [inversion Hj; subst; cbn; lia|].
           eapply Hmax; eauto.
        -- intros [|j] e' Hji Hj; cbn in Hj;
             [inversion Hj; subst; cbn; lia|].
           eapply Hfirst; [|eauto]. lia.
Qed.

Lemma search_succ iterations d step sl :
  search dry_run_replay episode robot (S iterations) d step sl =
  match try_candidates dry_run_replay episode robot (candidates d step)
          (-1) d sl with
  | (Ok (Broke cand _), sl') => (Ok cand, sl')
  | (Ok (Exhausted _ best_disp), sl') =>
      search dry_run_replay episode robot iterations best_disp
        (fmul step (flit 0.5%Q)) sl'
  | (Raise e, sl') => (Raise e, sl')
  end.
Proof.
  cbn [search]. unfold mbind, M_bind.
  destruct (try_candidates _ _ _ _ _ _ _) as [[[c n|bs bd]|e] sl'];
    reflexivity.
Qed.

Lemma replay_all_app c1 c2 s :
  map ev_cand (replay_all dry_run_replay c1 s) = c1 ->
  replay_all dry_run_replay (c1 ++ c2) s
  = replay_all dry_run_replay c1 s
    ++ replay_all dry_run_replay c2 (state_after dry_run_replay c1 s)
  /\ state_after dry_run_replay (c1 ++ c2) s
     = state_after dry_run_replay c2 (state_after dry_run_replay c1 s).
Proof.
  revert s. induction c1 as [|c c1 IH]; intros s Hall; [auto|].
  cbn [app replay_all state_after] in *.
  destruct (dry_run_replay c s) as [[[[ok sug] steps]|e] s'];
    [|discriminate].
  cbn [map] in Hall. inversion Hall as [Hall'].
  rewrite Hall'. destruct (IH s' Hall') as [H1 H2].
  rewrite H1, H2. auto.
Qed.


(** One round of the search: what the loop over the candidates replays,
    logs and leaves, by the way it ends. *)
Lemma try_candidates_run cands best_steps best_disp s log :
  let r := try_candidates dry_run_replay episode robot cands best_steps
             best_disp (s, log) in
  exists evs,
    snd (snd r) = log ++ logged episode robot evs
    /\ map ev_cand evs `prefix_of` cands
    /\ replayed_from dry_run_replay s evs
    /\ match fst r with
       | Ok (Broke cand steps) =>
           fst (snd r) = state_after dry_run_replay (map ev_cand evs) s
           /\ exists before,
                evs = before ++ [Evaluation cand true steps]
                /\ all_failed before
       | Ok (Exhausted best_steps' best_disp') =>
           fst (snd r) = state_after dry_run_replay (map ev_cand evs) s
           /\ map ev_cand evs = cands
           /\ all_failed evs
           /\ ((best_steps' = best_steps /\ best_disp' = best_disp
                /\ Forall (fun e => (Z.of_nat (ev_steps e) <= best_steps)%Z)
                     evs)
               \/ (exists i e, first_best evs i e
                     /\ best_steps' = Z.of_nat (ev_steps e)
                     /\ best_disp' = ev_cand e
                     /\ (best_steps < Z.of_nat (ev_steps e))%Z))
       | Raise exc =>
           all_failed evs
           /\ exists cand,
                (map ev_cand evs ++ [cand]) `prefix_of` cands
                /\ dry_run_replay cand
                     (state_after dry_run_replay (map ev_cand evs) s)
                   = (Raise exc, fst (snd r))
       end.
Proof.
  revert best_steps best_disp s log.
  induction cands as [|cand cands IH]; intros bs bd s log; cbv zeta.
  - exists []. cbn. rewrite app_nil_r.
    split; [reflexivity|]. split; [reflexivity|].
    split; [reflexivity|].
    repeat split; auto. constructor.
  - rewrite try_candidates_cons.
    destruct (dry_run_replay cand s) as [[[[ok sug] steps]|e] s'] eqn:Hrun.
    2:{ exists []. cbn [fst snd logged map]. rewrite app_nil_r.
        split; [reflexivity|]. split; [apply prefix_nil|].
        split; [reflexivity|]. split; [constructor|].
        exists cand. split; [apply prefix_cons, prefix_nil|exact Hrun]. }
    cbv zeta.
    assert (Hone : forall evs,
              replayed_from dry_run_replay s' evs ->
              replayed_from dry_run_replay s (Evaluation cand ok steps :: evs)
              /\ state_after dry_run_replay
                   (map ev_cand (Evaluation cand ok steps :: evs)) s
                 = state_after dry_run_replay (map ev_cand evs) s').
    { intros evs Hevs. unfold replayed_from in *.
      cbn [map ev_cand replay_all state_after]. rewrite Hrun, Hevs. auto. }
    destruct ok.
    { exists [Evaluation cand true steps].
      destruct (Hone []) as [Hr Hs]; [reflexivity|].
      cbn [fst snd].
      split; [reflexivity|]. split; [apply prefix_cons, prefix_nil|].
      split; [exact Hr|]. split; [rewrite Hs; reflexivity|].
      exists []. split; [reflexivity|constructor]. }
    set (ev := Evaluation cand false steps).
    assert (Hstep : forall bs0 bd0,
      (bs0 = bs /\ bd0 = bd /\ (Z.of_nat steps <= bs)%Z
       \/ bs0 = Z.of_nat steps /\ bd0 = cand /\ (bs < Z.of_nat steps)%Z) ->
      let r := try_candidates dry_run_replay episode robot cands bs0 bd0
                 (s', log ++ [DebugTestDisp episode robot cand false steps])
      in
      exists evs,
        snd (snd r) = log ++ logged episode robot evs
        /\ map ev_cand evs `prefix_of` cand :: cands
        /\ replayed_from dry_run_replay s evs
        /\ match fst r with
           | Ok (Broke c n) =>
               fst (snd r) = state_after dry_run_replay (map ev_cand evs) s
               /\ exists before,
                    evs = before ++ [Evaluation c true n]
                    /\ all_failed before
           | Ok (Exhausted bs' bd') =>
               fst (snd r) = state_after dry_run_replay (map ev_cand evs) s
               /\ map ev_cand evs = cand :: cands
               /\ all_failed evs
               /\ ((bs' = bs /\ bd' = bd
                    /\ Forall (fun e => (Z.of_nat (ev_steps e) <= bs)%Z) evs)
                   \/ (exists i e, first_best evs i e
                         /\ bs' = Z.of_nat (ev_steps e)
                         /\ bd' = ev_cand e
                         /\ (bs < Z.of_nat (ev_steps e))%Z))
           | Raise exc =>
               all_failed evs
               /\ exists c,
                    (map ev_cand evs ++ [c]) `prefix_of` cand :: cands
                    /\ dry_run_replay c
                         (state_after dry_run_replay (map ev_cand evs) s)
                       = (Raise exc, fst (snd r))
           end).
    { intros bs0 bd0 Hcase. cbv zeta.
      destruct (IH bs0 bd0 s'
                  (log ++ [DebugTestDisp episode robot cand false steps]))
        as (evs & Hlog & Hpre & Hrep & Hres).
      cbv zeta in Hlog, Hres.
      destruct (Hone evs Hrep) as [Hr Hs].
      exists (ev :: evs).
      split; [rewrite Hlog, <- app_assoc; reflexivity|].
      split; [cbn; apply prefix_cons; exact Hpre|].
      split; [exact Hr|].
      destruct (fst _) as [[c n|bs' bd']|exc].
      - destruct Hres as (Hst & before & -> & Hbefore).
        split; [rewrite Hst; symmetry; exact Hs|].
        exists (ev :: before). split; [reflexivity|].
        constructor; [reflexivity|exact Hbefore].
      - destruct Hres as (Hst & Hmap & Hfalse & Hbest).
        split; [rewrite Hst; symmetry; exact Hs|].
        split; [cbn; congruence|].
        split; [constructor; [reflexivity|exact Hfalse]|].
        destruct Hcase as [(-> & -> & Hle0)|(-> & -> & Hlt0)].
        + destruct Hbest as [(-> & -> & Hle)|(i & e & Hfb & -> & -> & Hlt)].
          * left. repeat split; auto.
          * right. exists (S i), e. destruct Hfb as (Hi & Hmax & Hfirst).
            split; [|repeat split; auto].
            split; [exact Hi|]. split.
            -- intros [|j] e' Hj; cbn in Hj;
                 [inversion Hj; subst; cbn; lia|].
               eapply Hmax; eauto.
            -- intros [|j] e' Hji Hj; cbn in Hj;
                 [inversion Hj; subst; cbn; lia|].
               eapply Hfirst; [|eauto]. lia.
        + right.
          destruct Hbest as [(-> & -> & Hle)|(i & e & Hfb & -> & -> & Hlt)].
          * exists 0, ev. split; [|cbn; auto].
            split; [reflexivity|]. split.
            -- intros [|j] e' Hj; cbn in Hj;
                 [inversion Hj; subst; cbn; lia|].
               rewrite Forall_lookup in Hle. apply Hle in Hj. cbn. lia.
            -- intros j e' Hj; lia.
          * exists (S i), e. destruct Hfb as (Hi & Hmax & Hfirst).
            split; [|repeat split; auto; lia].
            split; [exact Hi|]. split.
            -- intros [|j] e' Hj; cbn in Hj;
                 [inversion Hj; subst; cbn; lia|].
               eapply Hmax; eauto.
            -- intros [|j] e' Hji Hj; cbn in Hj;
                 [inversion Hj; subst; cbn; lia|].
               eapply Hfirst; [|eauto]. lia.
      - destruct Hres as (Hfalse & c & Hc & Hraise).
        split; [constructor; [reflexivity|exact Hfalse]|].
        exists c. split; [cbn; apply prefix_cons; exact Hc|].
        unfold ev. rewrite Hs. exact Hraise. }
    destruct (Z.of_nat steps >? bs)%Z eqn:Hgt.
    + apply Z.gtb_lt in Hgt.
      apply (Hstep (Z.of_nat steps) cand). right. auto.
    + apply (Hstep bs bd). left. repeat split; auto.
      destruct (Z.gtb_spec (Z.of_nat steps) bs); [discriminate|lia].
Qed.


Lemma first_best_of_exhausted (evs : list (evaluation F)) d best_steps
    best_disp :
  evs <> [] ->
  (best_steps = (-1)%Z /\ best_disp = d
   /\ Forall (fun e => (Z.of_nat (ev_steps e) <= -1)%Z) evs)
  \/ (exists i e, first_best evs i e
        /\ best_steps = Z.of_nat (ev_steps e)
        /\ best_disp = ev_cand e
        /\ (-1 < Z.of_nat (ev_steps e))%Z) ->
  exists i e, first_best evs i e
    /\ best_steps = Z.of_nat (ev_steps e) /\ best_disp = ev_cand e.
Proof.
  intros Hne [(_ & _ & Hle)|(i & e & Hfb & Hs & Hd & _)].
  - destruct evs as [|e0 evs]; [contradiction|].
    inversion Hle; subst. lia.
  - eauto.
Qed.



Lemma replay_all_prefix c1 c s :
  c1 `prefix_of` c ->
  map ev_cand (replay_all dry_run_replay c1 s) = c1 ->
  replay_all dry_run_replay c1 s `prefix_of` replay_all dry_run_replay c s.
Proof.
  intros [c2 ->] Hall.
  destruct (replay_all_app c1 c2 s Hall) as [-> _].
  apply prefix_app_r. reflexivity.
Qed.

(** C5: a round in which the seven dry runs return and none succeeds ends
    without [break]; the centre of the next round is the candidate with the
    most completed steps, the first of them in the order of evaluation; and
    the next round runs with half the step, from the state that the seven
    replays left and with their seven lines in the log. *)
Theorem best_candidate_adopted_and_step_halved d step s log iterations :
  let cands := candidates d step in
  let evs := replay_all dry_run_replay cands s in
  map ev_cand evs = cands ->
  all_failed evs ->
  exists i e,
    first_best evs i e
    /\ try_candidates dry_run_replay episode robot cands (-1) d (s, log)
       = (Ok (Exhausted (Z.of_nat (ev_steps e)) (ev_cand e)),
          (state_after dry_run_replay cands s,
           log ++ logged episode robot evs))
    /\ search dry_run_replay episode robot (S iterations) d step (s, log)
       = search dry_run_replay episode robot iterations (ev_cand e)
           (fmul step (flit 0.5%Q))
           (state_after dry_run_replay cands s,
            log ++ logged episode robot evs).
Proof.
  cbv zeta. intros Hreturn Hfail.
  destruct (try_candidates_run (candidates d step) (-1) d s log)
    as (evs0 & Hlog & Hpre & Hrep & Hres).
  cbv zeta in Hlog, Hres.
  assert (Hprefix : evs0 `prefix_of`
                      replay_all dry_run_replay (candidates d step) s).
  { unfold replayed_from in Hrep. rewrite <- Hrep at 1.
    apply replay_all_prefix; [exact Hpre|]. rewrite Hrep. reflexivity. }
  rewrite search_succ.
  destruct (try_candidates _ _ _ _ _ _ _) as [[[c m|bs bd]|exc] [s' log']];
    cbn [fst snd] in Hlog, Hres.
  - destruct Hres as (_ & before & -> & _).
    destruct Hprefix as [rest Hrest]. rewrite Hrest in Hfail.
    unfold all_failed in Hfail. rewrite !Forall_app in Hfail.
    destruct Hfail as [[_ Hfail] _]. inversion Hfail; subst. discriminate.
  - destruct Hres as (Hst & Hmap & _ & Hbest).
    assert (Heq : evs0 = replay_all dry_run_replay (candidates d step) s).
    { unfold replayed_from in Hrep. rewrite <- Hrep, Hmap. reflexivity. }
    subst evs0.
    assert (Hne : replay_all dry_run_replay (candidates d step) s <> []).
    { intros E. rewrite E in Hmap. discriminate. }
    destruct (first_best_of_exhausted _ d bs bd Hne Hbest)
      as (i & e & Hfb & -> & ->).
    exists i, e. split; [exact Hfb|]. rewrite Hmap in Hst.
    subst s' log'. auto.
  - destruct Hres as (_ & cand & [rest Hc] & Hraise).
    exfalso.
    assert (Hlen : length (replay_all dry_run_replay (candidates d step) s)
                   = length evs0).
    { rewrite Hc, <- app_assoc.
      destruct (replay_all_app (map ev_cand evs0) ([cand] ++ rest) s)
        as [-> _]; [rewrite Hrep; reflexivity|].
      cbn [app replay_all]. rewrite Hraise, app_nil_r.
      unfold replayed_from in Hrep. rewrite Hrep. reflexivity. }
    apply (f_equal length) in Hreturn. rewrite length_map, Hlen in Hreturn.
    rewrite Hc in Hreturn. rewrite !length_app, length_map in Hreturn.
    cbn in Hreturn. lia.
Qed.
End SearchFacts.

(** ** The worker *)

Section WorkerFacts.
Context {F : Type} `{Scalar F} `{External F}.
Variable inp : inputs F.

Lemma worker_body_returns_its_task robot_dataset robot episode hh ww gripper
    out_root unlimited load_displacement st r st' :
  worker_body inp robot_dataset robot episode hh ww gripper out_root
    unlimited load_displacement st = (Ok r, st') ->
  exists ok, r = (robot, episode, ok).
Proof.
  unfold worker_body, mbind, M_bind.
  destruct (lift _ st) as [[[]|e] st1]; [|discriminate].
  match goal with
  | |- context [let (r, s') := ?m st1 in _] =>
      destruct (m st1) as [[d|e] st2]
  end; [|discriminate].
  destruct (wlog _ st2) as [[[]|e] st3]; [|discriminate].
  destruct (displacement_search _ _ _ _ st3) as [[d'|e] st4]; [|discriminate].
  destruct (lift _ st4) as [[[[ok sug] steps]|e] st5]; [|discriminate].
  cbn. intros [= <- <-]. eauto.
Qed.

(** C3, as amended.  The worker raises exactly what is raised before its
    [try]: by the choice of the device, by the import of [envs] or by
    [select_gripper] for a robot without a gripper; nothing is logged then.
    Once these three have returned, the worker returns a tuple for its task
    and never raises: it returns what the body of the [try] returns; and
    whatever the body raises (in building the wrapper, finding the
    displacement, the search or the committed replay) is logged and turned
    into [(robot, episode, False)]. *)
Theorem worker_catches_what_the_try_covers robot_dataset robot episode hh ww
    out_root unlimited load_displacement w log :
  let run := generate_one_episode inp robot_dataset robot episode (hh, ww)
               out_root unlimited load_displacement (w, log) in
  (forall e p1,
     pick_best_gpu (proc w) = (Raise e, p1) ->
     run = (Raise e, (MkWorld p1 (fs w) (out w), log)))
  /\ (forall p1 e p2,
        pick_best_gpu (proc w) = (Ok tt, p1) ->
        import_envs p1 = (Raise e, p2) ->
        run = (Raise e, (MkWorld p2 (fs w) (out w), log)))
  /\ (forall p1 p2 e,
        pick_best_gpu (proc w) = (Ok tt, p1) ->
        import_envs p1 = (Ok tt, p2) ->
        select_gripper robot = Raise e ->
        run = (Raise e, (MkWorld p2 (fs w) (out w), log)))
  /\ (forall p1 p2 gripper,
        pick_best_gpu (proc w) = (Ok tt, p1) ->
        import_envs p1 = (Ok tt, p2) ->
        select_gripper robot = Ok gripper ->
        let body := worker_body inp robot_dataset robot episode hh ww gripper
                      out_root unlimited load_displacement
                      (MkWorld p2 (fs w) (out w), log) in
        (exists ok, fst run = Ok (robot, episode, ok))
        /\ (forall r st, body = (Ok r, st) -> run = (Ok r, st))
        /\ (forall exc w' log',
              body = (Raise exc, (w', log')) ->
              run = (Ok (robot, episode, false),
                     (w', log' ++ [LogException episode robot exc]))))
  /\ (forall e st,
        run = (Raise e, st) ->
        snd st = log
        /\ ((exists p1, pick_best_gpu (proc w) = (Raise e, p1))
            \/ (exists p1 p2,
                  pick_best_gpu (proc w) = (Ok tt, p1)
                  /\ import_envs p1 = (Raise e, p2))
            \/ select_gripper robot = Raise e)).
Proof.
  cbv zeta.
  assert (Hcaught : forall p1 p2 gripper,
    pick_best_gpu (proc w) = (Ok tt, p1) ->
    import_envs p1 = (Ok tt, p2) ->
    select_gripper robot = Ok gripper ->
    generate_one_episode inp robot_dataset robot episode (hh, ww) out_root
      unlimited load_displacement (w, log)
    = try_except
        (worker_body inp robot_dataset robot episode hh ww gripper out_root
           unlimited load_displacement)
        (fun exc =>
           wlog (LogException episode robot exc);;
           mret (robot, episode, false))
        (MkWorld p2 (fs w) (out w), log)).
  { intros p1 p2 gripper Hgpu Himp Hgrip.
    unfold generate_one_episode, mbind, M_bind, lift, sim_try. cbn.
    rewrite Hgpu. cbn. rewrite Himp. cbn. rewrite Hgrip. reflexivity. }
  assert (Hreturns : forall p1 p2 gripper,
    pick_best_gpu (proc w) = (Ok tt, p1) ->
    import_envs p1 = (Ok tt, p2) ->
    select_gripper robot = Ok gripper ->
    exists ok,
      fst (generate_one_episode inp robot_dataset robot episode (hh, ww)
             out_root unlimited load_displacement (w, log))
      = Ok (robot, episode, ok)).
  { intros p1 p2 gripper Hgpu Himp Hgrip.
    rewrite (Hcaught p1 p2 gripper Hgpu Himp Hgrip). unfold try_except.
    destruct (worker_body _ _ _ _ _ _ _ _ _ _ _) as [[r|exc] st'] eqn:Hbody.
    - destruct (worker_body_returns_its_task _ _ _ _ _ _ _ _ _ _ _ _ Hbody)
        as [ok ->]. eauto.
    - cbn. eauto. }
  split; [|split; [|split; [|split]]].
  - intros e p1 Hgpu.
    unfold generate_one_episode, mbind, M_bind, lift, sim_try. cbn.
    rewrite Hgpu. reflexivity.
  - intros p1 e p2 Hgpu Himp.
    unfold generate_one_episode, mbind, M_bind, lift, sim_try. cbn.
    rewrite Hgpu. cbn. rewrite Himp. reflexivity.
  - intros p1 p2 e Hgpu Himp Hgrip.
    unfold generate_one_episode, mbind, M_bind, lift, sim_try. cbn.
    rewrite Hgpu. cbn. rewrite Himp. cbn. rewrite Hgrip. reflexivity.
  - intros p1 p2 gripper Hgpu Himp Hgrip.
    split; [exact (Hreturns p1 p2 gripper Hgpu Himp Hgrip)|].
    rewrite (Hcaught p1 p2 gripper Hgpu Himp Hgrip). unfold try_except.
    split.
    + intros r st ->. reflexivity.
    + intros exc w' log' ->. reflexivity.
  - intros e st Hrun.
    destruct (pick_best_gpu (proc w)) as [[[]|e1] p1] eqn:Hgpu.
    2:{ revert Hrun.
        unfold generate_one_episode, mbind, M_bind, lift, sim_try. cbn.
        rewrite Hgpu. cbn. intros Hrun. inversion Hrun; subst. eauto. }
    destruct (import_envs p1) as [[[]|e2] p2] eqn:Himp.
    2:{ revert Hrun.
        unfold generate_one_episode, mbind, M_bind, lift, sim_try. cbn.
        rewrite Hgpu. cbn. rewrite Himp. cbn. intros Hrun.
        inversion Hrun; subst. eauto 10. }
    destruct (select_gripper robot) as [gripper|e3] eqn:Hgrip.
    + destruct (Hreturns p1 p2 gripper eq_refl Himp eq_refl) as [ok Hok].
      rewrite Hrun in Hok. discriminate.
    + revert Hrun.
      unfold generate_one_episode, mbind, M_bind, lift, sim_try. cbn.
      rewrite Hgpu. cbn. rewrite Himp. cbn. rewrite Hgrip. intros Hrun.
      inversion Hrun; subst. auto.
Qed.
End WorkerFacts.

(** ** The dispatcher *)

Section DispatcherFacts.
Lemma listed_after_append r ep files robot :
  listed (locked_json r (setdefault_append r ep) files) robot
  = listed files robot ++ (if decide (r = robot) then [ep] else []).
Proof.
  unfold listed, locked_json, setdefault_append.
  destruct (decide (r = robot)) as [->|Hne].
  - rewrite lookup_insert_eq. cbn. rewrite lookup_insert_eq. reflexivity.
  - rewrite lookup_insert_ne by exact Hne. rewrite app_nil_r. reflexivity.
Qed.

Lemma collect_results_listed results files :
  fst (collect_results (map Ok results) files) = Ok tt
  /\ forall robot,
       listed (snd (collect_results (map Ok results) files)) robot
       = listed files robot ++ successes robot results.
Proof.
  revert files. induction results as [|[[r ep] ok] results IH]; intros files.
  - cbn. split; [reflexivity|]. intros robot. rewrite app_nil_r. reflexivity.
  - cbn [map collect_results]. destruct ok; cbn [negb].
    + unfold mbind, M_bind.
      destruct (IH (locked_json r (setdefault_append r ep) files))
        as [Hok Hl].
      split; [exact Hok|]. intros robot. rewrite Hl, listed_after_append.
      unfold successes. cbn. destruct (decide (r = robot)); cbn.
      * rewrite <- app_assoc. reflexivity.
      * rewrite app_nil_r. reflexivity.
    + destruct (IH files) as [Hok Hl]. split; [exact Hok|].
      intros robot. rewrite Hl. unfold successes. cbn.
      destruct (decide (r = robot)); reflexivity.
Qed.

(** C8: the whitelist after the collection.  For every robot the CompletionSet
    is the set of before together with the episodes of the tasks that
    reported success for that robot, and only those; and it is the same for
    any other order of the same reports. *)
Theorem whitelist_is_the_union_of_successes results results' files :
  results ≡ₚ results' ->
  let final := snd (collect_results (map Ok results) files) in
  let final' := snd (collect_results (map Ok results') files) in
  forall robot,
    completion_set final robot
    = completion_set files robot ∪ list_to_set (successes robot results)
    /\ (forall ep, ep ∈ completion_set final robot <->
          ep ∈ completion_set files robot
          \/ (robot, ep, true) ∈ results)
    /\ completion_set final robot = completion_set final' robot.
Proof.
  intros Hperm final final' robot.
  assert (Hset : forall rs,
    completion_set (snd (collect_results (map Ok rs) files)) robot
    = completion_set files robot ∪ list_to_set (successes robot rs)).
  { intros rs. unfold completion_set.
    destruct (collect_results_listed rs files) as [_ Hl].
    unfold listed in Hl. rewrite Hl. apply list_to_set_app_L. }
  assert (Hin : forall ep rs,
    ep ∈ successes robot rs <-> (robot, ep, true) ∈ rs).
  { intros ep rs. unfold successes. rewrite list_elem_of_omap. split.
    - intros ([[r e] ok] & Hr & Hsome). cbn in Hsome.
      destruct (decide (r = robot)) as [->|]; [|discriminate].
      destruct ok; [|discriminate]. inversion Hsome; subst. exact Hr.
    - intros Hr. exists (robot, ep, true). split; [exact Hr|]. cbn.
      rewrite decide_True by reflexivity. reflexivity. }
  split; [apply Hset|]. split.
  - intros ep. subst final. rewrite Hset, elem_of_union, elem_of_list_to_set.
    rewrite Hin. reflexivity.
  - subst final final'. rewrite !Hset. f_equal.
    apply set_eq. intros ep. rewrite !elem_of_list_to_set, !Hin.
    rewrite Hperm. reflexivity.
Qed.
End DispatcherFacts.

(** ** Runs on the bench *)

Module BenchRuns.
Import Bench BenchInputs.

(** C1: the early abort is broken for a committed replay whose first pose is
    not reached.  The dry run of the one-step episode returns failure with no
    step completed; the committed replay of the same episode, with the same
    controller, raises from [np.stack] on the empty list of frames instead of
    returning, after the two directories are made. *)
Theorem first_step_failure_of_a_committed_replay_raises :
  let dry_run :=
    generate_image tables panda "out" "out" "demo" None false 0 true
      (start [false]) in
  let commit :=
    generate_image tables panda "out" "out" "demo" None false 0 false
      (start [false]) in
  (exists sug, fst dry_run = Ok (false, sug, 0))
  /\ fst commit = Raise (ValueError "need at least one array to stack")
  /\ fs (snd commit)
     = [Mkdir (ReplayMaskDir "out" "Panda");
        Mkdir (ReplayVideoDir "out" "Panda")].
Proof.
  cbv zeta. split; [eexists|split]; vm_compute; reflexivity.
Qed.

(** C2 as stated fails: the committed replay of the two-step episode whose
    second pose is not reached returns failure after one step, and both
    videos are written, with the frame of that step. *)
Lemma failed_commit_leaves_videos :
  let commit :=
    generate_image tables panda "out" "out" "demo" None false 1 false
      (start [true; false]) in
  (exists sug, fst commit = Ok (false, sug, 1))
  /\ fs (snd commit)
     = [Mkdir (ReplayMaskDir "out" "Panda");
        Mkdir (ReplayVideoDir "out" "Panda");
        Imwrite (ReplayMaskFile "out" "Panda" 1) (MaskFrames255 [0]) 30
          "libx264";
        Imwrite (ReplayVideoFile "out" "Panda" 1) (RgbFrames [0]) 30
          "libx264"].
Proof.
  cbv zeta. split; [eexists|]; vm_compute; reflexivity.
Qed.

Lemma failed_commit_writes_videos_only_witness :
  exists masks frames,
    fs (snd (generate_image tables panda "out" "out" "demo" None false 1 false
               (start [true; false])))
    = fs (start [true; false])
      ++ [Mkdir (ReplayMaskDir "out" (target_name panda));
          Mkdir (ReplayVideoDir "out" (target_name panda));
          Imwrite (ReplayMaskFile "out" (target_name panda) 1)
            (MaskFrames255 masks) 30 "libx264";
          Imwrite (ReplayVideoFile "out" (target_name panda) 1)
            (RgbFrames frames) 30 "libx264"]
    /\ length masks = 1 /\ length frames = 1 /\ 1 <= 1.
Proof.
  apply (failed_commit_writes_videos_only tables panda "out" "out" "demo" None
           false 1 (start [true; false])
           (V3 (-4 # 400) 0 (0 # 4))%Q 1
           (snd (generate_image tables panda "out" "out" "demo" None false 1
                   false (start [true; false])))).
  vm_compute. reflexivity.
Defined.

Lemma unlimited_replay_always_succeeds_witness :
  exists w',
    generate_image tables panda "out" "out" "demo" None true 1 false
      (start [false; false])
    = (Ok (true, zeros3, 2), w')
    /\ out w'
       = out (start [false; false])
         ++ [PrintUnlimited "Panda" 1; DebugSuccess 1 origin 2].
Proof.
  apply (unlimited_replay_always_succeeds tables panda "out" "out" "demo" None
           1 false (start [false; false])
           (EpisodeData (repeat row 2) (repeat 0%Q 2) None)
           (DatasetInfo
              [Viewpoint (V3 1 0 1)%Q 0%Q 0%Q 0%Q 45%Q [0; 1; 2]] 0%Q)
           origin
           (Viewpoint (V3 1 0 1)%Q 0%Q 0%Q 0%Q 45%Q [0; 1; 2])).
  - reflexivity.
  - vm_compute. reflexivity.
  - vm_compute. reflexivity.
  - reflexivity.
  - cbn. lia.
  - right. cbn. lia.
Defined.
(** C6 on the bench, with the record of the calls: the gripper is closed
    and the recorded width is 5, twenty actuations away. *)
Lemma gripper_matching_at_most_ten_attempts_witness :
  let info := DatasetInfo [] 0%Q in
  let gd0 := snd (fst (@get_gripper_width_from_qpos Q simulator
                         (proc (start [])))) in
  let r := @replay_step Q _ (recording simulator) panda info [5%Q] origin
             false true 0 row 0 (@initial_locals Q _ (recording simulator))
             (@MkWorld Q (recording simulator) (proc (start []), []) [] []) in
  let r0 := @replay_step Q _ simulator panda info [5%Q] origin false true 0
              row 0 initial_locals (start []) in
  exists (attempts : list (bool * Q)) (rest : list (recorded_call Q)),
    snd (proc (snd r))
    = [] ++ ReadWidth gd0 :: calls_of attempts
         ++ Drive (@remap_target Q _ simulator info origin row) :: rest
    /\ length attempts <= 10
    /\ justified 5%Q (gd0 :: map snd attempts) attempts
    /\ (length attempts < 10 ->
        exists r_last,
          last (gd0 :: map snd attempts) = Some r_last
          /\ out_of_tolerance r_last 5%Q = false)
    /\ Forall (fun c => forall b, c <> Actuate b) rest
    /\ (exists exit, fst r = Ok exit)
    /\ fst (proc (snd r)) = proc (snd r0).
Proof.
  apply (gripper_matching_at_most_ten_attempts simulator panda
           (DatasetInfo [] 0%Q) [5%Q] origin false true 0 row 0
           (@initial_locals Q _ (recording simulator)) (proc (start [])) []
           [] [] initial_locals [] [] 5%Q).
  reflexivity.
Defined.

(** The record of that step: the reading, ten times an opening and a
    reading, the call of the controller, and the reading of line 150. *)
Example ten_attempts_then_the_controller :
  let r := @replay_step Q _ (recording simulator) panda (DatasetInfo [] 0%Q)
             [5%Q] origin false true 0 row 0
             (@initial_locals Q _ (recording simulator))
             (@MkWorld Q (recording simulator) (proc (start []), []) [] []) in
  map (fun c => match c with
                | ReadWidth _ => "read"
                | Actuate true => "open"
                | Actuate false => "close"
                | Drive _ => "drive"
                end) (snd (proc (snd r)))
  = ["read"; "open"; "read"; "open"; "read"; "open"; "read"; "open"; "read";
     "open"; "read"; "open"; "read"; "open"; "read"; "open"; "read"; "open";
     "read"; "open"; "read"; "drive"; "read"].
Proof.
  vm_compute. reflexivity.
Qed.

(** A gripper recorded twenty actuations away is actuated ten times, is
    still far from the recorded width, and the step is replayed all the
    same. *)
Example gripper_out_of_reach_is_left_behind :
  let r := generate_image tables panda "far" "far" "demo" None false 0 true
             (start []) in
  (exists sug, fst r = Ok (true, sug, 1))
  /\ Qeq_bool (width (proc (snd r))) (10 # 4) = true
  /\ out_of_tolerance (width (proc (snd r))) 5%Q = true
  /\ snd (fst (gripper_while 10 5%Q 0%Q 0 (proc (start [])))) = 10.
Proof.
  cbv zeta. split; [eexists|split; [|split]]; vm_compute; reflexivity.
Qed.

(** C3 as stated fails: for a robot without a gripper the worker raises,
    and the collection loop that meets this result raises in turn, before it
    records the success that was reported after it. *)
Lemma unknown_robot_escapes_the_worker :
  let run :=
    generate_one_episode tables "demo" "Baxter" 0 (256, 256) "out" false false
      (start [], []) in
  fst run = Raise (ValueError "Unknown robot 'Baxter'")
  /\ collect_results [fst run; Ok ("Panda", 0, true)] ∅
     = (Raise (ValueError "Unknown robot 'Baxter'"), ∅).
Proof.
  cbv zeta. split; vm_compute; reflexivity.
Qed.

(** C3 on the bench.  Sawyer has a gripper and no displacement in the
    table of the dataset: the body of the [try] raises [KeyError], which the
    worker logs and turns into a failure of its task.  Baxter has no gripper:
    the [ValueError] of [select_gripper] leaves the worker, unlogged. *)
Lemma worker_catches_what_the_try_covers_witness :
  generate_one_episode tables "demo" "Sawyer" 0 (256, 256) "out" false false
    (start [], [])
  = (Ok ("Sawyer", 0, false),
     (start [], [] ++ [LogException 0 "Sawyer" (KeyError "Sawyer")]))
  /\ generate_one_episode tables "demo" "Baxter" 0 (256, 256) "out" false
       false (start [], [])
     = (Raise (ValueError "Unknown robot 'Baxter'"), (start [], [])).
Proof.
  split.
  - pose proof (worker_catches_what_the_try_covers tables "demo" "Sawyer" 0
                  256 256 "out" false false (start []) []) as Hw.
    cbv zeta in Hw. destruct Hw as (_ & _ & _ & Hcaught & _).
    destruct (Hcaught (proc (start [])) (proc (start [])) "RethinkGripper"
                eq_refl eq_refl eq_refl) as (_ & _ & Hexc).
    apply (Hexc (KeyError "Sawyer") (start []) []).
    vm_compute. reflexivity.
  - pose proof (worker_catches_what_the_try_covers tables "demo" "Baxter" 0
                  256 256 "out" false false (start []) []) as Hw.
    cbv zeta in Hw. destruct Hw as (_ & _ & Hgripper & _).
    apply (Hgripper (proc (start [])) (proc (start []))
             (ValueError "Unknown robot 'Baxter'") eq_refl eq_refl).
    vm_compute. reflexivity.
Defined.

(** C5 on the bench: the controller reaches one pose only, the first of
    the second candidate; the seven dry runs fail, and the next round is
    centred on the second candidate with the step 0.025. *)
Lemma best_candidate_adopted_and_step_halved_witness :
  exists i e,
    first_best
      (replay_all dry (candidates origin (flit 0.05%Q))
         (fst one_step_for_plus_x)) i e
    /\ try_candidates dry 1 "Panda" (candidates origin (flit 0.05%Q)) (-1)
         origin (fst one_step_for_plus_x, [])
       = (Ok (Exhausted (Z.of_nat (ev_steps e)) (ev_cand e)),
          (state_after dry (candidates origin (flit 0.05%Q))
             (fst one_step_for_plus_x),
           [] ++ logged 1 "Panda"
                   (replay_all dry (candidates origin (flit 0.05%Q))
                      (fst one_step_for_plus_x))))
    /\ search dry 1 "Panda" 5 origin (flit 0.05%Q)
         (fst one_step_for_plus_x, [])
       = search dry 1 "Panda" 4 (ev_cand e)
           (fmul (flit 0.05%Q) (flit 0.5%Q))
           (state_after dry (candidates origin (flit 0.05%Q))
              (fst one_step_for_plus_x),
            [] ++ logged 1 "Panda"
                    (replay_all dry (candidates origin (flit 0.05%Q))
                       (fst one_step_for_plus_x))).
Proof.
  apply (best_candidate_adopted_and_step_halved dry 1 "Panda" origin
           (flit 0.05%Q) (fst one_step_for_plus_x) [] 4).
  - vm_compute. reflexivity.
  - vm_compute. repeat constructor.
Defined.

(** That round, computed: the best candidate is the second, with its one
    step. *)
Example second_candidate_is_the_best :
  fst first_round
  = Ok (Exhausted 1 (vadd origin (V3 (flit 0.05%Q) (flit 0) (flit 0))))
  /\ map ev_steps
       (replay_all dry (candidates origin (flit 0.05%Q))
          (fst one_step_for_plus_x))
     = [0; 1; 0; 0; 0; 0; 0]
  /\ map ev_ok
       (replay_all dry (candidates origin (flit 0.05%Q))
          (fst one_step_for_plus_x))
     = [false; false; false; false; false; false; false].
Proof.
  split; [|split]; vm_compute; reflexivity.
Qed.

Lemma whitelist_is_the_union_of_successes_witness :
  let results := [("Panda", 1, true); ("Panda", 2, false); ("Jaco", 0, true)] in
  let results' := [("Jaco", 0, true); ("Panda", 2, false); ("Panda", 1, true)] in
  let final := snd (collect_results (map Ok results) ∅) in
  let final' := snd (collect_results (map Ok results') ∅) in
  completion_set final "Panda"
  = completion_set ∅ "Panda" ∪ list_to_set (successes "Panda" results)
  /\ (forall ep, ep ∈ completion_set final "Panda" <->
        ep ∈ completion_set ∅ "Panda" \/ ("Panda", ep, true) ∈ results)
  /\ completion_set final "Panda" = completion_set final' "Panda".
Proof.
  apply (whitelist_is_the_union_of_successes
           [("Panda", 1, true); ("Panda", 2, false); ("Jaco", 0, true)]
           [("Jaco", 0, true); ("Panda", 2, false); ("Panda", 1, true)] ∅).
  apply (Permutation_rev [("Panda", 1, true); ("Panda", 2, false);
                          ("Jaco", 0, true)]).
Defined.

(** C9 on the bench: the episode 1 is among the episodes of the second and
    of the third viewpoint of the dataset, and the displacement is the
    default of the robot, which is not zero.  The camera gets the pose of the
    second viewpoint, moved by the offset of the mount and by the
    displacement. *)
Lemma camera_pose_of_first_viewpoint_witness :
  let camera_pose :=
    Pose
      (vsub
         (vadd (camera_position side_camera)
            (V3 (flit (-0.6)%Q) (flit 0.0%Q) (flit 0.912%Q)))
         shifted)
      (compose_quat
         (make_elementary_quat AxisZ (fdeg2rad (yaw side_camera)))
         (compose_quat
            (make_elementary_quat AxisY (fdeg2rad (pitch side_camera)))
            (make_elementary_quat AxisX (fdeg2rad (roll side_camera))))) in
  resolve_camera_pose studio_info 1 shifted = Some camera_pose
  /\ camera (proc (snd (prepare studio panda "out" "out" "studio" None 1 true
                          (start []))))
     = Some camera_pose.
Proof.
  destruct (camera_pose_of_first_viewpoint studio studio_info 1 shifted)
    as (v & before & after & Hvs & Hin & Hbefore & Hpose & Hsim).
  { exists top_camera. split.
    - do 2 apply list_elem_of_further. apply list_elem_of_here.
    - apply list_elem_of_here. }
  assert (Hv : v = side_camera).
  { destruct before as [|b0 [|b1 [|b2 before']]]; cbn in Hvs;
      inversion Hvs; subst.
    - apply list_elem_of_singleton in Hin. discriminate.
    - reflexivity.
    - inversion Hbefore as [|? ? _ Hrest]; subst.
      inversion Hrest as [|? ? Hside _]; subst.
      exfalso. apply Hside. apply list_elem_of_here.
    - destruct before'; discriminate. }
  subst v. cbv zeta. split; [exact Hpose|].
  destruct (Hsim panda "out" "out" "studio" None true (start [])
              (EpisodeData (repeat row 2) (repeat 0%Q 2) None)
              eq_refl eq_refl eq_refl) as [_ Hproc].
  rewrite Hproc. reflexivity.
Defined.

(** On the bench too the order of the composition matters: the intrinsic
    quaternion of the same angles has another third component. *)
Example bench_camera_is_not_intrinsic :
  find_viewpoint 1 (viewpoints studio_info) = Some side_camera
  /\ Qeq_bool
       (qz (from_euler Extrinsic AxisX AxisY AxisZ (roll side_camera)
              (pitch side_camera) (yaw side_camera) true))
       (qz (from_euler Intrinsic AxisX AxisY AxisZ (roll side_camera)
              (pitch side_camera) (yaw side_camera) true))
     = false.
Proof.
  split; vm_compute; reflexivity.
Qed.

(** The early abort after one completed step of a committed replay. *)
Example early_abort_after_one_step :
  exists l w2 w',
    replay_loop panda
      (DatasetInfo [Viewpoint (V3 1 0 1)%Q 0%Q 0%Q 0%Q 45%Q [0; 1; 2]] 0%Q)
      (repeat 0%Q 2) origin false false 1 (repeat row 2) 0 initial_locals
      (snd (prepare tables panda "out" "out" "demo" None 1 false
              (start [true; false])))
    = (Ok l, w2)
    /\ length (target_pose_list l) = 1
    /\ length (joint_angles_list l) = 1
    /\ length (gripper_width_list l) = 1
    /\ generate_image tables panda "out" "out" "demo" None false 1 false
         (start [true; false])
       = (Ok (false,
              vsub (pos3 (pose_sub row (V3 (1 # 100) 0 0)%Q))
                (pos3
                   (remap_target
                      (DatasetInfo
                         [Viewpoint (V3 1 0 1)%Q 0%Q 0%Q 0%Q 45%Q [0; 1; 2]]
                         0%Q) origin row)),
              1), w').
Proof.
  eapply (early_abort_contract tables panda "out" "out" "demo" None 1 false
            (start [true; false])
            (EpisodeData (repeat row 2) (repeat 0%Q 2) None)
            (DatasetInfo
               [Viewpoint (V3 1 0 1)%Q 0%Q 0%Q 0%Q 45%Q [0; 1; 2]] 0%Q)
            origin _ [row] row []).
  - vm_compute. reflexivity.
  - reflexivity.
  - vm_compute. reflexivity.
  - reflexivity.
  - vm_compute. reflexivity.
  - reflexivity.
  - vm_compute. reflexivity.
  - vm_compute. reflexivity.
  - right. cbn. lia.
Qed.
(** The search on the bench: the centre fails at once, the second candidate
    replays both poses; the search returns it after these two replays. *)
Example search_returns_the_first_candidate_that_replays :
  let r := displacement_search dry 1 "Panda" origin
             (start [false; true; true], []) in
  fst r = Ok (vadd origin (V3 (flit 0.05%Q) (flit 0) (flit 0)))
  /\ snd (snd r)
     = [DebugTestDisp 1 "Panda" origin false 0;
        DebugTestDisp 1 "Panda"
          (vadd origin (V3 (flit 0.05%Q) (flit 0) (flit 0))) true 2].
Proof.
  cbv zeta. split; vm_compute; reflexivity.
Qed.
End BenchRuns.

(** * Further properties *)

(** ** The replay driver, by outcome *)

Section DriverExtras.
Context {F : Type} `{Scalar F} `{External F}.
Variable inp : inputs F.

(** The events of a committed replay on the file system, by outcome. *)
(** Every way in which a call of [generate_image] ends. *)
Lemma generate_image_cases self save src robot_dataset robot_disp unlimited
    episode dry_run w :
  let r := generate_image inp self save src robot_dataset robot_disp unlimited
             episode dry_run w in
  (snd r = w
   /\ (fst r = Raise FileNotFoundError
       \/ (exists k, fst r = Raise (KeyError k))
       \/ fst r = Raise (UnboundLocalError "camera_pose")))
  \/ exists data d,
       source_robot_states inp src episode = Some data
       /\ disp_in_use inp robot_dataset (target_name self) robot_disp = Ok d
       /\ ((fst r = Raise IndexError
            /\ length (data_grip data) < length (data_pos data)
            /\ fs (snd r)
               = fs w ++ (if dry_run then [] else replay_dirs save self))
           \/ (fst r = Raise (ValueError "need at least one array to stack")
               /\ dry_run = false
               /\ (unlimited = false \/ data_pos data = [])
               /\ fs (snd r) = fs w ++ replay_dirs save self)
           \/ exists ok sug steps,
                fst r = Ok (ok, sug, steps)
                /\ steps <= length (data_pos data)
                /\ (if ok
                    then steps = length (data_pos data) /\ sug = zeros3
                    else steps < length (data_pos data) /\ unlimited = false)
                /\ if dry_run then fs (snd r) = fs w
                   else exists masks frames,
                     length masks = steps /\ length frames = steps
                     /\ 1 <= steps
                     /\ if ok
                        then exists poses joints widths,
                          length poses = steps /\ length joints = steps
                          /\ length widths = steps
                          /\ fs (snd r)
                             = fs w ++ replay_dirs save self
                               ++ replay_videos save self episode masks frames
                               ++ replay_archive save self episode poses
                                    joints widths d
                        else fs (snd r)
                             = fs w ++ replay_dirs save self
                               ++ replay_videos save self episode masks
                                    frames).
Proof.
  cbv zeta. rewrite generate_image_unfold, prepare_unfold.
  destruct (source_robot_states inp src episode) as [data|];
    [|left; cbn; auto].
  destruct (ROBOT_CAMERA_POSES_DICT inp !! robot_dataset) as [info|];
    [|left; cbn; eauto].
  destruct (disp_in_use inp _ _ _) as [d|e] eqn:Hd.
  2:{ left. cbn. split; [reflexivity|]. right. left.
      unfold disp_in_use in Hd. destruct robot_disp; [discriminate|].
      destruct (ROBOT_POSE_DICT inp !! robot_dataset) as [by_robot|];
        [|inversion Hd; eauto].
      destruct (by_robot !! target_name self); inversion Hd; eauto. }
  destruct (resolve_camera_pose info episode d) as [c|];
    [|left; cbn; auto].
  right. exists data, d. split; [reflexivity|]. split; [reflexivity|].
  match goal with
  | |- context [replay_loop _ _ _ _ _ _ _ _ _ _ ?wa] =>
      pose proof (replay_loop_inv self info (data_grip data) d episode
                    unlimited dry_run (data_pos data) 0 initial_locals wa)
        as Hinv;
      cbv zeta in Hinv;
      destruct (replay_loop self info (data_grip data) d unlimited dry_run
                  episode (data_pos data) 0 initial_locals wa)
        as [[l|e] w2]
  end; cbn [fst snd fs] in Hinv.
  - destruct Hinv as (Hfs & n & Hn & Ht & Hj & Hg & Hfr & Hout).
    cbn in Ht, Hj, Hg.
    assert (Hok : if success l
                  then n = length (data_pos data) /\ suggestion l = zeros3
                  else n < length (data_pos data) /\ unlimited = false).
    { destruct Hout as [(Hs & Hsug & Hlen & _)|(Hu & Hs & Hlen & _)].
      - cbn in Hs, Hsug. rewrite Hs. auto.
      - rewrite Hs. auto. }
    destruct dry_run.
    + right. right. rewrite finish_dry. cbn [fst snd fs].
      exists (success l), (suggestion l), (length (target_pose_list l)).
      rewrite Ht. split; [reflexivity|]. split; [lia|].
      split; [exact Hok|]. exact Hfs.
    + destruct Hfr as [Hm Hv]. cbn in Hm, Hv.
      rewrite finish_commit.
      destruct (mask_frames l) as [|m ms] eqn:Em.
      { right. left. cbn [fst snd fs]. split; [reflexivity|].
        split; [reflexivity|]. split; [|rewrite Hfs; reflexivity].
        cbn in Hm. subst n. destruct (success l).
        - right. destruct Hok as [Hlen _].
          destruct (data_pos data); [reflexivity|cbn in Hlen; lia].
        - left. apply Hok. }
      destruct (video_frames l) as [|v vs] eqn:Ev.
      { cbn in Hm, Hv. lia. }
      cbv zeta. right. right. destruct (success l) eqn:Es.
      * destruct (target_pose_list l) as [|t ts] eqn:Et.
        { cbn in Hm, Ht. lia. }
        destruct (joint_angles_list l) as [|j js] eqn:Ej.
        { cbn in Hm, Hj. lia. }
        cbn [fst snd fs].
        exists true, (suggestion l), (length (t :: ts)).
        split; [reflexivity|]. split; [cbn in Ht |- *; lia|].
        split; [split; [cbn in Ht |- *; lia|apply Hok]|].
        exists (m :: ms), (v :: vs).
        split; [cbn in *; lia|]. split; [cbn in *; lia|].
        split; [cbn; lia|].
        exists (t :: ts), (j :: js), (gripper_width_list l).
        split; [reflexivity|]. split; [cbn in *; lia|].
        split; [cbn in *; lia|].
        rewrite Hfs. unfold replay_dirs, replay_videos, replay_archive.
        rewrite <- !app_assoc. reflexivity.
      * cbn [fst snd fs].
        exists false, (suggestion l), (length (target_pose_list l)).
        split; [reflexivity|]. split; [lia|].
        split; [rewrite Ht; exact Hok|].
        exists (m :: ms), (v :: vs).
        split; [cbn in *; lia|]. split; [cbn in *; lia|].
        split; [cbn in *; lia|].
        rewrite Hfs. unfold replay_dirs, replay_videos.
        rewrite <- !app_assoc. reflexivity.
  - destruct Hinv as (Hfs & -> & Hlen). left. cbn [fst snd].
    split; [reflexivity|]. split; [cbn in Hlen; exact Hlen|].
    rewrite Hfs. cbn [fs]. destruct dry_run; [rewrite app_nil_r|]; reflexivity.
Qed.
End DriverExtras.

Section DriverCorollaries.
Context {F : Type} `{Scalar F} `{External F}.
Variable inp : inputs F.

(** X2: the result of a replay counts the steps: never more than the poses of
    the episode; all of them, with the zero suggestion, exactly when the
    replay succeeds; and a failure is only reported when [unlimited] is off. *)
Theorem replay_result_counts_the_steps self save src robot_dataset robot_disp
    unlimited episode dry_run w data ok sug steps w' :
  source_robot_states inp src episode = Some data ->
  generate_image inp self save src robot_dataset robot_disp unlimited episode
    dry_run w = (Ok (ok, sug, steps), w') ->
  steps <= length (data_pos data)
  /\ if ok then steps = length (data_pos data) /\ sug = zeros3
     else steps < length (data_pos data) /\ unlimited = false.
Proof.
  intros Hdata Hrun.
  pose proof (generate_image_cases inp self save src robot_dataset robot_disp
                unlimited episode dry_run w) as Hc.
  cbv zeta in Hc. rewrite Hrun in Hc. cbn [fst snd] in Hc.
  destruct Hc as [(_ & [Hc|[[k Hc]|Hc]])|(data' & d & Hdata' & _ & Hc)];
    try discriminate.
  rewrite Hdata in Hdata'. inversion Hdata'; subst data'.
  destruct Hc as [(Hc & _)|[(Hc & _)|(ok' & sug' & steps' & Hc & Hle & Hok & _)]];
    try discriminate.
  inversion Hc; subst. auto.
Qed.

(** X3: a committed replay that succeeds has written everything: the two
    folders, the two videos and the archive of states, with one frame, one
    pose, one joint vector and one width per step, and the displacement in use
    as the offsets. *)
Theorem successful_commit_writes_videos_and_archive self save src
    robot_dataset robot_disp unlimited episode w d sug steps w' :
  disp_in_use inp robot_dataset (target_name self) robot_disp = Ok d ->
  generate_image inp self save src robot_dataset robot_disp unlimited episode
    false w = (Ok (true, sug, steps), w') ->
  exists masks frames poses joints widths,
    length masks = steps /\ length frames = steps
    /\ length poses = steps /\ length joints = steps
    /\ length widths = steps
    /\ fs w'
       = fs w ++ replay_dirs save self
         ++ replay_videos save self episode masks frames
         ++ replay_archive save self episode poses joints widths d.
Proof.
  intros Hd Hrun.
  pose proof (generate_image_cases inp self save src robot_dataset robot_disp
                unlimited episode false w) as Hc.
  cbv zeta in Hc. rewrite Hrun in Hc. cbn [fst snd] in Hc.
  destruct Hc as [(_ & [Hc|[[k Hc]|Hc]])|(data' & d' & _ & Hd' & Hc)];
    try discriminate.
  rewrite Hd in Hd'. inversion Hd'; subst d'.
  destruct Hc as [(Hc & _)|[(Hc & _)|(ok' & sug' & steps' & Hc & Hle & Hok & Hfs)]];
    try discriminate.
  inversion Hc; subst.
  destruct Hfs as (masks & frames & Hm & Hv & _ & poses & joints & widths
                   & Hp & Hj & Hg & Hfs).
  exists masks, frames, poses, joints, widths. auto 10.
Qed.

(** X4: the exceptions of a replay.  A missing episode file, an unknown
    dataset or robot and an episode that no viewpoint covers raise before
    anything is done: the simulator, the file system and the logs are as
    before.  Otherwise a replay raises [IndexError], when the recorded widths
    are fewer than the poses, or [ValueError], when a committed replay has no
    frame to encode; the two folders may then have been made, and nothing else
    is written. *)
Theorem replay_raises_only self save src robot_dataset robot_disp unlimited
    episode dry_run w e w' :
  generate_image inp self save src robot_dataset robot_disp unlimited episode
    dry_run w = (Raise e, w') ->
  (w' = w
   /\ (e = FileNotFoundError \/ (exists k, e = KeyError k)
       \/ e = UnboundLocalError "camera_pose"))
  \/ (e = IndexError
      /\ (exists data,
            source_robot_states inp src episode = Some data
            /\ length (data_grip data) < length (data_pos data))
      /\ fs w' = fs w ++ (if dry_run then [] else replay_dirs save self))
  \/ (e = ValueError "need at least one array to stack"
      /\ dry_run = false
      /\ fs w' = fs w ++ replay_dirs save self).
Proof.
  intros Hrun.
  pose proof (generate_image_cases inp self save src robot_dataset robot_disp
                unlimited episode dry_run w) as Hc.
  cbv zeta in Hc. rewrite Hrun in Hc. cbn [fst snd] in Hc.
  destruct Hc as [(Hw & Hc)|(data & d & Hdata & _ & Hc)].
  - left. split; [exact Hw|].
    destruct Hc as [Hc|[[k Hc]|Hc]]; inversion Hc; eauto.
  - right.
    destruct Hc as [(Hc & Hlen & Hfs)|[(Hc & Hdry & _ & Hfs)
                                      |(ok & sug & steps & Hc & _)]];
      [| |discriminate]; inversion Hc; subst.
    + left. eauto.
    + right. auto.
Qed.

(** X5: an episode that no viewpoint covers cannot be replayed: the call
    raises on the camera pose that was never bound, before it touches the
    simulator, the file system or the logs. *)
Theorem replay_without_viewpoint_raises self save src robot_dataset
    robot_disp unlimited episode dry_run w data info d :
  source_robot_states inp src episode = Some data ->
  ROBOT_CAMERA_POSES_DICT inp !! robot_dataset = Some info ->
  disp_in_use inp robot_dataset (target_name self) robot_disp = Ok d ->
  (forall v, v ∈ viewpoints info -> episode ∉ episodes v) ->
  generate_image inp self save src robot_dataset robot_disp unlimited episode
    dry_run w = (Raise (UnboundLocalError "camera_pose"), w).
Proof.
  intros Hdata Hinfo Hd Hnone.
  rewrite generate_image_unfold, prepare_unfold, Hdata, Hinfo, Hd.
  unfold resolve_camera_pose, find_viewpoint.
  assert (Hf : List.find (fun v => bool_decide (episode ∈ episodes v))
                 (viewpoints info) = None).
  { induction (viewpoints info) as [|v vs IH]; [reflexivity|]. cbn.
    rewrite bool_decide_eq_false_2 by (apply Hnone, list_elem_of_here).
    apply IH. intros v' Hv'. apply Hnone, list_elem_of_further, Hv'. }
  rewrite Hf. reflexivity.
Qed.
End DriverCorollaries.

(** ** The search and the worker *)

Section SearchExtras.
Context {F : Type} `{Scalar F} {St : Type}.
Variable dry_run_replay : vec3 F -> M St (bool * vec3 F * nat).
Variable episode : nat.
Variable robot : string.

(** What every dry run keeps, the search keeps. *)
Lemma try_candidates_keeps (R : St -> St -> Prop) cands best_steps best_disp
    s log :
  (forall s0, R s0 s0) ->
  (forall s0 s1 s2, R s0 s1 -> R s1 s2 -> R s0 s2) ->
  (forall cand s0, R s0 (snd (dry_run_replay cand s0))) ->
  R s (fst (snd (try_candidates dry_run_replay episode robot cands best_steps
                   best_disp (s, log)))).
Proof.
  intros Hrefl Htrans Hkeep. revert best_steps best_disp s log.
  induction cands as [|cand cands IH]; intros bs bd s log.
  - apply Hrefl.
  - rewrite try_candidates_cons.
    pose proof (Hkeep cand s) as Hc.
    destruct (dry_run_replay cand s) as [[[[ok sug] steps]|e] s'];
      cbn [snd] in Hc; [|exact Hc].
    cbv zeta. destruct ok; [exact Hc|].
    destruct (Z.of_nat steps >? bs)%Z;
      (eapply Htrans; [exact Hc|apply IH]).
Qed.

Lemma search_keeps (R : St -> St -> Prop) iterations d step s log :
  (forall s0, R s0 s0) ->
  (forall s0 s1 s2, R s0 s1 -> R s1 s2 -> R s0 s2) ->
  (forall cand s0, R s0 (snd (dry_run_replay cand s0))) ->
  R s (fst (snd (search dry_run_replay episode robot iterations d step
                   (s, log)))).
Proof.
  intros Hrefl Htrans Hkeep. revert d step s log.
  induction iterations as [|n IH]; intros d step s log.
  - apply Hrefl.
  - rewrite search_succ.
    pose proof (try_candidates_keeps R (candidates d step) (-1) d s log
                  Hrefl Htrans Hkeep) as Hc.
    destruct (try_candidates _ _ _ _ _ _ _) as [[[c m|bs bd]|e] [s' log']];
      cbn [fst snd] in Hc |- *; try exact Hc.
    eapply Htrans; [exact Hc|apply IH].
Qed.

Lemma try_candidates_log cands best_steps best_disp s log :
  let r := try_candidates dry_run_replay episode robot cands best_steps
             best_disp (s, log) in
  exists new,
    snd (snd r) = log ++ new
    /\ match fst r with
       | Ok (Broke c n) =>
           exists pre, new = pre ++ [DebugTestDisp episode robot c true n]
       | Ok (Exhausted _ bd) =>
           bd = best_disp
           \/ exists n, DebugTestDisp episode robot bd false n ∈ new
       | Raise _ => True
       end.
Proof.
  revert best_steps best_disp s log.
  induction cands as [|cand cands IH]; intros bs bd s log; cbv zeta.
  - exists []. cbn. rewrite app_nil_r. auto.
  - rewrite try_candidates_cons.
    destruct (dry_run_replay cand s) as [[[[ok sug] steps]|e] s'].
    2:{ exists []. cbn. rewrite app_nil_r. auto. }
    cbv zeta. destruct ok.
    { exists [DebugTestDisp episode robot cand true steps]. cbn.
      split; [reflexivity|]. exists []. reflexivity. }
    destruct (Z.of_nat steps >? bs)%Z.
    + destruct (IH (Z.of_nat steps) cand s'
                  (log ++ [DebugTestDisp episode robot cand false steps]))
        as (new & Hlog & Hres). cbv zeta in Hlog, Hres.
      exists (DebugTestDisp episode robot cand false steps :: new).
      split; [rewrite Hlog, <- app_assoc; reflexivity|].
      destruct (fst _) as [[c n|bs' bd']|e]; auto.
      * destruct Hres as [pre ->].
        exists (DebugTestDisp episode robot cand false steps :: pre).
        reflexivity.
      * right. destruct Hres as [->|[n Hn]].
        -- exists steps. apply list_elem_of_here.
        -- exists n. apply list_elem_of_further, Hn.
    + destruct (IH bs bd s'
                  (log ++ [DebugTestDisp episode robot cand false steps]))
        as (new & Hlog & Hres). cbv zeta in Hlog, Hres.
      exists (DebugTestDisp episode robot cand false steps :: new).
      split; [rewrite Hlog, <- app_assoc; reflexivity|].
      destruct (fst _) as [[c n|bs' bd']|e]; auto.
      * destruct Hres as [pre ->].
        exists (DebugTestDisp episode robot cand false steps :: pre).
        reflexivity.
      * destruct Hres as [->|[n Hn]]; [left; reflexivity|].
        right. exists n. apply list_elem_of_further, Hn.
Qed.

Lemma first_round_logs_its_centre d step s log :
  let r := try_candidates dry_run_replay episode robot (candidates d step)
             (-1) d (s, log) in
  match fst r with
  | Ok (Exhausted _ bd) =>
      exists n, DebugTestDisp episode robot bd false n
                ∈ drop (length log) (snd (snd r))
  | _ => True
  end.
Proof.
  cbv zeta.
  destruct (try_candidates_log (candidates d step) (-1) d s log)
    as (new & Hlog & Hres). cbv zeta in Hlog, Hres.
  destruct (try_candidates_trace dry_run_replay episode robot
              (candidates d step) (-1) d s log)
    as (evs & Hlog' & _ & _ & Hres'). cbv zeta in Hlog', Hres'.
  destruct (fst _) as [[c n|bs bd]|e]; auto.
  rewrite Hlog, drop_app_length.
  destruct Hres as [->|Hin]; [|exact Hin].
  destruct Hres' as (Hmap & _ & Hfalse & _).
  destruct evs as [|e0 evs]; [discriminate|].
  rewrite Hlog in Hlog'. apply app_inv_head in Hlog'. subst new.
  inversion Hmap; subst. inversion Hfalse; subst.
  exists (ev_steps e0). cbn.
  match goal with Hf : ev_ok e0 = false |- _ => rewrite Hf end.
  apply list_elem_of_here.
Qed.

(** X7: the displacement that the search returns was replayed in a dry run of
    this search: the log of the search has a line for it. *)
Theorem search_returns_a_replayed_displacement iterations d step s log d' sl :
  search dry_run_replay episode robot (S iterations) d step (s, log)
  = (Ok d', sl) ->
  exists ok n new,
    snd sl = log ++ new
    /\ DebugTestDisp episode robot d' ok n ∈ new.
Proof.
  revert d step s log.
  induction iterations as [|k IH]; intros d step s log.
  - rewrite search_succ.
    pose proof (first_round_logs_its_centre d step s log) as Hc.
    destruct (try_candidates_log (candidates d step) (-1) d s log)
      as (new & Hlog & Hres). cbv zeta in Hc, Hlog, Hres.
    destruct (try_candidates _ _ _ _ _ _ _) as [[[c m|bs bd]|e] [s' log']];
      cbn [fst snd] in *; [| |discriminate].
    + intros [= <- <-]. destruct Hres as [pre ->].
      exists true, m, (pre ++ [DebugTestDisp episode robot c true m]).
      split; [exact Hlog|]. apply elem_of_app. right. apply list_elem_of_here.
    + intros [= <- <-]. destruct Hc as [n Hn].
      rewrite Hlog, drop_app_length in Hn.
      exists false, n, new. auto.
  - rewrite search_succ.
    destruct (try_candidates_log (candidates d step) (-1) d s log)
      as (new & Hlog & Hres). cbv zeta in Hlog, Hres.
    destruct (try_candidates _ _ _ _ _ _ _) as [[[c m|bs bd]|e] [s' log']];
      cbn [fst snd] in *; [| |discriminate].
    + intros [= <- <-]. destruct Hres as [pre ->].
      exists true, m, (pre ++ [DebugTestDisp episode robot c true m]).
      split; [exact Hlog|]. apply elem_of_app. right. apply list_elem_of_here.
    + intros Hrun. apply IH in Hrun.
      destruct Hrun as (ok & n & new' & Hlog'' & Hin).
      exists ok, n, (new ++ new'). rewrite Hlog'', Hlog, <- app_assoc.
      split; [reflexivity|]. apply elem_of_app. auto.
Qed.
End SearchExtras.

Section WorkerExtras.
Context {F : Type} `{Scalar F} `{External F}.
Variable inp : inputs F.

Lemma dry_run_keeps_fs self save src robot_dataset robot_disp unlimited
    episode w :
  fs (snd (generate_image inp self save src robot_dataset robot_disp
             unlimited episode true w)) = fs w.
Proof.
  pose proof (generate_image_cases inp self save src robot_dataset robot_disp
                unlimited episode true w) as Hc.
  cbv zeta in Hc.
  destruct Hc as [(-> & _)|(data & d & _ & _ & Hc)]; [reflexivity|].
  destruct Hc as [(_ & _ & Hfs)|[(_ & Hdry & _)
                                |(ok & sug & steps & _ & _ & _ & Hfs)]].
  - rewrite Hfs. apply app_nil_r.
  - discriminate.
  - exact Hfs.
Qed.

(** X8: the search of the worker writes nothing to the file system, however
    many candidates it replays and however it ends. *)
Theorem search_of_the_worker_writes_nothing self save src robot_dataset
    unlimited episode robot iterations d step w log :
  fs (fst (snd (search
                  (fun cand =>
                     generate_image inp self save src robot_dataset
                       (Some cand) unlimited episode true)
                  episode robot iterations d step (w, log))))
  = fs w.
Proof.
  apply (search_keeps _ episode robot (fun s s' => fs s' = fs s)).
  - reflexivity.
  - intros s0 s1 s2 H01 H12. congruence.
  - intros cand s0. apply dry_run_keeps_fs.
Qed.

Lemma worker_body_fs robot_dataset robot episode hh ww gripper out_root
    unlimited load_displacement w log res w' log' :
  worker_body inp robot_dataset robot episode hh ww gripper out_root
    unlimited load_displacement (w, log) = (res, (w', log')) ->
  let self := Wrapper robot hh ww in
  match res with
  | Ok (_, _, true) =>
      exists masks frames poses joints widths d,
        length masks = length poses /\ length frames = length poses
        /\ length joints = length poses /\ length widths = length poses
        /\ fs w'
           = fs w ++ replay_dirs out_root self
             ++ replay_videos out_root self episode masks frames
             ++ replay_archive out_root self episode poses joints widths d
  | Ok (_, _, false) =>
      exists masks frames,
        fs w'
        = fs w ++ replay_dirs out_root self
          ++ replay_videos out_root self episode masks frames
  | Raise _ =>
      fs w' = fs w \/ fs w' = fs w ++ replay_dirs out_root self
  end.
Proof.
  cbv zeta. unfold worker_body, displacement_search, mbind, M_bind.
  cbv zeta. unfold lift at 1. unfold sim_try. cbn [fst snd].
  destruct (new_RobotCameraWrapper robot gripper robot_dataset hh ww (proc w))
    as [[[]|e] p1]; [|intros [= <- <- <-]; cbn; auto].
  set (w1 := MkWorld p1 (fs w) (out w)).
  assert (Hdisp : forall m : M (World * list (wlog_event F)) (vec3 F),
            m = (if load_displacement
                 then match offsets_file inp out_root robot episode with
                      | Some d => mret d
                      | None =>
                          lift (emit (PrintWarningNoDisplacement out_root
                                        robot episode));;
                          mret zeros3
                      end
                 else by_robot ← dict_get (ROBOT_POSE_DICT inp) robot_dataset;
                      dict_get by_robot robot) ->
            fs (fst (snd (m (w1, log)))) = fs w).
  { intros m ->. destruct load_displacement.
    - destruct (offsets_file inp out_root robot episode); reflexivity.
    - unfold mbind, M_bind, dict_get.
      destruct (ROBOT_POSE_DICT inp !! robot_dataset) as [by_robot|];
        [|reflexivity].
      cbn. destruct (by_robot !! robot); reflexivity. }
  specialize (Hdisp _ eq_refl). unfold mbind, M_bind in Hdisp.
  match goal with
  | |- context [let (r, s') := ?m (w1, log) in _] =>
      destruct (m (w1, log)) as [[d0|e] [w2 log2]]
  end; cbn [fst snd] in Hdisp; [|intros [= <- <- <-]; auto].
  unfold wlog at 1. cbn [fst snd].
  pose proof (search_keeps
                (fun cand =>
                   generate_image inp (Wrapper robot hh ww) out_root out_root
                     robot_dataset (Some cand) unlimited episode true)
                episode robot (fun s s' => fs s' = fs s) 5 d0 (flit 0.05%Q)
                w2 (log2 ++ [InfoInitialDisplacement episode robot d0])
                (fun s0 => eq_refl)
                (fun s0 s1 s2 H01 H12 => eq_trans H12 H01)
                (fun cand s0 =>
                   dry_run_keeps_fs (Wrapper robot hh ww) out_root out_root
                     robot_dataset (Some cand) unlimited episode s0))
    as Hsearch.
  destruct (search _ _ _ _ _ _ _) as [[d1|e] [w3 log3]];
    cbn [fst snd] in Hsearch; [|intros [= <- <- <-]; left; congruence].
  unfold lift. cbn [fst snd].
  pose proof (generate_image_cases inp (Wrapper robot hh ww) out_root out_root
                robot_dataset (Some d1) unlimited episode false w3) as Hc.
  cbv zeta in Hc.
  destruct (generate_image _ _ _ _ _ _ _ _ _ _) as [[[[ok sug] steps]|e] w4];
    cbn [fst snd] in Hc |- *; intros [= <- <- <-].
  - destruct Hc as [(_ & [Hc|[[k Hc]|Hc]])|(data & d & _ & _ & Hc)];
      try discriminate.
    destruct Hc as [(Hc & _)|[(Hc & _)
                             |(ok' & sug' & steps' & Hc & _ & _ & Hfs)]];
      try discriminate.
    inversion Hc; subst ok' sug' steps'.
    destruct Hfs as (masks & frames & Hm & Hv & _ & Hfs).
    destruct ok.
    + destruct Hfs as (poses & joints & widths & Hp & Hj & Hg & Hfs).
      exists masks, frames, poses, joints, widths, d.
      rewrite Hfs, Hsearch, Hdisp. repeat split; congruence.
    + exists masks, frames. rewrite Hfs, Hsearch, Hdisp. reflexivity.
  - destruct Hc as [(-> & _)|(data & d & _ & _ & Hc)];
      [left; congruence|].
    destruct Hc as [(_ & _ & Hfs)|[(_ & _ & _ & Hfs)|(ok & sug & steps & Hc & _)]];
      [| |discriminate].
    + right. rewrite Hfs, Hsearch, Hdisp. reflexivity.
    + right. rewrite Hfs, Hsearch, Hdisp. reflexivity.
Qed.

(** X9: what a task leaves on disk.  A task reported as a success has made the
    two folders and written its two videos and its archive of states, one
    frame and one entry per step; a task reported as a failure has written no
    archive: nothing at all, or the two folders, or the folders and the two
    videos of the steps it completed. *)
Theorem reported_success_has_its_artifacts robot_dataset robot episode hh ww
    out_root unlimited load_displacement w log robot' episode' ok w' log' :
  generate_one_episode inp robot_dataset robot episode (hh, ww) out_root
    unlimited load_displacement (w, log)
  = (Ok (robot', episode', ok), (w', log')) ->
  let self := Wrapper robot hh ww in
  if ok then
    exists masks frames poses joints widths d,
      length masks = length poses /\ length frames = length poses
      /\ length joints = length poses /\ length widths = length poses
      /\ fs w'
         = fs w ++ replay_dirs out_root self
           ++ replay_videos out_root self episode masks frames
           ++ replay_archive out_root self episode poses joints widths d
  else
    fs w' = fs w
    \/ fs w' = fs w ++ replay_dirs out_root self
    \/ exists masks frames,
         fs w'
         = fs w ++ replay_dirs out_root self
           ++ replay_videos out_root self episode masks frames.
Proof.
  unfold generate_one_episode, mbind, M_bind, lift, sim_try. cbn [fst snd].
  destruct (pick_best_gpu (proc w)) as [[[]|e] p1];
    cbn [fst snd proc fs out]; [|intros Hx; inversion Hx].
  destruct (import_envs p1) as [[[]|e] p2];
    cbn [fst snd proc fs out]; [|intros Hx; inversion Hx].
  destruct (select_gripper robot) as [gripper|e];
    [|intros Hx; inversion Hx].
  unfold try_except. cbv beta iota zeta.
  destruct (worker_body inp robot_dataset robot episode hh ww gripper out_root
              unlimited load_displacement _)
    as [[[[r ep] ok']|e] [w3 log3]] eqn:Hbody;
    apply worker_body_fs in Hbody; cbv zeta in Hbody; cbn [fs] in Hbody.
  - intros [= <- <- <- <- <-]. cbv zeta. destruct ok'.
    + exact Hbody.
    + right. right. exact Hbody.
  - unfold wlog. cbn. intros [= <- <- <- <- <-]. cbv zeta.
    destruct Hbody as [Hb|Hb]; auto.
Qed.
End WorkerExtras.

Section UnlimitedExtras.
Context {F : Type} `{Scalar F} `{External F}.
Variable inp : inputs F.

Lemma unlimited_replay_returns self save src robot_dataset robot_disp episode
    dry_run w data info d v :
  source_robot_states inp src episode = Some data ->
  ROBOT_CAMERA_POSES_DICT inp !! robot_dataset = Some info ->
  disp_in_use inp robot_dataset (target_name self) robot_disp = Ok d ->
  find_viewpoint episode (viewpoints info) = Some v ->
  length (data_pos data) <= length (data_grip data) ->
  dry_run = true \/ 1 <= length (data_pos data) ->
  exists w',
    generate_image inp self save src robot_dataset robot_disp true episode
      dry_run w
    = (Ok (true, zeros3, length (data_pos data)), w').
Proof.
  intros Hdata Hinfo Hdisp Hview Hgrip Hframes.
  rewrite generate_image_unfold, prepare_unfold, Hdata, Hinfo, Hdisp.
  unfold resolve_camera_pose. rewrite Hview.
  match goal with
  | |- context [replay_loop _ _ _ _ _ _ _ _ _ _ ?wa] =>
      destruct (replay_loop_unlimited self info (data_grip data) d episode
                  dry_run (data_pos data) 0 initial_locals wa)
        as (l & w2 & -> & Hs & Hsug & Ht & Hj & Hfr & _);
        [cbn; lia|]
  end.
  cbn in Hs, Hsug, Ht, Hj.
  destruct dry_run.
  - rewrite finish_dry, Hs, Hsug, Ht. eauto.
  - destruct Hframes as [|Hn]; [discriminate|].
    destruct Hfr as [Hm Hv]. cbn in Hm, Hv.
    rewrite finish_commit, Hs, Hsug, Ht.
    destruct (mask_frames l); [cbn in Hm; lia|].
    destruct (video_frames l); [cbn in Hv; lia|].
    destruct (target_pose_list l); [cbn in Ht; lia|].
    destruct (joint_angles_list l); [cbn in Hj; lia|].
    eauto.
Qed.

(** X10: with [unlimited] the search does not search: for a well-formed
    episode the worker replays the default displacement of the robot once in a
    dry run, commits with it (the archive has one pose per pose of the episode
    and that displacement as its offsets) and reports success. *)
Theorem unlimited_worker_commits_the_default_displacement robot_dataset robot
    episode hh ww out_root w log p1 p2 p3 gripper by_robot d data info v :
  pick_best_gpu (proc w) = (Ok tt, p1) ->
  import_envs p1 = (Ok tt, p2) ->
  select_gripper robot = Ok gripper ->
  new_RobotCameraWrapper robot gripper robot_dataset hh ww p2 = (Ok tt, p3) ->
  ROBOT_POSE_DICT inp !! robot_dataset = Some by_robot ->
  by_robot !! robot = Some d ->
  source_robot_states inp out_root episode = Some data ->
  ROBOT_CAMERA_POSES_DICT inp !! robot_dataset = Some info ->
  find_viewpoint episode (viewpoints info) = Some v ->
  length (data_pos data) <= length (data_grip data) ->
  1 <= length (data_pos data) ->
  exists w' masks frames poses joints widths,
    generate_one_episode inp robot_dataset robot episode (hh, ww) out_root
      true false (w, log)
    = (Ok (robot, episode, true),
       (w',
        log ++ [InfoInitialDisplacement episode robot d;
                DebugTestDisp episode robot d true (length (data_pos data))]))
    /\ length poses = length (data_pos data)
    /\ fs w'
       = fs w ++ replay_dirs out_root (Wrapper robot hh ww)
         ++ replay_videos out_root (Wrapper robot hh ww) episode masks frames
         ++ replay_archive out_root (Wrapper robot hh ww) episode poses
              joints widths d.
Proof.
  intros Hgpu Himp Hgrip Hnew Hdict Hrobot Hdata Hinfo Hview Hlen Hone.
  unfold generate_one_episode, mbind, M_bind, lift, sim_try. cbn [fst snd].
  rewrite Hgpu. cbn [fst snd proc fs out]. rewrite Himp.
  cbn [fst snd proc fs out]. rewrite Hgrip.
  unfold try_except, worker_body, displacement_search, mbind, M_bind, lift,
    sim_try, dict_get. cbv zeta.
  cbn [fst snd proc fs out]. rewrite Hnew. cbn [fst snd proc fs out].
  rewrite Hdict. cbn [mret M_ret]. rewrite Hrobot. cbn [mret M_ret].
  unfold wlog at 1. cbn [fst snd].
  rewrite search_succ.
  change (candidates d (flit 0.05%Q))
    with (d :: tl (candidates d (flit 0.05%Q))).
  rewrite try_candidates_cons.
  match goal with
  | |- context [generate_image inp ?self out_root out_root robot_dataset
                  (Some d) true episode true ?w0] =>
      destruct (unlimited_replay_returns self out_root out_root robot_dataset
                  (Some d) episode true w0 data info d v
                  Hdata Hinfo eq_refl Hview Hlen (or_introl eq_refl))
        as [w1 Hdry];
      pose proof (dry_run_keeps_fs inp self out_root out_root robot_dataset
                    (Some d) true episode w0) as Hfs1
  end.
  rewrite Hdry in Hfs1 |- *. cbn [fst snd fs] in Hfs1.
  cbv zeta. cbn [fst snd].
  match goal with
  | |- context [generate_image inp ?self out_root out_root robot_dataset
                  (Some d) true episode false ?w0] =>
      destruct (unlimited_replay_returns self out_root out_root robot_dataset
                  (Some d) episode false w0 data info d v
                  Hdata Hinfo eq_refl Hview Hlen (or_intror Hone))
        as [w2 Hrun];
      pose proof (generate_image_cases inp self out_root out_root
                    robot_dataset (Some d) true episode false w0) as Hc
  end.
  cbv zeta in Hc. rewrite Hrun in Hc |- *. cbn [fst snd] in Hc.
  destruct Hc as [(_ & [Hc|[[k Hc]|Hc]])|(data' & d' & _ & Hd' & Hc)];
    try discriminate.
  inversion Hd'; subst d'.
  destruct Hc
    as [(Hc & _)|[(Hc & _)|(ok' & sug' & steps' & Hc & _ & _ & Hfs2)]];
    try discriminate.
  inversion Hc; subst ok' sug' steps'.
  destruct Hfs2 as (masks & frames & _ & _ & _ & poses & joints & widths
                    & Hp & _ & _ & Hfs2).
  exists w2, masks, frames, poses, joints, widths.
  split; [cbn; rewrite <- app_assoc; reflexivity|].
  split; [exact Hp|].
  rewrite Hfs2, Hfs1. reflexivity.
Qed.

(** X6: with [unlimited], an episode with fewer recorded widths than poses
    raises [IndexError], in a dry run as in a committed replay. *)
Theorem unlimited_replay_with_missing_width_raises self save src
    robot_dataset robot_disp episode dry_run w data info d v :
  source_robot_states inp src episode = Some data ->
  ROBOT_CAMERA_POSES_DICT inp !! robot_dataset = Some info ->
  disp_in_use inp robot_dataset (target_name self) robot_disp = Ok d ->
  find_viewpoint episode (viewpoints info) = Some v ->
  length (data_grip data) < length (data_pos data) ->
  fst (generate_image inp self save src robot_dataset robot_disp true episode
         dry_run w) = Raise IndexError.
Proof.
  intros Hdata Hinfo Hdisp Hview Hlen.
  rewrite generate_image_unfold, prepare_unfold, Hdata, Hinfo, Hdisp.
  unfold resolve_camera_pose. rewrite Hview.
  set (g := length (data_grip data)).
  rewrite <- (take_drop g (data_pos data)).
  match goal with
  | |- context [replay_loop _ _ _ _ _ _ _ _ _ _ ?wa] => set (w0 := wa)
  end.
  rewrite replay_loop_app by reflexivity.
  destruct (replay_loop_unlimited self info (data_grip data) d episode
              dry_run (take g (data_pos data)) 0 initial_locals w0)
    as (l & w2 & -> & Hs & _).
  { rewrite length_take. cbn. lia. }
  cbn in Hs. rewrite Hs.
  destruct (drop g (data_pos data)) as [|row rows] eqn:Hdrop.
  { apply (f_equal length) in Hdrop. rewrite length_drop in Hdrop.
    cbn in Hdrop. lia. }
  rewrite replay_loop_cons, replay_step_unfold.
  destruct (get_gripper_width_from_qpos (proc w2)) as [[raw gd] p1].
  rewrite length_take. cbn [Nat.add].
  replace (g `min` length (data_pos data)) with g by lia.
  rewrite (lookup_ge_None_2 (data_grip data) g) by (subst g; lia).
  reflexivity.
Qed.
End UnlimitedExtras.

Lemma repr_chars_plain (s : string) :
  plain_name s = true -> repr_chars "'" s = s /\ contains "'" s = false.
Proof.
  induction s as [|c s IH]; [auto|].
  cbn [plain_name repr_chars contains]. intros Hp.
  apply andb_prop in Hp as [Hp Hs]. apply andb_prop in Hp as [Hp Hb].
  apply andb_prop in Hp as [Hp Hq].
  destruct (IH Hs) as [-> ->].
  apply negb_true_iff in Hq, Hb.
  rewrite (Ascii.eqb_sym "'" c), Hq. split; [|reflexivity].
  unfold repr_char. rewrite Hq, Hb. cbn [orb].
  assert (Hn : (32 <=? N_of_ascii c)%N = true).
  { unfold isprintable in Hp. cbv zeta in Hp.
    destruct (32 <=? N_of_ascii c)%N eqn:E; [reflexivity|].
    cbn [andb orb] in Hp. apply andb_prop in Hp as [Hp _].
    apply N.leb_le in Hp. apply N.leb_gt in E. lia. }
  apply N.leb_le in Hn.
  destruct (Ascii.eqb c "009") eqn:E1;
    [apply Ascii.eqb_eq in E1; subst c; cbn in Hn; lia|].
  destruct (Ascii.eqb c "010") eqn:E2;
    [apply Ascii.eqb_eq in E2; subst c; cbn in Hn; lia|].
  destruct (Ascii.eqb c "013") eqn:E3;
    [apply Ascii.eqb_eq in E3; subst c; cbn in Hn; lia|].
  rewrite Hp. reflexivity.
Qed.

(** X1: the six robots Sawyer, Jaco, IIWA, UR5e, Kinova3 and Panda have a
    gripper, one of the four gripper models; for any other name the call
    raises [ValueError] with the [repr] of the name in its message, which is
    the name between single quotes when the name is plain. *)
Theorem select_gripper_knows_six_robots (robot : string) :
  (robot ∈ ["Sawyer"; "Jaco"; "IIWA"; "UR5e"; "Kinova3"; "Panda"]
   -> exists gripper,
        select_gripper robot = Ok gripper
        /\ gripper ∈ ["RethinkGripper"; "JacoThreeFingerGripper";
                      "Robotiq85Gripper"; "PandaGripper"])
  /\ (robot ∉ ["Sawyer"; "Jaco"; "IIWA"; "UR5e"; "Kinova3"; "Panda"]
      -> select_gripper robot
         = Raise (ValueError ("Unknown robot " ++ repr robot))
         /\ (plain_name robot = true ->
             select_gripper robot
             = Raise (ValueError ("Unknown robot '" ++ robot ++ "'")))).
Proof.
  unfold select_gripper. split.
  - intros Hin. repeat (apply elem_of_cons in Hin as [->|Hin]);
      [..|inversion Hin]; vm_compute; eexists; (split; [reflexivity|]);
      repeat (first [apply list_elem_of_here|apply list_elem_of_further]).
  - intros Hnot.
    rewrite bool_decide_eq_false_2
      by (intros ->; apply Hnot; repeat constructor).
    rewrite bool_decide_eq_false_2
      by (intros ->; apply Hnot; repeat constructor).
    rewrite bool_decide_eq_false_2.
    2:{ intros Hin. apply Hnot. do 2 apply list_elem_of_further.
        repeat (apply elem_of_cons in Hin as [->|Hin]);
          [..|inversion Hin]; repeat constructor. }
    rewrite bool_decide_eq_false_2
      by (intros ->; apply Hnot; repeat constructor).
    split; [reflexivity|]. intros Hp.
    destruct (repr_chars_plain robot Hp) as [Hc Hq].
    unfold repr. rewrite Hq. cbn [andb]. cbv zeta. rewrite Hc. reflexivity.
Qed.

(** ** The dispatcher *)

Section CollectionFacts.

Lemma collect_results_app_ok results rest files :
  collect_results (map Ok results ++ rest) files
  = collect_results rest (snd (collect_results (map Ok results) files)).
Proof.
  revert files. induction results as [|[[r ep] ok] results IH]; intros files.
  - reflexivity.
  - cbn [map app collect_results]. destruct ok; cbn [negb].
    + unfold mbind, M_bind. apply IH.
    + apply IH.
Qed.

(** X11: a future that raises ends the collection with its exception: what
    completed before it is recorded, what completed after it is not. *)
Theorem collection_stops_at_the_first_raise results e rest files :
  collect_results (map Ok results ++ Raise e :: rest) files
  = (Raise e, snd (collect_results (map Ok results) files)).
Proof. rewrite collect_results_app_ok. reflexivity. Qed.

Lemma locked_append_other_file r ep files robot :
  r <> robot ->
  locked_json r (setdefault_append r ep) files !! robot = files !! robot.
Proof. intros Hne. unfold locked_json. apply lookup_insert_ne. exact Hne. Qed.

Lemma locked_append_other_key r ep files key :
  key <> r ->
  default ∅ (locked_json r (setdefault_append r ep) files !! r) !! key
  = default ∅ (files !! r) !! key.
Proof.
  intros Hne. unfold locked_json, setdefault_append.
  rewrite lookup_insert_eq. cbn. rewrite lookup_insert_ne by auto. reflexivity.
Qed.

(** X12: the collection touches nothing but the lists of the robots that
    report a success: the whitelist file of any other robot is as before (it
    is not even created), and in every file the entries under other names are
    as before. *)
Theorem collection_leaves_the_rest_alone completed files :
  let final := snd (collect_results completed files) in
  (forall robot,
     (forall ep, Ok (robot, ep, true) ∉ completed) ->
     final !! robot = files !! robot)
  /\ (forall robot key,
        key <> robot ->
        default ∅ (final !! robot) !! key = default ∅ (files !! robot) !! key).
Proof.
  revert files.
  induction completed as [|[[[r ep] ok]|e] completed IH]; intros files;
    cbv zeta.
  - cbn. auto.
  - cbn [collect_results]. destruct ok; cbn [negb].
    + unfold mbind, M_bind.
      destruct (IH (locked_json r (setdefault_append r ep) files))
        as [IH1 IH2]. split.
      * intros robot Hno. rewrite IH1.
        -- apply locked_append_other_file. intros ->.
           apply (Hno ep). apply list_elem_of_here.
        -- intros ep' Hin. apply (Hno ep'). apply list_elem_of_further, Hin.
      * intros robot key Hne. rewrite IH2 by exact Hne.
        destruct (decide (r = robot)) as [->|Hr].
        -- apply locked_append_other_key. exact Hne.
        -- rewrite locked_append_other_file by exact Hr. reflexivity.
    + destruct (IH files) as [IH1 IH2]. split; [|exact IH2].
      intros robot Hno. apply IH1. intros ep' Hin.
      apply (Hno ep'). apply list_elem_of_further, Hin.
  - cbn. auto.
Qed.

Lemma collect_results_returned completed files :
  snd (collect_results completed files)
  = snd (collect_results (map Ok (returned completed)) files).
Proof.
  revert files.
  induction completed as [|[[[r ep] ok]|e] completed IH]; intros files.
  - reflexivity.
  - cbn [returned map collect_results]. destruct ok; cbn [negb].
    + unfold mbind, M_bind. apply IH.
    + apply IH.
  - reflexivity.
Qed.

(** X13: the list of a robot after the collection, up to the first raise: the
    list of before, then the episodes reported as successes for it, in the
    order of completion and with their repetitions. *)
Theorem whitelist_lists_successes_in_completion_order completed files robot :
  listed (snd (collect_results completed files)) robot
  = listed files robot ++ successes robot (returned completed).
Proof.
  rewrite collect_results_returned.
  apply (collect_results_listed (returned completed) files).
Qed.

(** X14: the CompletionSet never shrinks, whatever the futures give, and an
    episode that enters it was reported as a success for that robot. *)
Theorem completion_set_only_grows completed files robot :
  completion_set files robot
  ⊆ completion_set (snd (collect_results completed files)) robot
  /\ (forall ep,
        ep ∈ completion_set (snd (collect_results completed files)) robot ->
        ep ∈ completion_set files robot
        \/ Ok (robot, ep, true) ∈ completed).
Proof.
  assert (Hl := collect_results_returned completed files).
  assert (Hs : completion_set (snd (collect_results completed files)) robot
               = completion_set files robot
                 ∪ list_to_set (successes robot (returned completed))).
  { unfold completion_set.
    pose proof (collect_results_listed (returned completed) files) as [_ H].
    rewrite Hl. specialize (H robot). unfold listed in H. rewrite H.
    apply list_to_set_app_L. }
  rewrite Hs. split; [apply union_subseteq_l|].
  intros ep. rewrite elem_of_union, elem_of_list_to_set.
  intros [Hin|Hin]; [auto|right].
  unfold successes in Hin. apply list_elem_of_omap in Hin.
  destruct Hin as ([[r e] ok] & Hr & Hsome). cbn in Hsome.
  destruct (decide (r = robot)) as [->|]; [|discriminate].
  destruct ok; [|discriminate]. inversion Hsome; subst.
  clear -Hr. induction completed as [|[x|x] completed IH]; cbn in Hr.
  - inversion Hr.
  - apply elem_of_cons in Hr as [->|Hr]; [apply list_elem_of_here|].
    apply list_elem_of_further, IH, Hr.
  - inversion Hr.
Qed.
End CollectionFacts.

Section TaskFacts.
Import Dispatch.
Variable args : namespace.
Variables H W : nat.
Variable out_root : string.
Variable num_eps : nat.

Lemma listed_after_read r files robot :
  listed (locked_json r (fun wl => wl) files) robot = listed files robot.
Proof.
  unfold listed, locked_json.
  destruct (decide (r = robot)) as [->|Hne].
  - rewrite lookup_insert_eq. reflexivity.
  - rewrite lookup_insert_ne by exact Hne. reflexivity.
Qed.

Lemma listed_after_reads robots files robot :
  listed (after_reads robots files) robot = listed files robot.
Proof.
  revert files. induction robots as [|r robots IH]; intros files.
  - reflexivity.
  - change (after_reads (r :: robots) files)
      with (after_reads robots (locked_json r (fun wl => wl) files)).
    rewrite IH. apply listed_after_read.
Qed.

Lemma completion_set_listed files robot :
  completion_set files robot = list_to_set (listed files robot).
Proof. reflexivity. Qed.

Lemma enumerate_tasks_unfold robots tasks files evs :
  enumerate_tasks args H W out_root num_eps robots tasks (files, evs)
  = (Ok (tasks
         ++ flat_map
              (fun robot =>
                 tasks_of_robot args H W out_root num_eps robot
                   (completion_set files robot)) robots),
     (after_reads robots files,
      evs ++ map (MkdirWhitelistParent out_root) robots)).
Proof.
  revert tasks files evs.
  induction robots as [|r robots IH]; intros tasks files evs.
  - cbn. rewrite !app_nil_r. reflexivity.
  - cbn [enumerate_tasks]. unfold mbind, M_bind, main_emit, on_whitelists,
      read_done_eps. cbn [fst snd].
    rewrite IH.
    change (after_reads (r :: robots) files)
      with (after_reads robots (locked_json r (fun wl => wl) files)).
    cbn [flat_map map]. rewrite <- !app_assoc. cbn [app].
    rewrite (flat_map_ext
               (fun robot =>
                  tasks_of_robot args H W out_root num_eps robot
                    (completion_set
                       (locked_json r (fun wl => wl) files) robot))
               (fun robot =>
                  tasks_of_robot args H W out_root num_eps robot
                    (completion_set files robot))).
    + reflexivity.
    + intros robot.
      rewrite !completion_set_listed, listed_after_read. reflexivity.
Qed.

Lemma elem_of_flat_map_tasks (f : string -> list task) robots t :
  t ∈ flat_map f robots <-> exists r, t ∈ f r /\ r ∈ robots.
Proof.
  split.
  - intros Hin. apply list_elem_of_In, in_flat_map in Hin.
    destruct Hin as (r & Hr & Ht). exists r.
    split; apply list_elem_of_In; assumption.
  - intros (r & Ht & Hr). apply list_elem_of_In, in_flat_map. exists r.
    split; apply list_elem_of_In; assumption.
Qed.

Lemma elem_of_tasks_of_robot robot done_eps t :
  t ∈ tasks_of_robot args H W out_root num_eps robot done_eps
  <-> t = Task (robot_dataset args) robot (task_episode t) (H, W) out_root
            (unlimited args) (load_displacement args)
      /\ task_episode t < num_eps /\ task_episode t ∉ done_eps.
Proof.
  unfold tasks_of_robot. rewrite list_elem_of_fmap. split.
  - intros (ep & -> & Hin). apply list_elem_of_filter in Hin as [Hnot Hin].
    apply list_elem_of_In, in_seq in Hin. cbn. repeat split; [lia|exact Hnot].
  - intros (Ht & Hlt & Hnot). exists (task_episode t). split; [exact Ht|].
    apply list_elem_of_filter. split; [exact Hnot|].
    apply list_elem_of_In, in_seq. lia.
Qed.

Lemma NoDup_tasks_of_robot robot done_eps :
  NoDup (tasks_of_robot args H W out_root num_eps robot done_eps).
Proof.
  unfold tasks_of_robot. apply NoDup_fmap_2.
  - intros a b Hab. inversion Hab. reflexivity.
  - apply NoDup_filter, NoDup_ListNoDup, seq_NoDup.
Qed.

(** X15: the tasks that [main] enumerates are, with the arguments of the run,
    the episodes below the number of episodes that the whitelist of their
    robot does not list, for the robots asked for; no task comes twice when no
    robot is asked for twice; and the enumeration leaves the lists of the
    whitelists as they are. *)
Theorem tasks_are_the_episodes_not_done robots files evs :
  let r := enumerate_tasks args H W out_root num_eps robots [] (files, evs) in
  exists tasks,
    fst r = Ok tasks
    /\ (forall t,
          t ∈ tasks
          <-> t = Task (robot_dataset args) (task_robot t) (task_episode t)
                    (H, W) out_root (unlimited args) (load_displacement args)
              /\ task_robot t ∈ robots
              /\ task_episode t < num_eps
              /\ task_episode t ∉ completion_set files (task_robot t))
    /\ (NoDup robots -> NoDup tasks)
    /\ (forall robot,
          listed (fst (snd r)) robot = listed files robot).
Proof.
  cbv zeta. rewrite enumerate_tasks_unfold. cbn [fst snd app].
  eexists. split; [reflexivity|]. split; [|split].
  - intros t. rewrite elem_of_flat_map_tasks. split.
    + intros (robot & Ht & Hr). apply elem_of_tasks_of_robot in Ht.
      destruct Ht as (Ht & Hlt & Hnot).
      assert (Hrob : task_robot t = robot) by (rewrite Ht; reflexivity).
      rewrite Hrob. auto.
    + intros (Ht & Hr & Hlt & Hnot). exists (task_robot t).
      split; [|exact Hr]. apply elem_of_tasks_of_robot. auto.
  - intros Hnd. induction Hnd as [|r rs Hnot Hnd IH]; [constructor|].
    cbn [flat_map]. apply NoDup_app. split; [apply NoDup_tasks_of_robot|].
    split; [|exact IH].
    intros t Ht Ht'. apply elem_of_tasks_of_robot in Ht as (Ht & _).
    apply elem_of_flat_map_tasks in Ht' as (r' & Ht' & Hr').
    apply elem_of_tasks_of_robot in Ht' as (Ht' & _).
    rewrite Ht in Ht'. inversion Ht'. subst r'. contradiction.
  - intros robot. apply listed_after_reads.
Qed.

Lemma tasks_of_robot_union robot (done_eps more : gset nat) :
  tasks_of_robot args H W out_root num_eps robot (done_eps ∪ more)
  = filter (fun t => task_episode t ∉ more)
      (tasks_of_robot args H W out_root num_eps robot done_eps).
Proof.
  unfold tasks_of_robot. induction (seq 0 num_eps) as [|ep eps IH].
  - reflexivity.
  - rewrite !filter_cons.
    destruct (decide (ep ∉ done_eps ∪ more)) as [Hu|Hu];
      destruct (decide (ep ∉ done_eps)) as [Hd|Hd]; cbn [map].
    + rewrite filter_cons. cbn [task_episode].
      rewrite decide_True
        by (intros Hm; apply Hu, elem_of_union; auto).
      rewrite IH. reflexivity.
    + exfalso. apply Hd. intros Hin. apply Hu, elem_of_union. auto.
    + rewrite filter_cons. cbn [task_episode].
      rewrite decide_False; [exact IH|].
      intros Hm. apply Hu. intros Hin.
      apply elem_of_union in Hin as [Hin|Hin]; contradiction.
    + exact IH.
Qed.

Lemma filter_flat_map_tasks (P : task -> Prop) `{forall t, Decision (P t)}
    (f : string -> list task) robots :
  filter P (flat_map f robots) = flat_map (fun r => filter P (f r)) robots.
Proof.
  induction robots as [|r robots IH]; [reflexivity|].
  cbn [flat_map]. rewrite filter_app, IH. reflexivity.
Qed.

Lemma filter_tasks_iff (P Q : task -> Prop) `{forall t, Decision (P t)}
    `{forall t, Decision (Q t)} (l : list task) :
  (forall t, t ∈ l -> P t <-> Q t) -> filter P l = filter Q l.
Proof.
  induction l as [|t l IH]; intros Hpq; [reflexivity|].
  rewrite !filter_cons.
  assert (Ht : P t <-> Q t) by (apply Hpq, list_elem_of_here).
  rewrite IH by (intros t' Ht'; apply Hpq, list_elem_of_further, Ht').
  destruct (decide (P t)), (decide (Q t)); tauto.
Qed.

Lemma elem_of_successes robot ep results :
  ep ∈ successes robot results <-> (robot, ep, true) ∈ results.
Proof.
  unfold successes. rewrite list_elem_of_omap. split.
  - intros ([[r e] ok] & Hr & Hsome). cbn in Hsome.
    destruct (decide (r = robot)) as [->|]; [|discriminate].
    destruct ok; [|discriminate]. inversion Hsome; subst. exact Hr.
  - intros Hr. exists (robot, ep, true). split; [exact Hr|]. cbn.
    rewrite decide_True by reflexivity. reflexivity.
Qed.

(** X16: a second enumeration, after the results of a first round are
    collected, gives the tasks of the first that were not reported as
    successes, in the same order. *)
Theorem rerun_enumerates_what_did_not_succeed robots files evs completed
    evs' :
  let first := enumerate_tasks args H W out_root num_eps robots []
                 (files, evs) in
  let files' := snd (collect_results completed (fst (snd first))) in
  let second := enumerate_tasks args H W out_root num_eps robots []
                  (files', evs') in
  exists tasks,
    fst first = Ok tasks
    /\ fst second
       = Ok (filter
               (fun t =>
                  (task_robot t, task_episode t, true) ∉ returned completed)
               tasks).
Proof.
  cbv zeta. rewrite !enumerate_tasks_unfold. cbn [fst snd app].
  eexists. split; [reflexivity|]. f_equal.
  rewrite filter_flat_map_tasks. apply flat_map_ext. intros robot.
  rewrite !completion_set_listed, collect_results_returned.
  rewrite (proj2 (collect_results_listed (returned completed) _) robot).
  rewrite listed_after_reads.
  rewrite list_to_set_app_L, <- completion_set_listed, tasks_of_robot_union.
  apply filter_tasks_iff. intros t Ht.
  apply elem_of_tasks_of_robot in Ht as (Ht & _).
  assert (Hrob : task_robot t = robot) by (rewrite Ht; reflexivity).
  rewrite elem_of_list_to_set, elem_of_successes, Hrob. reflexivity.
Qed.

Lemma no_task_when_all_done robots files :
  (forall robot ep,
     robot ∈ robots -> ep < num_eps -> ep ∈ completion_set files robot) ->
  flat_map
    (fun robot =>
       tasks_of_robot args H W out_root num_eps robot
         (completion_set files robot)) robots = [].
Proof.
  intros Hdone. induction robots as [|r robots IH]; [reflexivity|].
  cbn [flat_map]. rewrite IH.
  2:{ intros robot ep Hr. apply Hdone, list_elem_of_further, Hr. }
  rewrite app_nil_r. unfold tasks_of_robot.
  assert (Hall : forall ep, ep ∈ seq 0 num_eps ->
                   ep ∈ completion_set files r).
  { intros ep Hep. apply list_elem_of_In, in_seq in Hep.
    apply Hdone; [apply list_elem_of_here|lia]. }
  induction (seq 0 num_eps) as [|ep eps IHe]; [reflexivity|].
  rewrite filter_cons.
  rewrite decide_False
    by (intros Hn; apply Hn, Hall, list_elem_of_here).
  apply IHe. intros ep' Hep'. apply Hall, list_elem_of_further, Hep'.
Qed.
End TaskFacts.

Section MainFacts.
Import Dispatch.

(** X17: when every episode of every requested robot is done, [main] calls no
    worker: it makes the folders of the whitelists, prints that there is
    nothing to do and returns, and the lists of the whitelists are as before. *)
Theorem main_with_nothing_left_runs_no_task (inp : main_inputs) executor
    args files evs path dmeta :
  replay_path inp !! robot_dataset args = Some path ->
  dataset_metadata_json inp path = Some dmeta ->
  (forall robot ep,
     robot ∈ target_robot args -> ep < num_episodes dmeta ->
     ep ∈ completion_set files robot) ->
  let r := main inp executor args (files, evs) in
  fst r = Ok tt
  /\ snd (snd r)
     = evs ++ map (MkdirWhitelistParent path) (target_robot args)
       ++ [PrintNothingToDo]
  /\ forall robot, listed (fst (snd r)) robot = listed files robot.
Proof.
  intros Hpath Hmeta Hdone. cbv zeta.
  unfold main, mbind, M_bind, dict_get. rewrite Hpath. cbn [mret M_ret].
  rewrite Hmeta. cbn [mret M_ret]. rewrite enumerate_tasks_unfold.
  rewrite no_task_when_all_done by exact Hdone.
  cbn. rewrite <- app_assoc. repeat split.
  intros robot. apply listed_after_reads.
Qed.

End MainFacts.

(** ** The field of view *)

Section FovFacts.
Context {F : Type} `{Scalar F} `{External F}.
Variable inp : inputs F.
Variable fov : viewpoint F -> F.

Lemma find_viewpoint_with_camera_fov episode (vs : list (viewpoint F)) :
  find_viewpoint episode (map (with_camera_fov fov) vs)
  = with_camera_fov fov <$> find_viewpoint episode vs.
Proof.
  induction vs as [|v vs IH]; [reflexivity|].
  unfold find_viewpoint in *. cbn [map List.find with_camera_fov episodes].
  destruct (bool_decide (episode ∈ episodes v)); [reflexivity|exact IH].
Qed.

Lemma replay_loop_extend_gripper self vs vs' eg gripper_array d unlimited
    dry_run episode rows :
  forall pose_index l w,
    replay_loop self (DatasetInfo vs eg) gripper_array d unlimited dry_run
      episode rows pose_index l w
    = replay_loop self (DatasetInfo vs' eg) gripper_array d unlimited dry_run
        episode rows pose_index l w.
Proof.
  induction rows as [|row rows IH]; intros pose_index l w; [reflexivity|].
  rewrite !replay_loop_cons.
  change (replay_step self (DatasetInfo vs eg) gripper_array d unlimited
            dry_run episode row pose_index l w)
    with (replay_step self (DatasetInfo vs' eg) gripper_array d unlimited
            dry_run episode row pose_index l w).
  destruct (replay_step _ _ _ _ _ _ _ _ _ _ _) as [[[l'|l']|e] w'];
    [apply IH|reflexivity|reflexivity].
Qed.

(** X18: the field of view of a viewpoint never reaches the simulator: line
    51 reads it and nothing uses it, so a replay does the same and returns the
    same whatever the [camera_fov] of the viewpoints of the table. *)
Theorem viewpoint_fov_is_never_applied self save src robot_dataset robot_disp
    unlimited episode dry_run w :
  generate_image (with_viewpoint_fovs fov inp) self save src robot_dataset
    robot_disp unlimited episode dry_run w
  = generate_image inp self save src robot_dataset robot_disp unlimited
      episode dry_run w.
Proof.
  rewrite !generate_image_unfold, !prepare_unfold.
  unfold with_viewpoint_fovs at 1 2.
  cbn [source_robot_states ROBOT_CAMERA_POSES_DICT].
  destruct (source_robot_states inp src episode) as [data|]; [|reflexivity].
  rewrite lookup_fmap.
  destruct (ROBOT_CAMERA_POSES_DICT inp !! robot_dataset) as [[vs eg]|];
    [|reflexivity].
  cbn [fmap option_fmap option_map viewpoints extend_gripper].
  change (disp_in_use (with_viewpoint_fovs fov inp) robot_dataset
            (target_name self) robot_disp)
    with (disp_in_use inp robot_dataset (target_name self) robot_disp).
  destruct (disp_in_use inp robot_dataset (target_name self) robot_disp)
    as [d|e]; [|reflexivity].
  unfold resolve_camera_pose. cbn [viewpoints].
  rewrite find_viewpoint_with_camera_fov.
  destruct (find_viewpoint episode vs) as [v|]; [|reflexivity].
  cbn [fmap option_fmap option_map].
  change (viewpoint_camera_pose (with_camera_fov fov v))
    with (viewpoint_camera_pose v).
  rewrite (replay_loop_extend_gripper self (map (with_camera_fov fov) vs) vs).
  reflexivity.
Qed.
End FovFacts.

(** ** More runs on the bench *)

Module BenchExtras.
Import Bench BenchInputs BenchMore Dispatch.

Lemma replay_result_counts_the_steps_witness :
  1 <= length (repeat row 2)
  /\ 1 < length (repeat row 2) /\ false = false.
Proof.
  apply (replay_result_counts_the_steps tables panda "out" "out" "demo" None
           false 1 false (start [true; false])
           (EpisodeData (repeat row 2) (repeat 0%Q 2) None)
           false (V3 (-4 # 400) 0 (0 # 4))%Q 1
           (snd (generate_image tables panda "out" "out" "demo" None false 1
                   false (start [true; false])))).
  - reflexivity.
  - vm_compute. reflexivity.
Defined.

Lemma successful_commit_writes_videos_and_archive_witness :
  exists masks frames poses joints widths,
    length masks = 2 /\ length frames = 2
    /\ length poses = 2 /\ length joints = 2
    /\ length widths = 2
    /\ fs (snd (generate_image tables panda "out" "out" "demo" None false 1
                  false (start [true; true])))
       = fs (start [true; true]) ++ replay_dirs "out" panda
         ++ replay_videos "out" panda 1 masks frames
         ++ replay_archive "out" panda 1 poses joints widths origin.
Proof.
  apply (successful_commit_writes_videos_and_archive tables panda "out" "out"
           "demo" None false 1 (start [true; true]) origin zeros3 2
           (snd (generate_image tables panda "out" "out" "demo" None false 1
                   false (start [true; true])))).
  - vm_compute. reflexivity.
  - vm_compute. reflexivity.
Defined.

Lemma replay_raises_only_witness :
  (snd (generate_image tables panda "out" "out" "demo" None false 0 false
          (start [false])) = start [false]
   /\ (ValueError "need at least one array to stack" = FileNotFoundError
       \/ (exists k, ValueError "need at least one array to stack"
                     = KeyError k)
       \/ ValueError "need at least one array to stack"
          = UnboundLocalError "camera_pose"))
  \/ (ValueError "need at least one array to stack" = IndexError
      /\ (exists data,
            source_robot_states tables "out" 0 = Some data
            /\ length (data_grip data) < length (data_pos data))
      /\ fs (snd (generate_image tables panda "out" "out" "demo" None false 0
                    false (start [false])))
         = fs (start [false]) ++ replay_dirs "out" panda)
  \/ (ValueError "need at least one array to stack"
      = ValueError "need at least one array to stack"
      /\ false = false
      /\ fs (snd (generate_image tables panda "out" "out" "demo" None false 0
                    false (start [false])))
         = fs (start [false]) ++ replay_dirs "out" panda).
Proof.
  apply (replay_raises_only tables panda "out" "out" "demo" None false 0 false
           (start [false]) (ValueError "need at least one array to stack")
           (snd (generate_image tables panda "out" "out" "demo" None false 0
                   false (start [false])))).
  vm_compute. reflexivity.
Defined.

Lemma replay_without_viewpoint_raises_witness :
  generate_image tables panda "out" "out" "demo" None false 3 false
    (start [])
  = (Raise (UnboundLocalError "camera_pose"), start []).
Proof.
  apply (replay_without_viewpoint_raises tables panda "out" "out" "demo" None
           false 3 false (start [])
           (EpisodeData (repeat row 4) (repeat 0%Q 4) None)
           (DatasetInfo
              [Viewpoint (V3 1 0 1)%Q 0%Q 0%Q 0%Q 45%Q [0; 1; 2]] 0%Q)
           origin).
  - reflexivity.
  - vm_compute. reflexivity.
  - vm_compute. reflexivity.
  - intros v Hv. apply list_elem_of_singleton in Hv. subst v. cbn.
    intros Hin. repeat (apply elem_of_cons in Hin as [Hin|Hin];
                        [discriminate|]). inversion Hin.
Defined.

Lemma unlimited_replay_with_missing_width_raises_witness :
  fst (generate_image tables_missing_width panda "out" "out" "demo" None true
         1 true (start []))
  = Raise IndexError.
Proof.
  apply (unlimited_replay_with_missing_width_raises tables_missing_width panda
           "out" "out" "demo" None 1 true (start [])
           (EpisodeData (repeat row 2) (repeat 0%Q 1) None)
           (DatasetInfo
              [Viewpoint (V3 1 0 1)%Q 0%Q 0%Q 0%Q 45%Q [0; 1; 2]] 0%Q)
           origin
           (Viewpoint (V3 1 0 1)%Q 0%Q 0%Q 0%Q 45%Q [0; 1; 2])).
  - reflexivity.
  - vm_compute. reflexivity.
  - vm_compute. reflexivity.
  - reflexivity.
  - cbn. lia.
Defined.

Lemma search_returns_a_replayed_displacement_witness :
  exists ok n new,
    snd (snd (search dry 1 "Panda" 5 origin (flit 0.05%Q)
                (start [false; true; true], [])))
    = [] ++ new
    /\ DebugTestDisp 1 "Panda"
         (vadd origin (V3 (flit 0.05%Q) (flit 0) (flit 0))) ok n ∈ new.
Proof.
  apply (search_returns_a_replayed_displacement dry 1 "Panda" 4 origin
           (flit 0.05%Q) (start [false; true; true]) []
           (vadd origin (V3 (flit 0.05%Q) (flit 0) (flit 0)))
           (snd (search dry 1 "Panda" 5 origin (flit 0.05%Q)
                   (start [false; true; true], [])))).
  vm_compute. reflexivity.
Defined.

Lemma reported_success_has_its_artifacts_witness :
  exists masks frames poses joints widths d,
    length masks = length poses /\ length frames = length poses
    /\ length joints = length poses /\ length widths = length poses
    /\ fs (fst (snd (generate_one_episode tables "demo" "Panda" 1 (256, 256)
                       "out" false false (start [true; true], []))))
       = fs (start [true; true]) ++ replay_dirs "out" (Wrapper "Panda" 256 256)
         ++ replay_videos "out" (Wrapper "Panda" 256 256) 1 masks frames
         ++ replay_archive "out" (Wrapper "Panda" 256 256) 1 poses joints
              widths d.
Proof.
  apply (reported_success_has_its_artifacts tables "demo" "Panda" 1 256 256
           "out" false false (start [true; true]) [] "Panda" 1 true
           (fst (snd (generate_one_episode tables "demo" "Panda" 1 (256, 256)
                        "out" false false (start [true; true], []))))
           (snd (snd (generate_one_episode tables "demo" "Panda" 1 (256, 256)
                        "out" false false (start [true; true], []))))).
  vm_compute. reflexivity.
Defined.

Lemma unlimited_worker_commits_the_default_displacement_witness :
  exists w' masks frames poses joints widths,
    generate_one_episode tables "demo" "Panda" 1 (256, 256) "out" true false
      (start [false; false; false; false], [])
    = (Ok ("Panda", 1, true),
       (w',
        [] ++ [InfoInitialDisplacement 1 "Panda" origin;
               DebugTestDisp 1 "Panda" origin true 2]))
    /\ length poses = 2
    /\ fs w'
       = fs (start [false; false; false; false])
         ++ replay_dirs "out" (Wrapper "Panda" 256 256)
         ++ replay_videos "out" (Wrapper "Panda" 256 256) 1 masks frames
         ++ replay_archive "out" (Wrapper "Panda" 256 256) 1 poses joints
              widths origin.
Proof.
  apply (unlimited_worker_commits_the_default_displacement tables "demo"
           "Panda" 1 256 256 "out" (start [false; false; false; false]) []
           (proc (start [false; false; false; false]))
           (proc (start [false; false; false; false]))
           (proc (start [false; false; false; false]))
           "PandaGripper" {[ "Panda" := origin ]} origin
           (EpisodeData (repeat row 2) (repeat 0%Q 2) None)
           (DatasetInfo
              [Viewpoint (V3 1 0 1)%Q 0%Q 0%Q 0%Q 45%Q [0; 1; 2]] 0%Q)
           (Viewpoint (V3 1 0 1)%Q 0%Q 0%Q 0%Q 45%Q [0; 1; 2])).
  - reflexivity.
  - reflexivity.
  - vm_compute. reflexivity.
  - reflexivity.
  - vm_compute. reflexivity.
  - vm_compute. reflexivity.
  - reflexivity.
  - vm_compute. reflexivity.
  - reflexivity.
  - cbn. lia.
  - cbn. lia.
Defined.

Lemma main_with_nothing_left_runs_no_task_witness :
  let r := main demo_metadata (fun _ => []) demo_args (all_done, []) in
  fst r = Ok tt
  /\ snd (snd r)
     = [] ++ map (MkdirWhitelistParent "out") (target_robot demo_args)
       ++ [PrintNothingToDo]
  /\ forall robot, listed (fst (snd r)) robot = listed all_done robot.
Proof.
  apply (main_with_nothing_left_runs_no_task demo_metadata (fun _ => [])
           demo_args all_done [] "out" (DatasetMetadata 256 256 2)).
  - vm_compute. reflexivity.
  - reflexivity.
  - intros robot ep Hr Hep. apply list_elem_of_singleton in Hr. subst robot.
    unfold completion_set.
    change (default [] (default ∅ (all_done !! "Panda") !! "Panda"))
      with [0; 1].
    apply elem_of_list_to_set. cbn in Hep.
    destruct ep as [|[|ep]]; [apply list_elem_of_here
                             |apply list_elem_of_further, list_elem_of_here
                             |lia].
Defined.
End BenchExtras.
